(** * The MQTT ingestion pipeline of the sleep-blanket backend

    A shallow embedding of [mqtt_receiver_mysql.py] (class [MQTTReceiver]:
    [handle_message], [extract_device_id], [parse_data], [handle_alarm]),
    of [MySQLDataManager.insert_device_data] from [database_manager.py] and
    of the [ALARM_CONFIG] constant of [alarm_config.py].

    Python text is a list of code points, a byte string a list of byte
    values.  The parts of the interpreter the code calls into (UTF-8
    decoding, [str] methods, [int], [float], [json.loads]) are modelled
    here as functions; what they take from the Unicode character database
    outside Basic Latin is a field of [Runtime].  Python exceptions are the
    [Raise] results of an error monad; [try]/[except Exception] is
    [try_except].
    The stateful part (the [stats] dictionary, log records, console output
    and SQL statements sent to the cursor) is a state monad over [World]. *)

From Stdlib Require Import List ZArith NArith Bool Ascii String Lia.
From Stdlib Require Import SpecFloat.
Import ListNotations.

Set Implicit Arguments.
Set Warnings "-register-all".
Open Scope Z_scope.

(** ** Text and byte strings *)

Definition codepoint := N.
Definition str := list codepoint.
Definition bytes := list N.

(** A literal of the source, as code points. *)
Definition lit (s : string) : str := map N_of_ascii (list_ascii_of_string s).

(** A literal in which ['] stands for the double quote. *)
Definition qlit (s : string) : str :=
  map (fun c => if N.eqb c 39 then 34%N else c) (lit s).

Fixpoint str_eqb (a b : str) : bool :=
  match a, b with
  | [], [] => true
  | x :: a', y :: b' => N.eqb x y && str_eqb a' b'
  | _, _ => false
  end.

(** [s.startswith(p)] *)
Fixpoint startswith (p s : str) : bool :=
  match p, s with
  | [], _ => true
  | x :: p', y :: s' => N.eqb x y && startswith p' s'
  | _ :: _, [] => false
  end.

(** [sub in s] *)
Fixpoint contains (sub s : str) : bool :=
  startswith sub s ||
  match s with
  | [] => false
  | _ :: t => contains sub t
  end.

(** [s.split(sep)] for a non-empty [sep]: cut at each occurrence found from
    the left, occurrences do not overlap.  [skip] counts the characters of
    the occurrence just found that are still to be passed over. *)
Fixpoint split_go (sep : str) (skip : nat) (cur : str) (s : str) : list str :=
  match s with
  | [] => [rev cur]
  | c :: t =>
      match skip with
      | S k => split_go sep k cur t
      | O =>
          if startswith sep s
          then rev cur :: split_go sep (Nat.pred (List.length sep)) [] t
          else split_go sep 0%nat (c :: cur) t
      end
  end.

Definition split (sep s : str) : list str := split_go sep 0%nat [] s.

(** [s.split(c, 1)] for a one-character separator: at most one cut. *)
Fixpoint split_once_go (c : codepoint) (cur : str) (s : str) : list str :=
  match s with
  | [] => [rev cur]
  | x :: t => if N.eqb x c then [rev cur; t] else split_once_go c (x :: cur) t
  end.

Definition split_once (c : codepoint) (s : str) : list str := split_once_go c [] s.

(** [s.replace(c, '')] for a one-character [c]. *)
Definition remove_char (c : codepoint) (s : str) : str :=
  filter (fun x => negb (N.eqb x c)) s.

(** The characters [str.strip()] removes: Unicode white space. *)
Definition isspace_char (c : codepoint) : bool :=
  ((9 <=? c) && (c <=? 13) || (28 <=? c) && (c <=? 32) ||
   (c =? 133) || (c =? 160) || (c =? 5760) ||
   (8192 <=? c) && (c <=? 8202) || (c =? 8232) || (c =? 8233) ||
   (c =? 8239) || (c =? 8287) || (c =? 12288))%N.

Fixpoint lstrip (s : str) : str :=
  match s with
  | [] => []
  | c :: t => if isspace_char c then lstrip t else s
  end.

Definition rstrip (s : str) : str := rev (lstrip (rev s)).

Definition strip (s : str) : str := rstrip (lstrip s).

(** ** What the code takes from the interpreter

    [str.isdigit], [str.lower], [int] and [float] consult the Unicode
    character database; on Basic Latin their behaviour is fixed below, the
    rest is a parameter.  [int_max_str_digits] is the interpreter's limit
    on the length of a decimal literal given to [int] ([None], or zero: no
    limit).  [json_depth] is the number of objects and arrays, one inside
    the other, that [json.loads] can enter before the interpreter's
    recursion limit is met; it depends on the version of the interpreter
    and on the depth of the stack at the call. *)
Record Runtime := {
  uni_isdigit : codepoint -> bool;
  uni_decimal : codepoint -> option N;
  uni_lower : str -> str;
  int_max_str_digits : option N;
  json_depth : nat
}.

(** A runtime that knows no digit and no cased letter outside Basic Latin
    and lets the decoder nest 994 deep (the default recursion limit of
    1000, less the frames above the decoder); on text of Basic Latin with
    no deeper nesting every runtime of at least that depth agrees with
    it. *)
Definition basic_latin : Runtime := {|
  uni_isdigit := fun _ => false;
  uni_decimal := fun _ => None;
  uni_lower := fun s => s;
  int_max_str_digits := None;
  json_depth := 994
|}.

(** Python exceptions (subclasses of [Exception]) the pipeline can meet. *)
Inductive exn :=
| UnicodeDecodeError
| UnicodeEncodeError
| ValueError
| JSONDecodeError
| RecursionError
| TypeError
| OSError
| DatabaseError.

Inductive Result (A : Type) :=
| Ok (a : A)
| Raise (e : exn).
Arguments Ok {A} a.
Arguments Raise {A} e.

Definition rbind {A B} (r : Result A) (k : A -> Result B) : Result B :=
  match r with
  | Ok a => k a
  | Raise e => Raise e
  end.

Section Text.
Variable R : Runtime.

Definition is_ascii (c : codepoint) : bool := (c <? 128)%N.

Definition isdigit_char (c : codepoint) : bool :=
  if is_ascii c then ((48 <=? c) && (c <=? 57))%N else uni_isdigit R c.

(** The value of a decimal digit, as [int] and [float] read it. *)
Definition decimal_char (c : codepoint) : option N :=
  if is_ascii c
  then (if ((48 <=? c) && (c <=? 57))%N then Some (c - 48)%N else None)
  else uni_decimal R c.

(** [s.isdigit()]: non-empty and every character a digit. *)
Definition isdigit (s : str) : bool :=
  match s with
  | [] => false
  | _ => forallb isdigit_char s
  end.

Definition lower_char (c : codepoint) : codepoint :=
  if ((65 <=? c) && (c <=? 90))%N then (c + 32)%N else c.

(** [s.lower()] *)
Definition lower (s : str) : str :=
  if forallb is_ascii s then map lower_char s else uni_lower R s.

Fixpoint digits_value (acc : Z) (s : str) : option Z :=
  match s with
  | [] => Some acc
  | c :: t =>
      match decimal_char c with
      | Some d => digits_value (10 * acc + Z.of_N d) t
      | None => None
      end
  end.

(** The limit is looked at for literals of more than 640 digits only. *)
Definition over_digit_limit (s : str) : bool :=
  (640 <? N.of_nat (List.length s))%N &&
  match int_max_str_digits R with
  | Some n => ((0 <? n) && (n <? N.of_nat (List.length s)))%N
  | None => false
  end.

(** [int(s)] on a string of digits, which is all the source gives it
    (every call is guarded by [isdigit]): a digit that is not a decimal
    one, or a literal over the length limit, raises [ValueError]. *)
Definition py_int (s : str) : Result Z :=
  match s with
  | [] => Raise ValueError
  | _ =>
      match digits_value 0 s with
      | Some v => if over_digit_limit s then Raise ValueError else Ok v
      | None => Raise ValueError
      end
  end.

(** The binary64 value nearest to [m * 10^e] (ties to even), for [m >= 0]. *)
Definition decimal_to_float (neg : bool) (m e : Z) : spec_float :=
  match m with
  | Zpos p =>
      if 0 <=? e
      then binary_round 53 1024 neg (Pos.mul p (Z.to_pos (10 ^ e))) 0
      else
        let d := 10 ^ (- e) in
        let k := Z.max 0 (Z.log2 d - Z.log2 m + 56) in
        let n := m * 2 ^ k in
        let r := n mod d in
        let l := if r =? 0 then loc_Exact else loc_Inexact (Z.compare (2 * r) d) in
        binary_round_aux 53 1024 neg (n / d) (- k) l
  | _ => S754_zero neg
  end.

(** [float(s)] on a string of digits and dots, which is all the source
    gives it: more than one dot, a lone dot, or a digit that is not a
    decimal one raises [ValueError]. *)
Definition py_float (s : str) : Result spec_float :=
  match split (lit ".") s with
  | [ip] =>
      match ip, digits_value 0 ip with
      | _ :: _, Some m => Ok (decimal_to_float false m 0)
      | _, _ => Raise ValueError
      end
  | [ip; fp] =>
      match ip ++ fp, digits_value 0 (ip ++ fp) with
      | _ :: _, Some m => Ok (decimal_to_float false m (- Z.of_nat (List.length fp)))
      | _, _ => Raise ValueError
      end
  | _ => Raise ValueError
  end.
End Text.

(** ** Python values and dictionaries *)

Inductive pyval :=
| PNone
| PBool (b : bool)
| PInt (z : Z)
| PFloat (f : spec_float)
| PStr (s : str)
| PList (l : list pyval)
| PDict (d : list (str * pyval))
| PDatetime (t : Z).

(** A [dict] with text keys, in insertion order. *)
Definition dict := list (str * pyval).

(** [d.get(k)] ([None] of Rocq: the key is missing) *)
Fixpoint dict_get (k : str) (d : dict) : option pyval :=
  match d with
  | [] => None
  | (k', v) :: t => if str_eqb k' k then Some v else dict_get k t
  end.

(** [d[k] = v]: an existing key keeps its place. *)
Fixpoint dict_set (k : str) (v : pyval) (d : dict) : dict :=
  match d with
  | [] => [(k, v)]
  | (k', v') :: t => if str_eqb k' k then (k, v) :: t else (k', v') :: dict_set k v t
  end.

(** [d.get(k, default)] *)
Definition dict_get_default (k : str) (default : pyval) (d : dict) : pyval :=
  match dict_get k d with
  | Some v => v
  | None => default
  end.

Definition float_one : spec_float := binary_round 53 1024 false 1 0.

(** Truth value of an object, as [if] and [not] take it. *)
Definition truthy (v : pyval) : bool :=
  match v with
  | PNone => false
  | PBool b => b
  | PInt z => negb (z =? 0)
  | PFloat f => negb (SFeqb f (S754_zero false))
  | PStr s => match s with [] => false | _ => true end
  | PList l => match l with [] => false | _ => true end
  | PDict d => match d with [] => false | _ => true end
  | PDatetime _ => true
  end.

(** [v == 1] *)
Definition eq_one (v : pyval) : bool :=
  match v with
  | PBool b => b
  | PInt z => z =? 1
  | PFloat f => SFeqb f float_one
  | _ => false
  end.

(** [v == s] for a text [s] *)
Definition eq_str (v : pyval) (s : str) : bool :=
  match v with
  | PStr s' => str_eqb s' s
  | _ => false
  end.

(** ** [json.loads]

    The decoder of the standard library on text: white space is space, tab,
    line feed and carriage return; [NaN], [Infinity] and [-Infinity] are
    accepted; strings are strict (no control character); a repeated key
    keeps its last value.  The scanner enters an object or an array
    through a guarded recursive call: nesting deeper than [json_depth]
    raises [RecursionError].  [fuel] only makes the recursion structural:
    it is the length of the text, which a well nested text never
    exhausts. *)
Section Json.
Variable R : Runtime.

Definition json_ws (c : codepoint) : bool :=
  ((c =? 32) || (c =? 9) || (c =? 10) || (c =? 13))%N.

Fixpoint skip_ws (s : str) : str :=
  match s with
  | [] => []
  | c :: t => if json_ws c then skip_ws t else s
  end.

Definition ascii_digit (c : codepoint) : bool := ((48 <=? c) && (c <=? 57))%N.

Definition hex_value (c : codepoint) : option N :=
  if ascii_digit c then Some (c - 48)%N
  else if ((97 <=? c) && (c <=? 102))%N then Some (c - 87)%N
  else if ((65 <=? c) && (c <=? 70))%N then Some (c - 55)%N
  else None.

Definition hex4 (a b c d : codepoint) : option N :=
  match hex_value a, hex_value b, hex_value c, hex_value d with
  | Some x, Some y, Some z, Some w => Some (((x * 16 + y) * 16 + z) * 16 + w)%N
  | _, _, _, _ => None
  end.

Definition simple_escape (c : codepoint) : option codepoint :=
  (if c =? 34 then Some 34 else if c =? 92 then Some 92
   else if c =? 47 then Some 47 else if c =? 98 then Some 8
   else if c =? 102 then Some 12 else if c =? 110 then Some 10
   else if c =? 114 then Some 13 else if c =? 116 then Some 9
   else None)%N.

Definition high_surrogate (c : N) : bool := ((55296 <=? c) && (c <=? 56319))%N.
Definition low_surrogate (c : N) : bool := ((56320 <=? c) && (c <=? 57343))%N.

(** The text after an opening quote, up to the closing one. *)
Fixpoint scan_string (acc : str) (s : str) : Result (str * str) :=
  match s with
  | [] => Raise JSONDecodeError
  | c :: t =>
      if (c =? 34)%N then Ok (rev acc, t)
      else if (c =? 92)%N then
        match t with
        | [] => Raise JSONDecodeError
        | e :: t1 =>
            if (e =? 117)%N then
              match t1 with
              | h1 :: h2 :: h3 :: h4 :: t2 =>
                  match hex4 h1 h2 h3 h4 with
                  | None => Raise JSONDecodeError
                  | Some u =>
                      match t2 with
                      | b :: u' :: l1 :: l2 :: l3 :: l4 :: t3 =>
                          match hex4 l1 l2 l3 l4 with
                          | Some lo =>
                              if high_surrogate u && (b =? 92)%N && (u' =? 117)%N
                                 && low_surrogate lo
                              then scan_string
                                     ((65536 + (u - 55296) * 1024 + (lo - 56320))%N :: acc) t3
                              else scan_string (u :: acc) t2
                          | None => scan_string (u :: acc) t2
                          end
                      | _ => scan_string (u :: acc) t2
                      end
                  end
              | _ => Raise JSONDecodeError
              end
            else
              match simple_escape e with
              | Some x => scan_string (x :: acc) t1
              | None => Raise JSONDecodeError
              end
        end
      else if (c <? 32)%N then Raise JSONDecodeError
      else scan_string (c :: acc) t
  end.

(** The longest prefix of ASCII digits, and what follows it. *)
Fixpoint span_digits (s : str) : str * str :=
  match s with
  | c :: t => if ascii_digit c then let '(d, r) := span_digits t in (c :: d, r) else ([], s)
  | [] => ([], [])
  end.

Fixpoint ascii_digits_value (acc : Z) (s : str) : Z :=
  match s with
  | [] => acc
  | c :: t => ascii_digits_value (10 * acc + Z.of_N (c - 48)) t
  end.

(** The integer part of a number: [0], or a non-zero digit and more digits. *)
Definition span_integer (s : str) : option (str * str) :=
  match s with
  | c :: t =>
      if (c =? 48)%N then Some ([c], t)
      else if ascii_digit c then Some (span_digits s)
      else None
  | [] => None
  end.

Definition span_fraction (s : str) : str * str :=
  match s with
  | c :: t =>
      if (c =? 46)%N then
        match span_digits t with
        | ([], _) => ([], s)
        | (d, r) => (d, r)
        end
      else ([], s)
  | [] => ([], s)
  end.

(** The exponent [e], [E] with an optional sign and digits, when present. *)
Definition span_exponent (s : str) : option Z * str :=
  match s with
  | c :: t =>
      if ((c =? 101) || (c =? 69))%N then
        let '(neg, t') :=
          match t with
          | x :: t1 => if (x =? 45)%N then (true, t1)
                       else if (x =? 43)%N then (false, t1) else (false, t)
          | [] => (false, t)
          end in
        match span_digits t' with
        | ([], _) => (None, s)
        | (d, r) => (Some (if neg then - ascii_digits_value 0 d else ascii_digits_value 0 d), r)
        end
      else (None, s)
  | [] => (None, s)
  end.

(** A number at the head of [s]: [None] when there is none, otherwise the
    result of [int] or [float] on its text, and the rest. *)
Definition match_number (s : str) : option (Result pyval * str) :=
  let '(neg, s1) :=
    match s with
    | c :: t => if (c =? 45)%N then (true, t) else (false, s)
    | [] => (false, s)
    end in
  match span_integer s1 with
  | None => None
  | Some (ip, s2) =>
      let '(fp, s3) := span_fraction s2 in
      let '(ex, s4) := span_exponent s3 in
      match fp, ex with
      | [], None =>
          let v := ascii_digits_value 0 ip in
          Some (if over_digit_limit R ip then Raise ValueError
                else Ok (PInt (if neg then - v else v)), s4)
      | _, _ =>
          let e := match ex with Some e => e | None => 0 end in
          Some (Ok (PFloat (decimal_to_float neg (ascii_digits_value 0 (ip ++ fp))
                              (e - Z.of_nat (List.length fp)))), s4)
      end
  end.

Section Containers.
Variable scan : str -> Result (pyval * str).

(** The members of an object, from the quote that opens a key. *)
Fixpoint members (n : nat) (acc : dict) (s : str) : Result (pyval * str) :=
  match n with
  | O => Raise JSONDecodeError
  | S n' =>
      match s with
      | c :: t =>
          if (c =? 34)%N then
            match scan_string [] t with
            | Raise e => Raise e
            | Ok (key, s1) =>
                match skip_ws s1 with
                | c1 :: s2 =>
                    if (c1 =? 58)%N then
                      match scan (skip_ws s2) with
                      | Raise e => Raise e
                      | Ok (v, s3) =>
                          let acc' := dict_set key v acc in
                          match skip_ws s3 with
                          | c2 :: s4 =>
                              if (c2 =? 125)%N then Ok (PDict acc', s4)
                              else if (c2 =? 44)%N then members n' acc' (skip_ws s4)
                              else Raise JSONDecodeError
                          | [] => Raise JSONDecodeError
                          end
                      end
                    else Raise JSONDecodeError
                | [] => Raise JSONDecodeError
                end
            end
          else Raise JSONDecodeError
      | [] => Raise JSONDecodeError
      end
  end.

(** The elements of an array, from its first value. *)
Fixpoint elements (n : nat) (acc : list pyval) (s : str) : Result (pyval * str) :=
  match n with
  | O => Raise JSONDecodeError
  | S n' =>
      match scan s with
      | Raise e => Raise e
      | Ok (v, s1) =>
          match skip_ws s1 with
          | c :: s2 =>
              if (c =? 93)%N then Ok (PList (rev (v :: acc)), s2)
              else if (c =? 44)%N then elements n' (v :: acc) (skip_ws s2)
              else Raise JSONDecodeError
          | [] => Raise JSONDecodeError
          end
      end
  end.
End Containers.

Definition skipn_str (n : nat) (s : str) : str := skipn n s.

Fixpoint scan_once (fuel depth : nat) (s : str) : Result (pyval * str) :=
  match fuel with
  | O => Raise JSONDecodeError
  | S fuel' =>
      match s with
      | [] => Raise JSONDecodeError
      | c :: t =>
          if (c =? 34)%N then
            match scan_string [] t with
            | Ok (x, r) => Ok (PStr x, r)
            | Raise e => Raise e
            end
          else if (c =? 123)%N then
            match depth with
            | O => Raise RecursionError
            | S depth' =>
                match skip_ws t with
                | c1 :: t1 =>
                    if (c1 =? 125)%N then Ok (PDict [], t1)
                    else members (scan_once fuel' depth') (List.length s) [] (c1 :: t1)
                | [] => Raise JSONDecodeError
                end
            end
          else if (c =? 91)%N then
            match depth with
            | O => Raise RecursionError
            | S depth' =>
                match skip_ws t with
                | c1 :: t1 =>
                    if (c1 =? 93)%N then Ok (PList [], t1)
                    else elements (scan_once fuel' depth') (List.length s) [] (c1 :: t1)
                | [] => Raise JSONDecodeError
                end
            end
          else if startswith (lit "null") s then Ok (PNone, skipn_str 4 s)
          else if startswith (lit "true") s then Ok (PBool true, skipn_str 4 s)
          else if startswith (lit "false") s then Ok (PBool false, skipn_str 5 s)
          else
            match match_number s with
            | Some (Ok v, r) => Ok (v, r)
            | Some (Raise e, _) => Raise e
            | None =>
                if startswith (lit "NaN") s then Ok (PFloat S754_nan, skipn_str 3 s)
                else if startswith (lit "Infinity") s
                then Ok (PFloat (S754_infinity false), skipn_str 8 s)
                else if startswith (lit "-Infinity") s
                then Ok (PFloat (S754_infinity true), skipn_str 9 s)
                else Raise JSONDecodeError
            end
      end
  end.

(** [json.loads(s)] *)
Definition json_loads (s : str) : Result pyval :=
  if startswith [65279%N] s then Raise JSONDecodeError
  else
    match scan_once (S (List.length s)) (json_depth R) (skip_ws s) with
    | Raise e => Raise e
    | Ok (v, r) =>
        match skip_ws r with
        | [] => Ok v
        | _ :: _ => Raise JSONDecodeError
        end
    end.
End Json.

(** ** [bytes.decode('utf-8')]

    Strict decoding: an over-long form, a surrogate, a value above
    U+10FFFF or a truncated sequence raises [UnicodeDecodeError]. *)
Definition continuation (b : N) : bool := ((128 <=? b) && (b <=? 191))%N.

Definition rcons (c : codepoint) (r : Result str) : Result str :=
  rbind r (fun s => Ok (c :: s)).

Fixpoint utf8_decode (b : bytes) : Result str :=
  match b with
  | [] => Ok []
  | b0 :: t =>
      if (b0 <? 128)%N then rcons b0 (utf8_decode t)
      else if ((194 <=? b0) && (b0 <=? 223))%N then
        match t with
        | b1 :: t1 =>
            if continuation b1
            then rcons ((b0 - 192) * 64 + (b1 - 128))%N (utf8_decode t1)
            else Raise UnicodeDecodeError
        | _ => Raise UnicodeDecodeError
        end
      else if ((224 <=? b0) && (b0 <=? 239))%N then
        match t with
        | b1 :: b2 :: t2 =>
            if continuation b1 && continuation b2
               && negb ((b0 =? 224) && (b1 <? 160))%N
               && negb ((b0 =? 237) && (159 <? b1))%N
            then rcons (((b0 - 224) * 64 + (b1 - 128)) * 64 + (b2 - 128))%N (utf8_decode t2)
            else Raise UnicodeDecodeError
        | _ => Raise UnicodeDecodeError
        end
      else if ((240 <=? b0) && (b0 <=? 244))%N then
        match t with
        | b1 :: b2 :: b3 :: t3 =>
            if continuation b1 && continuation b2 && continuation b3
               && negb ((b0 =? 240) && (b1 <? 144))%N
               && negb ((b0 =? 244) && (143 <? b1))%N
            then rcons ((((b0 - 240) * 64 + (b1 - 128)) * 64 + (b2 - 128)) * 64 + (b3 - 128))%N
                       (utf8_decode t3)
            else Raise UnicodeDecodeError
        | _ => Raise UnicodeDecodeError
        end
      else Raise UnicodeDecodeError
  end.

(** ** The receiver's world

    [Stats] is [self.stats]; the journal keeps, oldest first, what a call
    sends out: log records, lines printed to the console, calls of the
    storage sink and the statements given to its cursor. *)
Record Stats := {
  total_received : Z;
  total_processed : Z;
  total_errors : Z;
  start_time : Z;
  last_message_time : option Z
}.

(** The log records of the two modules, by the call that writes them. *)
Inductive record :=
| MessageReceived (topic payload : str)   (* logger.debug, handle_message *)
| NoDeviceId (topic : str)                (* logger.warning, handle_message *)
| ParseFailed (payload : str)             (* logger.warning, handle_message *)
| DataStored (device_id : str)            (* logger.debug, handle_message *)
| StoreFailed (device_id : str)           (* logger.error, handle_message *)
| HandleFailed (e : exn)                  (* logger.error, handle_message *)
| ParseError (e : exn)                    (* logger.error, parse_data *)
| AlarmTriggered (device_id : str)        (* logger.warning, handle_alarm *)
| RowSaved (device_id : str)              (* logger.debug, insert_device_data *)
| InsertFailed (e : exn).                 (* logger.error, insert_device_data *)

Inductive event :=
| Log (r : record)                                  (* a log record *)
| ConsoleLine (device_id : str)                           (* the alarm line on the console *)
| InsertCall (device_id : str) (data_dict : dict)   (* insert_device_data is entered *)
| Execute (values : list pyval).                    (* cursor.execute(sql, values) *)

Record World := {
  stats : Stats;
  journal : list event
}.

(** What the surroundings answer during one call of [handle_message]: the
    clock, the database connection and the console.  Logging never raises
    (the [logging] module swallows the errors of its handlers); [print]
    and the database calls can. *)
Record Env := {
  now_arrival : Z;
  now_stamp : Z;
  db_cursor : Result unit;
  db_execute : list pyval -> Result unit;
  db_close : Result unit;
  console : str -> Result unit
}.

(** ** A state and error monad for the methods *)
Definition M (A : Type) := World -> Result A * World.

Definition ret {A} (a : A) : M A := fun w => (Ok a, w).

Definition bind {A B} (c : M A) (k : A -> M B) : M B :=
  fun w =>
    match c w with
    | (Ok a, w') => k a w'
    | (Raise e, w') => (Raise e, w')
    end.

Definition lift {A} (r : Result A) : M A := fun w => (r, w).

(** [try: body except Exception as e: handler(e)]: the handler starts from
    the world the body left. *)
Definition try_except {A} (body : M A) (handler : exn -> M A) : M A :=
  fun w =>
    match body w with
    | (Ok a, w') => (Ok a, w')
    | (Raise e, w') => handler e w'
    end.

Definition emit (e : event) : M unit :=
  fun w => (Ok tt, {| stats := stats w; journal := journal w ++ [e] |}).

Definition update_stats (f : Stats -> Stats) : M unit :=
  fun w => (Ok tt, {| stats := f (stats w); journal := journal w |}).

Declare Scope monad_scope.
Delimit Scope monad_scope with monad.
Notation "x <- c ;; k" := (bind c (fun x => k))
  (at level 61, c at next level, right associativity) : monad_scope.
Notation "c ;; k" := (bind c (fun _ => k))
  (at level 61, right associativity) : monad_scope.
Open Scope monad_scope.

Definition incr_received (s : Stats) : Stats :=
  {| total_received := total_received s + 1; total_processed := total_processed s;
     total_errors := total_errors s; start_time := start_time s;
     last_message_time := last_message_time s |}.

Definition incr_processed (s : Stats) : Stats :=
  {| total_received := total_received s; total_processed := total_processed s + 1;
     total_errors := total_errors s; start_time := start_time s;
     last_message_time := last_message_time s |}.

Definition incr_errors (s : Stats) : Stats :=
  {| total_received := total_received s; total_processed := total_processed s;
     total_errors := total_errors s + 1; start_time := start_time s;
     last_message_time := last_message_time s |}.

Definition set_last_message_time (t : Z) (s : Stats) : Stats :=
  {| total_received := total_received s; total_processed := total_processed s;
     total_errors := total_errors s; start_time := start_time s;
     last_message_time := Some t |}.

(** ** [alarm_config.py] *)
Definition ALARM_CONFIG : dict :=
  [ (lit "enable_connection_lost_alarm", PBool false);
    (lit "enable_device_alarm", PBool true);
    (lit "console_output", PBool false);
    (lit "silent_mode", PBool true);
    (lit "min_alarm_level", PStr (lit "MEDIUM"));
    (lit "connection_lost_cooldown", PInt 300);
    (lit "device_alarm_cooldown", PInt 60);
    (lit "ignored_devices", PList [PStr (lit "SB067")]) ].

(** ** [database_manager.py] *)
Module MySQLDataManager.

Definition get (k : string) (d : dict) : pyval :=
  dict_get_default (lit k) PNone d.

(** The tuple bound to the [INSERT] statement.  The default of the last
    entry is a reading of the clock that the caller never lets be used:
    it always sets [timestamp]. *)
Definition row (E : Env) (device_id : str) (data_dict : dict) : list pyval :=
  [ PStr device_id;
    get "raw_value" data_dict;
    get "rms_value" data_dict;
    get "threshold_value" data_dict;
    get "state" data_dict;
    get "movement_count" data_dict;
    dict_get_default (lit "is_connected") (PInt 1) data_dict;
    dict_get_default (lit "is_alarm") (PInt 0) data_dict;
    dict_get_default (lit "timestamp") (PDatetime (now_stamp E)) data_dict ].

(** [insert_device_data]: every failure of the connection is caught
    here, logged, and answered with [False]. *)
Definition insert_device_data (E : Env) (device_id : str) (data_dict : dict) : M bool :=
  emit (InsertCall device_id data_dict) ;;
  try_except
    (lift (db_cursor E) ;;
     emit (Execute (row E device_id data_dict)) ;;
     lift (db_execute E (row E device_id data_dict)) ;;
     lift (db_close E) ;;
     emit (Log (RowSaved device_id)) ;;
     ret true)
    (fun e => emit (Log (InsertFailed e)) ;; ret false).

End MySQLDataManager.

(** ** [mqtt_receiver_mysql.py] *)

(** A message as the client library hands it over: [msg.topic] decodes the
    topic bytes on access, [msg.payload] is the raw body. *)
Record MQTTMessage := {
  raw_topic : bytes;
  raw_payload : bytes
}.

Module MQTTReceiver.

(** *** [extract_device_id] *)

(** The longest prefix without [/], and what follows it. *)
Fixpoint span_segment (s : str) : str * str :=
  match s with
  | [] => ([], [])
  | c :: t =>
      if (c =? 47)%N then ([], s)
      else let '(seg, r) := span_segment t in (c :: seg, r)
  end.

(** A match of [sleep_blanket/([^/]+)/data] that starts at the head of
    [s]: its group.  The group cannot hold a [/] and a [/] has to follow
    it, so it is the whole run up to the next [/]. *)
Definition match_here (s : str) : option str :=
  if startswith (lit "sleep_blanket/") s then
    match span_segment (skipn 14 s) with
    | ([], _) => None
    | (seg, r) => if startswith (lit "/data") r then Some seg else None
    end
  else None.

(** [re.search(r'sleep_blanket/([^/]+)/data', topic)]: group 1 of the
    leftmost match, wherever in the topic it starts. *)
Fixpoint re_search (s : str) : option str :=
  match match_here s with
  | Some g => Some g
  | None =>
      match s with
      | [] => None
      | _ :: t => re_search t
      end
  end.

Definition extract_device_id (topic : str) : option str :=
  match re_search topic with
  | Some g => Some g
  | None =>
      if contains (lit "device/sleep_blanket") topic then Some (lit "GENERAL_DEVICE")
      else if contains (lit "sensors/sleep_monitor") topic then Some (lit "MONITOR_SENSOR")
      else None
  end.

Section WithRuntime.
Variable R : Runtime.

(** *** [parse_data] *)

(** [int(value) if value.isdigit() else default] *)
Definition int_or (default : pyval) (value : str) : Result pyval :=
  if isdigit R value then rbind (py_int R value) (fun v => Ok (PInt v))
  else Ok default.

(** [float(value) if value.replace('.', '').isdigit() else None] *)
Definition float_or_none (value : str) : Result pyval :=
  if isdigit R (remove_char 46%N value)
  then rbind (py_float R value) (fun f => Ok (PFloat f))
  else Ok PNone.

Definition in_strs (k : str) (l : list str) : bool := existsb (str_eqb k) l.

Definition store (k : string) (d : dict) (v : pyval) : Result dict :=
  Ok (dict_set (lit k) v d).

(** The body of the loop over [payload.split(', ')]. *)
Definition parse_part (d : dict) (part : str) : Result dict :=
  if contains (lit ":") part then
    match split_once 58%N part with
    | [key; value] =>
        let key := lower R (strip key) in
        let value := strip value in
        if str_eqb value (lit "N/A") then
          Ok (dict_set
                (if in_strs key [lit "raw"; lit "rms"; lit "th"]
                 then key ++ lit "_value" else key)
                PNone d)
        else if str_eqb key (lit "raw") then
          rbind (int_or PNone value) (store "raw_value" d)
        else if str_eqb key (lit "rms") then
          rbind (float_or_none value) (store "rms_value" d)
        else if str_eqb key (lit "th") then
          rbind (float_or_none value) (store "threshold_value" d)
        else if str_eqb key (lit "state") then
          rbind (int_or PNone value) (store "state" d)
        else if str_eqb key (lit "move") then
          rbind (int_or PNone value) (store "movement_count" d)
        else if str_eqb key (lit "connected") then
          rbind (int_or (PInt 1) value) (store "is_connected" d)
        else if str_eqb key (lit "alarm") then
          rbind (int_or (PInt 0) value) (store "is_alarm" d)
        else Ok d
    | _ => Raise ValueError
    end
  else Ok d.

Fixpoint parse_parts (d : dict) (parts : list str) : Result dict :=
  match parts with
  | [] => Ok d
  | p :: ps => rbind (parse_part d p) (fun d' => parse_parts d' ps)
  end.

(** The [try] block of [parse_data]. *)
Definition parse_body (payload : str) : Result pyval :=
  if startswith (lit "{") payload then json_loads R payload
  else rbind (parse_parts [] (split (lit ", ") payload)) (fun d => Ok (PDict d)).

(** [parse_data]: any exception of the block is logged and answered
    with [None]. *)
Definition parse_data (payload : str) : M pyval :=
  try_except (lift (parse_body payload))
             (fun e => emit (Log (ParseError e)) ;; ret PNone).

(** *** [handle_alarm] *)

(** [device_id in container] *)
Definition str_in (s : str) (container : pyval) : Result bool :=
  match container with
  | PList l => Ok (existsb (fun v => eq_str v s) l)
  | PStr t => Ok (contains s t)
  | PDict d => Ok (match dict_get s d with Some _ => true | None => false end)
  | _ => Raise TypeError
  end.

Definition handle_alarm (E : Env) (alarm_config : dict)
           (device_id : str) (data_dict : dict) : M unit :=
  if negb (truthy (dict_get_default (lit "enable_device_alarm") (PBool true) alarm_config))
  then ret tt
  else
    ignored <- lift (str_in device_id
                       (dict_get_default (lit "ignored_devices") (PList []) alarm_config)) ;;
    if (ignored : bool) then ret tt
    else
      (if negb (truthy (dict_get_default (lit "silent_mode") (PBool true) alarm_config))
       then lift (console E device_id) ;; emit (ConsoleLine device_id)
       else ret tt) ;;
      emit (Log (AlarmTriggered device_id)).

(** *** [handle_message] *)

(** [data_dict['timestamp'] = ...] *)
Definition set_timestamp (t : Z) (v : pyval) : Result dict :=
  match v with
  | PDict d => Ok (dict_set (lit "timestamp") (PDatetime t) d)
  | _ => Raise TypeError
  end.

(** The [try] block of [handle_message]; a [return] ends it with [tt]. *)
Definition handle_message_body (E : Env) (alarm_config : dict) (msg : MQTTMessage) : M unit :=
  update_stats incr_received ;;
  update_stats (set_last_message_time (now_arrival E)) ;;
  topic <- lift (utf8_decode (raw_topic msg)) ;;
  payload <- lift (utf8_decode (raw_payload msg)) ;;
  emit (Log (MessageReceived topic payload)) ;;
  match extract_device_id topic with
  | Some (c :: id') =>
      let device_id := c :: id' in
      parsed <- parse_data payload ;;
      if negb (truthy parsed) then emit (Log (ParseFailed payload))
      else
        data_dict <- lift (set_timestamp (now_stamp E) parsed) ;;
        stored <- MySQLDataManager.insert_device_data E device_id data_dict ;;
        (if (stored : bool)
         then update_stats incr_processed ;; emit (Log (DataStored device_id))
         else update_stats incr_errors ;; emit (Log (StoreFailed device_id))) ;;
        if eq_one (dict_get_default (lit "is_alarm") PNone data_dict)
        then handle_alarm E alarm_config device_id data_dict
        else ret tt
  | _ => emit (Log (NoDeviceId topic))
  end.

Definition handle_message (E : Env) (alarm_config : dict) (msg : MQTTMessage) : M unit :=
  try_except (handle_message_body E alarm_config msg)
             (fun e => update_stats incr_errors ;; emit (Log (HandleFailed e))).

(** The transport calls [handle_message] once per message, one call
    after the other; an exception that left a call would end the loop. *)
Fixpoint deliver (alarm_config : dict) (msgs : list (Env * MQTTMessage)) (w : World)
  : Result unit * World :=
  match msgs with
  | [] => (Ok tt, w)
  | (E, msg) :: rest =>
      match handle_message E alarm_config msg w with
      | (Ok _, w') => deliver alarm_config rest w'
      | (Raise e, w') => (Raise e, w')
      end
  end.
End WithRuntime.

(** [self.stats] as [__init__] leaves it. *)
Definition fresh (started : Z) : World :=
  {| stats := {| total_received := 0; total_processed := 0; total_errors := 0;
                 start_time := started; last_message_time := None |};
     journal := [] |}.

End MQTTReceiver.

Import MQTTReceiver.

(** * What the properties speak of *)

(** ** What a journal shows *)

(** The calls of the storage sink, oldest first. *)
Fixpoint inserts (j : list event) : list (str * dict) :=
  match j with
  | [] => []
  | InsertCall device_id data_dict :: j' => (device_id, data_dict) :: inserts j'
  | _ :: j' => inserts j'
  end.

(** The devices for which an alarm was raised, oldest first. *)
Fixpoint alarms (j : list event) : list str :=
  match j with
  | [] => []
  | Log (AlarmTriggered device_id) :: j' => device_id :: alarms j'
  | _ :: j' => alarms j'
  end.

(** The tuples given to [cursor.execute], oldest first. *)
Fixpoint executed (j : list event) : list (list pyval) :=
  match j with
  | [] => []
  | Execute values :: j' => values :: executed j'
  | _ :: j' => executed j'
  end.

(** What the sink saw: its calls and the tuples executed. *)
Definition sink_view (j : list event) : list (str * dict) * list (list pyval) :=
  (inserts j, executed j).

(** ** Predicates on computations, payloads, tokens and topics *)

(** [c] leaves [self.stats] as it found it. *)
Definition keeps_stats {A} (c : M A) : Prop :=
  forall w, stats (snd (c w)) = stats w.

(** [c] returns, whatever the world. *)
Definition returns {A} (c : M A) : Prop :=
  forall w, exists a w', c w = (Ok a, w').

(** [c] makes no call to the sink. *)
Definition off_sink {A} (c : M A) : Prop :=
  forall w, sink_view (journal (snd (c w))) = sink_view (journal w).

(** A payload is accepted when [parse_data] answers with a true value: a
    non-empty mapping.  [None] (an exception inside [parse_data]) and the
    empty mapping make [handle_message] warn and return. *)
Definition accepted (R : Runtime) (payload : str) : bool :=
  match parse_body R payload with
  | Ok v => truthy v
  | Raise _ => false
  end.

Definition arrived (E : Env) (s : Stats) : Stats :=
  set_last_message_time (now_arrival E) (incr_received s).

(** The alarm handling of this call cannot raise: what [print] answers is
    [Ok], or it is not asked. *)
Definition alarm_returns (E : Env) (alarm_config : dict) : Prop :=
  forall device_id data_dict w,
    fst (handle_alarm E alarm_config device_id data_dict w) = Ok tt.

(** How the counters of [s] stand to those of [s0] after [n] messages. *)
Definition counted (s0 s : Stats) (n : nat) : Prop :=
  total_received s = total_received s0 + Z.of_nat n /\
  total_processed s0 <= total_processed s /\
  total_errors s0 <= total_errors s /\
  (total_processed s - total_processed s0) + (total_errors s - total_errors s0) <= Z.of_nat n.

(** The keys [parse_data] knows. *)
Definition recognized (key : str) : bool :=
  in_strs key [lit "raw"; lit "rms"; lit "th"; lit "state"; lit "move";
               lit "connected"; lit "alarm"].

(** A token with no colon, or with a key that is not recognized and a
    value other than [N/A]. *)
Definition passed_over (R : Runtime) (part : str) : bool :=
  negb (contains (lit ":") part) ||
  match split_once 58%N part with
  | [key; value] =>
      negb (recognized (lower R (strip key))) && negb (str_eqb (strip value) (lit "N/A"))
  | _ => false
  end.

(** An optional integer field: [None] or a natural number. *)
Definition opt_int (v : pyval) : bool :=
  match v with
  | PNone => true
  | PInt z => 0 <=? z
  | _ => false
  end.

(** An optional decimal field: [None] or a float. *)
Definition opt_float (v : pyval) : bool :=
  match v with
  | PNone | PFloat _ => true
  | _ => false
  end.

(** The five optional fields, as the sink reads them from a mapping. *)
Definition typed_fields (d : dict) : bool :=
  opt_int (MySQLDataManager.get "raw_value" d) &&
  opt_float (MySQLDataManager.get "rms_value" d) &&
  opt_float (MySQLDataManager.get "threshold_value" d) &&
  opt_int (MySQLDataManager.get "state" d) &&
  opt_int (MySQLDataManager.get "movement_count" d).

(** The token [RAW:N/A], whatever the case of its key and the blanks
    around key and value. *)
Definition is_raw_na (R : Runtime) (part : str) : bool :=
  contains (lit ":") part &&
  match split_once 58%N part with
  | [key; value] =>
      str_eqb (lower R (strip key)) (lit "raw") && str_eqb (strip value) (lit "N/A")
  | _ => false
  end.

(** A token with the key [RAW] and a string of digits as value. *)
Definition is_raw_number (R : Runtime) (part : str) : bool :=
  contains (lit ":") part &&
  match split_once 58%N part with
  | [key; value] =>
      str_eqb (lower R (strip key)) (lit "raw") && isdigit R (strip value)
  | _ => false
  end.

(** [sub] occurs in [s]. *)
Definition occurs (sub s : str) : Prop :=
  exists before after, s = before ++ sub ++ after.

(** Somewhere in the topic stands [sleep_blanket/], a non-empty segment
    without [/], and [/data]. *)
Definition pattern_occurs (topic : str) : Prop :=
  exists before segment after,
    segment <> [] /\ ~ In 47%N segment /\
    topic = before ++ lit "sleep_blanket/" ++ segment ++ lit "/data" ++ after.

(** The topic as a whole is [sleep_blanket/], one non-empty segment
    without [/], and [/data], as the subscription filter
    [sleep_blanket/+/data] has it.  The source does not ask for this: it
    searches the pattern anywhere in the topic. *)
Definition whole_topic_matches (topic : str) : bool :=
  startswith (lit "sleep_blanket/") topic &&
  match span_segment (skipn 14 topic) with
  | ([], _) => false
  | (_, r) => str_eqb r (lit "/data")
  end.

(** ** Sample surroundings, configurations and messages *)

(** Surroundings in which the database and the console answer. *)
Definition quiet_env (t : Z) : Env :=
  {| now_arrival := t; now_stamp := t;
     db_cursor := Ok tt; db_execute := fun _ => Ok tt; db_close := Ok tt;
     console := fun _ => Ok tt |}.

(** Surroundings in which [print] fails: the pipe behind the console is
    closed. *)
Definition broken_console (t : Z) : Env :=
  {| now_arrival := t; now_stamp := t;
     db_cursor := Ok tt; db_execute := fun _ => Ok tt; db_close := Ok tt;
     console := fun _ => Raise OSError |}.

(** The shipped configuration with [silent_mode] switched off. *)
Definition loud_config : dict := dict_set (lit "silent_mode") (PBool false) ALARM_CONFIG.

(** A policy that lets every alarm through, with a cooldown of 60 s. *)
Definition permissive_config : dict :=
  [ (lit "enable_device_alarm", PBool true);
    (lit "silent_mode", PBool true);
    (lit "device_alarm_cooldown", PInt 60);
    (lit "ignored_devices", PList []) ].

(** A message of ASCII text. *)
Definition text_msg (topic payload : string) : MQTTMessage :=
  {| raw_topic := lit topic; raw_payload := lit payload |}.

Definition alarm_msg : MQTTMessage :=
  text_msg "sleep_blanket/SB042/data" "RAW:3000, RMS:1800.50, TH:2000.00, STATE:1, MOVE:5, CONNECTED:1, ALARM:1".

Definition garbage_msg : MQTTMessage :=
  text_msg "sleep_blanket/SB042/data" "garbage data".

Definition partial_msg : MQTTMessage :=
  text_msg "sleep_blanket/SB042/data" "RAW:N/A, RMS:abc, TH:20.5, MOVE:7".

(** ** Tactics *)

(** From [k = a || (k = b || ...) = false] to the outcome of each test. *)
Ltac split_keys H :=
  repeat (let E := fresh "E" in
          apply orb_false_elim in H as [E H]; rewrite ?E);
  clear H.

(** Decide the comparisons of two literal keys. *)
Ltac eval_keys :=
  repeat match goal with
         | |- context [str_eqb (lit ?a) (lit ?b)] =>
             let r := eval vm_compute in (str_eqb (lit a) (lit b)) in
             change (str_eqb (lit a) (lit b)) with r
         end;
  cbv iota.

(** * Further definitions: topics *)

(** The number of [/] in a text. *)
Definition count_slash (s : str) : nat := List.length (filter (N.eqb 47) s).

(** * Further definitions: storage and alarms *)

(** The devices whose row [insert_device_data] reports as saved, oldest
    first. *)
Fixpoint saved (j : list event) : list str :=
  match j with
  | [] => []
  | Log (RowSaved device_id) :: j' => device_id :: saved j'
  | _ :: j' => saved j'
  end.

(** Surroundings in which the connection gives no cursor. *)
Definition no_cursor (t : Z) : Env :=
  {| now_arrival := t; now_stamp := t;
     db_cursor := Raise DatabaseError; db_execute := fun _ => Ok tt; db_close := Ok tt;
     console := fun _ => Ok tt |}.

(** Surroundings in which the statement is executed and closing the cursor
    fails. *)
Definition late_failure (t : Z) : Env :=
  {| now_arrival := t; now_stamp := t;
     db_cursor := Ok tt; db_execute := fun _ => Ok tt; db_close := Raise DatabaseError;
     console := fun _ => Ok tt |}.

(** * Further definitions: the demo sender ([demo_send_receive.py]) *)

(** The decimal digits of [n >= 0], most significant first; [0] is one
    digit. *)
Fixpoint digits_go (fuel : nat) (n : Z) (acc : str) : str :=
  match fuel with
  | O => acc
  | S f =>
      let acc' := Z.to_N (48 + n mod 10) :: acc in
      if n <? 10 then acc' else digits_go f (n / 10) acc'
  end.

Definition digits (n : Z) : str := digits_go (S (Z.to_nat (Z.log2 n))) n [].

(** [str(n)], which is what [f'{n}'] gives for an [int]. *)
Definition str_of_int (n : Z) : str :=
  if n <? 0 then 45%N :: digits (- n) else digits n.

(** The integer nearest to [a / d] for [d > 0], a tie going to the even
    one. *)
Definition round_half_even (a d : Z) : Z :=
  let q := a / d in
  let r := a mod d in
  if (d <? 2 * r) || ((2 * r =? d) && Z.odd q) then q + 1 else q.

(** The magnitude of [x] in hundredths, correctly rounded. *)
Definition hundredths (x : spec_float) : Z :=
  match x with
  | S754_finite _ m e =>
      if 0 <=? e then Zpos m * 2 ^ e * 100
      else round_half_even (Zpos m * 100) (2 ^ (- e))
  | _ => 0
  end.

Definition sign_of (x : spec_float) : bool :=
  match x with
  | S754_zero s | S754_infinity s | S754_finite s _ _ => s
  | S754_nan => false
  end.

(** [f'{x:.2f}'] *)
Definition format_2f (x : spec_float) : str :=
  match x with
  | S754_nan => lit "nan"
  | S754_infinity s => if s then lit "-inf" else lit "inf"
  | _ =>
      let n := hundredths x in
      (if sign_of x then [45%N] else [])
        ++ digits (n / 100)
        ++ 46%N :: [Z.to_N (48 + (n mod 100) / 10); Z.to_N (48 + (n mod 100) mod 10)]
  end.

(** [float(n)] for an [int] that a double can hold. *)
Definition float_of_int (n : Z) : spec_float := binary_normalize 53 1024 n 0 false.

(** What the calls of [random] in [generate_sample_data] answer, in the
    order of the calls. *)
Record Draws := {
  draw_raw : Z;                 (* random.randint(2800, 3200) *)
  draw_rms_noise : spec_float;  (* random.uniform(-50, 50) *)
  draw_th_gap : spec_float;     (* random.uniform(100, 300) *)
  draw_state : Z;               (* random.choice([0, 1]) *)
  draw_move : Z;                (* random.randint(0, 20) *)
  draw_connected : Z;           (* random.choice([0, 1]) *)
  draw_alarm : Z                (* random.choice([0, 0, 0, 0, 1]) *)
}.

Module MQTTDemo.

(** [rms_value = raw_value * 0.6 + random.uniform(-50, 50)] *)
Definition rms_value (r : Draws) : spec_float :=
  SFadd 53 1024
        (SFmul 53 1024 (float_of_int (draw_raw r)) (decimal_to_float false 6 (-1)))
        (draw_rms_noise r).

(** [threshold_value = rms_value + random.uniform(100, 300)] *)
Definition threshold_value (r : Draws) : spec_float :=
  SFadd 53 1024 (rms_value r) (draw_th_gap r).

Definition generate_sample_data (r : Draws) : str :=
  if draw_connected r =? 0
  then lit "RAW:N/A, RMS:N/A, TH:N/A, STATE:N/A, MOVE:N/A, CONNECTED:0, ALARM:"
         ++ str_of_int (draw_alarm r)
  else lit "RAW:" ++ str_of_int (draw_raw r)
         ++ lit ", RMS:" ++ format_2f (rms_value r)
         ++ lit ", TH:" ++ format_2f (threshold_value r)
         ++ lit ", STATE:" ++ str_of_int (draw_state r)
         ++ lit ", MOVE:" ++ str_of_int (draw_move r)
         ++ lit ", CONNECTED:1, ALARM:" ++ str_of_int (draw_alarm r).

End MQTTDemo.

(** An ASCII decimal digit. *)
Definition is_digit (c : codepoint) : Prop := (48 <= c <= 57)%N.

(** A double that is zero or positive. *)
Definition nonneg_finite (x : spec_float) : bool :=
  match x with
  | S754_zero false | S754_finite false _ _ => true
  | _ => false
  end.

(** The draws the source allows. *)
Definition in_range (r : Draws) : Prop :=
  2800 <= draw_raw r <= 3200 /\
  (draw_state r = 0 \/ draw_state r = 1) /\
  0 <= draw_move r <= 20 /\
  (draw_connected r = 0 \/ draw_connected r = 1) /\
  (draw_alarm r = 0 \/ draw_alarm r = 1).

(** Draws of a connected device in alarm: noise 12.345, gap 150.5. *)
Definition connected_draws : Draws :=
  {| draw_raw := 3000;
     draw_rms_noise := S754_finite false 6949617174986097 (-49);
     draw_th_gap := S754_finite false 5295247999369216 (-45);
     draw_state := 1; draw_move := 5; draw_connected := 1; draw_alarm := 1 |}.

(** Draws of a device that is not connected. *)
Definition offline_draws : Draws :=
  {| draw_raw := 2965;
     draw_rms_noise := S754_finite false 6303144597347282 (-47);
     draw_th_gap := S754_finite false 6296760570396514 (-45);
     draw_state := 0; draw_move := 2; draw_connected := 0; draw_alarm := 1 |}.

(** * Further definitions: the paged query of [database_manager.py] *)

(** A row of [device_data] as the driver hands it over; the two
    [DECIMAL(10,2)] columns in hundredths. *)
Record DeviceRow := {
  col_id : Z;
  col_device_id : str;
  col_raw_value : option Z;
  col_rms_value : option Z;
  col_threshold_value : option Z;
  col_state : option Z;
  col_movement_count : option Z;
  col_is_connected : option Z;
  col_is_alarm : option Z;
  col_timestamp : option Z
}.

(** What the connection answers during one call of [get_paginated_data];
    [None] stands for an exception, whichever it is: the handler only
    logs it. *)
Record Connection := {
  conn_cursor : option unit;                                  (* connection.cursor() *)
  conn_count : str -> list pyval -> option Z;                 (* execute; fetchone()[0] *)
  conn_select : str -> list pyval -> option (list DeviceRow); (* execute; fetchall() *)
  conn_close : option unit;                                   (* cursor.close() *)
  isoformat : Z -> str                                        (* datetime.isoformat *)
}.

(** [sep.join(l)] *)
Fixpoint join (sep : str) (l : list str) : str :=
  match l with
  | [] => []
  | [x] => x
  | x :: t => x ++ sep ++ join sep t
  end.

Module MySQLQueries.

(** [if v:] for a filter that is [None] or a string. *)
Definition present (v : option str) : bool :=
  match v with
  | Some (_ :: _) => true
  | _ => false
  end.

Definition conditions (device_id start_time end_time : option str) : list str :=
  (if present device_id then [lit "device_id = %s"] else [])
    ++ (if present start_time then [lit "timestamp >= %s"] else [])
    ++ (if present end_time then [lit "timestamp <= %s"] else []).

Definition params (device_id start_time end_time : option str) : list pyval :=
  (match device_id with Some (c :: s) => [PStr (c :: s)] | _ => [] end)
    ++ (match start_time with Some (c :: s) => [PStr (c :: s)] | _ => [] end)
    ++ (match end_time with Some (c :: s) => [PStr (c :: s)] | _ => [] end).

Definition where_clause (device_id start_time end_time : option str) : str :=
  match conditions device_id start_time end_time with
  | [] => []
  | cs => lit "WHERE " ++ join (lit " AND ") cs
  end.

Definition count_sql (device_id start_time end_time : option str) : str :=
  lit "SELECT COUNT(*) FROM device_data " ++ where_clause device_id start_time end_time.

Definition data_sql (device_id start_time end_time : option str) : str :=
  [10%N] ++ lit "            SELECT * FROM device_data "
    ++ where_clause device_id start_time end_time
    ++ [10%N] ++ lit "            ORDER BY timestamp DESC "
    ++ [10%N] ++ lit "            LIMIT %s OFFSET %s"
    ++ [10%N] ++ lit "            ".

Definition int_or_null (c : option Z) : pyval :=
  match c with
  | Some n => PInt n
  | None => PNone
  end.

(** [float(v) if v else None] for a [Decimal] of two places or [None]. *)
Definition float_or_null (c : option Z) : pyval :=
  match c with
  | Some n => if n =? 0 then PNone else PFloat (decimal_to_float (n <? 0) (Z.abs n) (-2))
  | None => PNone
  end.

Definition convert (C : Connection) (row : DeviceRow) : pyval :=
  PDict [ (lit "id", PInt (col_id row));
          (lit "device_id", PStr (col_device_id row));
          (lit "raw_value", int_or_null (col_raw_value row));
          (lit "rms_value", float_or_null (col_rms_value row));
          (lit "threshold_value", float_or_null (col_threshold_value row));
          (lit "state", int_or_null (col_state row));
          (lit "movement_count", int_or_null (col_movement_count row));
          (lit "is_connected", int_or_null (col_is_connected row));
          (lit "is_alarm", int_or_null (col_is_alarm row));
          (lit "timestamp",
           match col_timestamp row with
           | Some t => PStr (isoformat C t)
           | None => PNone
           end) ].

(** What the handler of [get_paginated_data] returns. *)
Definition no_page : pyval :=
  PDict [ (lit "data", PList []); (lit "pagination", PDict []) ].

(** [get_paginated_data]: the answer, and the statements given to
    [cursor.execute] with their arguments, oldest first. *)
Definition get_paginated_data (C : Connection) (page per_page : Z)
           (device_id start_time end_time : option str)
  : pyval * list (str * list pyval) :=
  match conn_cursor C with
  | None => (no_page, [])
  | Some _ =>
      let first := (count_sql device_id start_time end_time,
                    params device_id start_time end_time) in
      match conn_count C (fst first) (snd first) with
      | None => (no_page, [first])
      | Some total_count =>
          let offset := (page - 1) * per_page in
          let second := (data_sql device_id start_time end_time,
                         params device_id start_time end_time
                           ++ [PInt per_page; PInt offset]) in
          match conn_select C (fst second) (snd second) with
          | None => (no_page, [first; second])
          | Some results =>
              match conn_close C with
              | None => (no_page, [first; second])
              | Some _ =>
                  let data := map (convert C) results in
                  if per_page =? 0 then (no_page, [first; second])
                  else
                    let total_pages := (total_count + per_page - 1) / per_page in
                    (PDict [ (lit "data", PList data);
                             (lit "pagination",
                              PDict [ (lit "page", PInt page);
                                      (lit "per_page", PInt per_page);
                                      (lit "total_count", PInt total_count);
                                      (lit "total_pages", PInt total_pages);
                                      (lit "has_next", PBool (page <? total_pages));
                                      (lit "has_prev", PBool (1 <? page)) ]) ],
                     [first; second])
              end
          end
      end
  end.

End MySQLQueries.

(** The number of [%s] in a statement. *)
Fixpoint placeholders (s : str) : nat :=
  match s with
  | [] => O
  | c :: t => (if startswith (lit "%s") s then 1 else 0) + placeholders t
  end.

(** A connection that answers: [total] rows in all, [rows] on the page. *)
Definition answering (total : Z) (rows : list DeviceRow) : Connection :=
  {| conn_cursor := Some tt;
     conn_count := fun _ _ => Some total;
     conn_select := fun _ _ => Some rows;
     conn_close := Some tt;
     isoformat := fun _ => [] |}.

(** * Further definitions: tokens that cannot fail *)

(** The number of [.] in a text. *)
Definition count_dots (s : str) : nat := List.length (filter (N.eqb 46) s).

(** A token of Basic Latin, of at most 640 characters, with at most one
    [.]. *)
Definition plain_token (part : str) : bool :=
  forallb (fun c => (c <? 128)%N) part
  && (List.length part <=? 640)%nat
  && (count_dots part <=? 1)%nat.

(** * Properties *)

(** ** The interpreter functions on samples *)

Example split_demo :
  split (lit ", ") (lit "RAW:1, RMS:2.5,  TH:N/A") = [lit "RAW:1"; lit "RMS:2.5"; lit " TH:N/A"].
Proof. reflexivity. Qed.

Example split_once_demo :
  split_once 58%N (lit "a:b:c") = [lit "a"; lit "b:c"].
Proof. reflexivity. Qed.

Example py_float_demo :
  py_float basic_latin (lit "1800.50") = Ok (S754_finite false 7918682743242752 (-42)) /\
  py_float basic_latin (lit "1.2.3") = Raise ValueError /\
  py_float basic_latin (lit ".5") = Ok (S754_finite false 4503599627370496 (-53)).
Proof. repeat split; reflexivity. Qed.

Example json_demo :
  json_loads basic_latin
    (qlit "{'raw_value': 3000, 'rms_value': 1800.50, 'tags': [true, null, 'aA'], 'is_alarm': 1}")
  = Ok (PDict [(lit "raw_value", PInt 3000);
               (lit "rms_value", PFloat (S754_finite false 7918682743242752 (-42)));
               (lit "tags", PList [PBool true; PNone; PStr (lit "aA")]);
               (lit "is_alarm", PInt 1)]).
Proof. reflexivity. Qed.

(** ** Text and dictionaries *)

Lemma str_eqb_refl (s : str) : str_eqb s s = true.
Proof.
  induction s as [|c s IH]; simpl; [reflexivity|].
  now rewrite N.eqb_refl.
Qed.

Lemma str_eqb_eq (a b : str) : str_eqb a b = true <-> a = b.
Proof.
  split; [|intros ->; apply str_eqb_refl].
  revert b; induction a as [|x a IH]; intros [|y b]; simpl; try discriminate; auto.
  intros H. apply andb_prop in H as [Hx Hs].
  apply N.eqb_eq in Hx. f_equal; auto.
Qed.

Lemma str_eqb_sym (a b : str) : str_eqb a b = str_eqb b a.
Proof.
  revert b; induction a as [|x a IH]; intros [|y b]; simpl; auto.
  now rewrite N.eqb_sym, IH.
Qed.

Lemma dict_get_set (k k' : str) (v : pyval) (d : dict) :
  dict_get k (dict_set k' v d) = if str_eqb k' k then Some v else dict_get k d.
Proof.
  induction d as [|[k0 v0] d IH]; simpl.
  - reflexivity.
  - destruct (str_eqb k0 k') eqn:E0; simpl.
    + apply str_eqb_eq in E0; subst k0.
      destruct (str_eqb k' k); reflexivity.
    + destruct (str_eqb k0 k) eqn:E1; [|exact IH].
      apply str_eqb_eq in E1; subst k0. now rewrite str_eqb_sym, E0.
Qed.

Lemma dict_get_default_set (k k' : str) (v dflt : pyval) (d : dict) :
  dict_get_default k dflt (dict_set k' v d)
  = if str_eqb k' k then v else dict_get_default k dflt d.
Proof.
  unfold dict_get_default. rewrite dict_get_set. now destruct (str_eqb k' k).
Qed.

(** ** The monad's operations on the counters and on results *)

Lemma keeps_ret {A} (a : A) : keeps_stats (ret a).
Proof. now intros w. Qed.

Lemma keeps_lift {A} (r : Result A) : keeps_stats (lift r).
Proof. now intros w. Qed.

Lemma keeps_emit (e : event) : keeps_stats (emit e).
Proof. now intros w. Qed.

Lemma keeps_bind {A B} (c : M A) (k : A -> M B) :
  keeps_stats c -> (forall a, keeps_stats (k a)) -> keeps_stats (bind c k).
Proof.
  intros Hc Hk w. unfold bind. specialize (Hc w).
  destruct (c w) as [[a|e] w1]; simpl in *.
  - now rewrite Hk.
  - exact Hc.
Qed.

Lemma keeps_try {A} (c : M A) (h : exn -> M A) :
  keeps_stats c -> (forall e, keeps_stats (h e)) -> keeps_stats (try_except c h).
Proof.
  intros Hc Hh w. unfold try_except. specialize (Hc w).
  destruct (c w) as [[a|e] w1]; simpl in *.
  - exact Hc.
  - now rewrite Hh.
Qed.

Lemma keeps_if {A} (b : bool) (c1 c2 : M A) :
  keeps_stats c1 -> keeps_stats c2 -> keeps_stats (if b then c1 else c2).
Proof. now destruct b. Qed.

Create HintDb stats.
#[local] Hint Resolve keeps_ret keeps_lift keeps_emit keeps_bind keeps_try keeps_if : stats.

Lemma returns_try {A} (c : M A) (h : exn -> M A) :
  (forall e, returns (h e)) -> returns (try_except c h).
Proof.
  intros Hh w. unfold try_except.
  destruct (c w) as [[a|e] w1]; [eauto|apply Hh].
Qed.

Lemma parse_data_keeps R payload : keeps_stats (parse_data R payload).
Proof. unfold parse_data. auto 10 with stats. Qed.

Lemma parse_data_returns R payload : returns (parse_data R payload).
Proof.
  apply returns_try. intros e w. unfold bind, emit, ret. eauto.
Qed.

Lemma insert_keeps E device_id data_dict :
  keeps_stats (MySQLDataManager.insert_device_data E device_id data_dict).
Proof. unfold MySQLDataManager.insert_device_data. auto 20 with stats. Qed.

Lemma insert_returns E device_id data_dict :
  returns (MySQLDataManager.insert_device_data E device_id data_dict).
Proof.
  intros w. unfold MySQLDataManager.insert_device_data, bind at 1, emit at 1.
  apply returns_try. intros e w1. unfold bind, emit, ret. eauto.
Qed.

Lemma handle_alarm_keeps E cfg device_id data_dict :
  keeps_stats (handle_alarm E cfg device_id data_dict).
Proof.
  unfold handle_alarm. auto 20 with stats.
Qed.

(** ** C1: nothing escapes [handle_message] *)

Lemma handle_message_returns R E cfg msg w :
  exists w', handle_message R E cfg msg w = (Ok tt, w').
Proof.
  unfold handle_message, try_except.
  destruct (handle_message_body R E cfg msg w) as [[[]|e] w1]; [eauto|].
  unfold bind, update_stats, emit. eauto.
Qed.

(** C1. For every message (any topic bytes, any payload bytes), every
    runtime, every answer of the clock, the database and the console, and
    every alarm configuration, [handle_message] returns normally: its
    result is never a raised exception.  Hence delivering any sequence of
    messages ends normally as well. *)
Theorem handle_message_never_raises :
  forall (R : Runtime) (E : Env) (alarm_config : dict) (msg : MQTTMessage) (w : World),
    (exists w', handle_message R E alarm_config msg w = (Ok tt, w')) /\
    (forall msgs, fst (deliver R alarm_config msgs w) = Ok tt).
Proof.
  intros R E cfg msg w. split; [apply handle_message_returns|].
  intros msgs. revert w.
  induction msgs as [|[E' m] msgs IH]; intros w; simpl; [reflexivity|].
  destruct (handle_message_returns R E' cfg m w) as [w' ->]. apply IH.
Qed.

(** ** Journals *)

Lemma inserts_app (j1 j2 : list event) : inserts (j1 ++ j2) = inserts j1 ++ inserts j2.
Proof.
  induction j1 as [|[r|d|d dd|v] j1 IH]; simpl; auto. now rewrite IH.
Qed.

Lemma alarms_app (j1 j2 : list event) : alarms (j1 ++ j2) = alarms j1 ++ alarms j2.
Proof.
  induction j1 as [|[[]|d|d dd|v] j1 IH]; simpl; auto. now rewrite IH.
Qed.

(** ** The paths through [handle_message] *)

Lemma re_search_nonempty (s : str) (g : str) : re_search s = Some g -> g <> [].
Proof.
  induction s as [|c s IH]; simpl.
  - unfold match_here. simpl. discriminate.
  - destruct (match_here (c :: s)) as [g'|] eqn:E; [|exact IH].
    intros [= <-]. unfold match_here in E.
    destruct (startswith _ _); [|discriminate].
    destruct (span_segment _) as [[|x seg] r]; [discriminate|].
    destruct (startswith _ r); [|discriminate].
    injection E as <-. discriminate.
Qed.

Lemma extract_device_id_nonempty (topic device_id : str) :
  extract_device_id topic = Some device_id -> device_id <> [].
Proof.
  unfold extract_device_id.
  destruct (re_search topic) as [g|] eqn:E.
  - intros [= <-]. eapply re_search_nonempty; eauto.
  - destruct (contains _ topic); [intros [= <-]; discriminate|].
    destruct (contains _ topic); [intros [= <-]; discriminate|discriminate].
Qed.

(** A message whose topic or payload is not UTF-8: counted as an error. *)
Lemma handle_message_undecodable R E cfg msg w e :
  rbind (utf8_decode (raw_topic msg)) (fun _ => utf8_decode (raw_payload msg)) = Raise e ->
  handle_message R E cfg msg w
  = (Ok tt, {| stats := incr_errors (arrived E (stats w));
               journal := journal w ++ [Log (HandleFailed e)] |}).
Proof.
  intros H. unfold handle_message, try_except, handle_message_body.
  unfold bind, update_stats, lift, emit; simpl.
  destruct (utf8_decode (raw_topic msg)) as [topic|e1]; simpl in H.
  - destruct (utf8_decode (raw_payload msg)) as [payload|e2]; [discriminate|].
    now injection H as ->.
  - now injection H as ->.
Qed.

(** A topic that names no device: a warning, no counter but the first. *)
Lemma handle_message_no_device R E cfg msg w topic payload :
  utf8_decode (raw_topic msg) = Ok topic ->
  utf8_decode (raw_payload msg) = Ok payload ->
  extract_device_id topic = None ->
  handle_message R E cfg msg w
  = (Ok tt, {| stats := arrived E (stats w);
               journal := (journal w ++ [Log (MessageReceived topic payload)])
                            ++ [Log (NoDeviceId topic)] |}).
Proof.
  intros Ht Hp Hd. unfold handle_message, try_except, handle_message_body.
  unfold bind, update_stats, lift, emit; simpl.
  now rewrite Ht, Hp, Hd.
Qed.

(** A payload that is not accepted: a warning, no counter but the first,
    and the sink is not called. *)
Lemma handle_message_rejected R E cfg msg w topic payload device_id :
  utf8_decode (raw_topic msg) = Ok topic ->
  utf8_decode (raw_payload msg) = Ok payload ->
  extract_device_id topic = Some device_id ->
  accepted R payload = false ->
  handle_message R E cfg msg w
  = (Ok tt, {| stats := arrived E (stats w);
               journal :=
                 match parse_body R payload with
                 | Ok _ => (journal w ++ [Log (MessageReceived topic payload)])
                             ++ [Log (ParseFailed payload)]
                 | Raise e => ((journal w ++ [Log (MessageReceived topic payload)])
                                 ++ [Log (ParseError e)]) ++ [Log (ParseFailed payload)]
                 end |}).
Proof.
  intros Ht Hp Hd Ha. unfold handle_message, try_except, handle_message_body.
  unfold bind, update_stats, lift, emit; simpl.
  rewrite Ht, Hp, Hd.
  destruct device_id as [|c id]; [now apply extract_device_id_nonempty in Hd|].
  unfold parse_data, try_except, lift, bind, emit, ret. unfold accepted in Ha.
  destruct (parse_body R payload) as [v|e]; simpl.
  - now rewrite Ha.
  - reflexivity.
Qed.

(** ** The counters *)

Lemma handle_message_counters R E cfg msg w :
  let s := stats w in
  let s' := stats (snd (handle_message R E cfg msg w)) in
  total_received s' = total_received s + 1 /\
  total_processed s <= total_processed s' <= total_processed s + 1 /\
  total_errors s <= total_errors s' <= total_errors s + 2 /\
  (alarm_returns E cfg ->
   (total_processed s' - total_processed s) + (total_errors s' - total_errors s) <= 1).
Proof.
  unfold handle_message, try_except, handle_message_body.
  unfold bind, update_stats, lift, emit; simpl.
  destruct (utf8_decode (raw_topic msg)) as [topic|e1]; simpl; [|lia].
  destruct (utf8_decode (raw_payload msg)) as [payload|e2]; simpl; [|lia].
  destruct (extract_device_id topic) as [[|c id]|]; simpl; try lia.
  match goal with |- context [parse_data R payload ?W] =>
    destruct (parse_data_returns R payload W) as (v & w1 & Hp);
    pose proof (parse_data_keeps R payload W) as Kp; rewrite Hp in *; simpl in Kp
  end.
  destruct (truthy v); simpl; [|rewrite Kp; simpl; lia].
  destruct (set_timestamp (now_stamp E) v) as [d|e3]; simpl; [|rewrite Kp; simpl; lia].
  destruct (insert_returns E (c :: id) d w1) as (stored & w2 & Hi).
  pose proof (insert_keeps E (c :: id) d w1) as Ki. rewrite Hi in *; simpl in Ki.
  destruct stored; simpl.
  - destruct (eq_one _); simpl; [|rewrite Ki, Kp; simpl; lia].
    match goal with |- context [handle_alarm E cfg ?D ?DD ?W] =>
      pose proof (handle_alarm_keeps E cfg D DD W) as Ka;
      destruct (handle_alarm E cfg D DD W) as [[[]|e4] w3] eqn:Ha; simpl in *
    end.
    + rewrite Ka, Ki, Kp; simpl; lia.
    + rewrite Ka, Ki, Kp; simpl. repeat split; try lia.
      intros Q. specialize (Q (c :: id) d). 
      match type of Ha with handle_alarm _ _ _ _ ?W = _ => specialize (Q W) end.
      rewrite Ha in Q. discriminate.
  - destruct (eq_one _); simpl; [|rewrite Ki, Kp; simpl; lia].
    match goal with |- context [handle_alarm E cfg ?D ?DD ?W] =>
      pose proof (handle_alarm_keeps E cfg D DD W) as Ka;
      destruct (handle_alarm E cfg D DD W) as [[[]|e4] w3] eqn:Ha; simpl in *
    end.
    + rewrite Ka, Ki, Kp; simpl; lia.
    + rewrite Ka, Ki, Kp; simpl. repeat split; try lia.
      intros Q. specialize (Q (c :: id) d).
      match type of Ha with handle_alarm _ _ _ _ ?W = _ => specialize (Q W) end.
      rewrite Ha in Q. discriminate.
Qed.

Lemma shipped_config_quiet (E : Env) : alarm_returns E ALARM_CONFIG.
Proof.
  intros device_id data_dict w. unfold handle_alarm, bind, lift, emit, ret. simpl.
  match goal with |- context [if ?b then _ else _] => now destruct b end.
Qed.

(** ** C10: the counters *)

Lemma deliver_counted R cfg (msgs : list (Env * MQTTMessage)) :
  Forall (fun Em => alarm_returns (fst Em) cfg) msgs ->
  forall w0, counted (stats w0) (stats (snd (deliver R cfg msgs w0))) (List.length msgs).
Proof.
  induction 1 as [|[E m] msgs Hq _ IH]; intros w0.
  - unfold counted; simpl; lia.
  - simpl deliver.
    pose proof (handle_message_counters R E cfg m w0) as S1.
    destruct (handle_message R E cfg m w0) as [[[]|e] w1] eqn:Hm; simpl in S1.
    + specialize (IH w1). unfold counted in *. simpl fst in Hq.
      destruct S1 as (S1 & S2 & S3 & S4). specialize (S4 Hq).
      simpl List.length. rewrite Nat2Z.inj_succ. lia.
    + destruct (handle_message_returns R E cfg m w0) as [w' Hw'].
      congruence.
Qed.

(** Without any condition: a call adds exactly 1 to [total_received],
    at most 1 to [total_processed], at most 2 to [total_errors], and
    lowers none of them. *)
Lemma handle_message_monotone R E cfg msg w :
  total_received (stats (snd (handle_message R E cfg msg w)))
  = total_received (stats w) + 1 /\
  total_processed (stats w)
  <= total_processed (stats (snd (handle_message R E cfg msg w)))
  <= total_processed (stats w) + 1 /\
  total_errors (stats w)
  <= total_errors (stats (snd (handle_message R E cfg msg w)))
  <= total_errors (stats w) + 2.
Proof.
  pose proof (handle_message_counters R E cfg msg w) as H. simpl in H. tauto.
Qed.

(** Under the shipped configuration the bound needs no condition. *)
Lemma shipped_config_counted R (msgs : list (Env * MQTTMessage)) (w0 : World) :
  counted (stats w0) (stats (snd (deliver R ALARM_CONFIG msgs w0))) (List.length msgs).
Proof.
  apply deliver_counted. apply Forall_forall. intros Em _. apply shipped_config_quiet.
Qed.

(** C10. The receiver keeps [ALARM_CONFIG] as its alarm configuration
    ([__init__] binds it once and nothing writes to it).  Every call of
    [handle_message] then adds exactly 1 to [total_received] and adds 1
    to at most one of [total_processed] and [total_errors], leaving the
    other as it was: no counter is lowered.  Hence after any sequence of
    messages no counter is below where it started, and from the counters
    of a receiver just set up [total_received] is the number of messages
    and [total_processed + total_errors <= total_received]. *)
Theorem counters_invariant :
  forall R : Runtime,
    (forall (E : Env) (msg : MQTTMessage) (w : World),
        let s := stats w in
        let s' := stats (snd (handle_message R E ALARM_CONFIG msg w)) in
        total_received s' = total_received s + 1 /\
        (total_processed s' = total_processed s /\ total_errors s' = total_errors s \/
         total_processed s' = total_processed s + 1 /\ total_errors s' = total_errors s \/
         total_processed s' = total_processed s /\ total_errors s' = total_errors s + 1)) /\
    (forall (msgs : list (Env * MQTTMessage)) (w : World),
        let s := stats w in
        let s' := stats (snd (deliver R ALARM_CONFIG msgs w)) in
        total_received s' = total_received s + Z.of_nat (List.length msgs) /\
        total_processed s <= total_processed s' /\
        total_errors s <= total_errors s') /\
    (forall (msgs : list (Env * MQTTMessage)) (started : Z),
        let s' := stats (snd (deliver R ALARM_CONFIG msgs (fresh started))) in
        total_received s' = Z.of_nat (List.length msgs) /\
        0 <= total_processed s' /\
        0 <= total_errors s' /\
        total_processed s' + total_errors s' <= total_received s').
Proof.
  intros R. split; [|split].
  - intros E msg w.
    pose proof (handle_message_counters R E ALARM_CONFIG msg w) as H. cbv zeta in *.
    destruct H as (H1 & H2 & H3 & H4). specialize (H4 (shipped_config_quiet E)).
    split; [exact H1|lia].
  - intros msgs w.
    pose proof (shipped_config_counted R msgs w) as C. unfold counted in C.
    cbv zeta. lia.
  - intros msgs started.
    pose proof (shipped_config_counted R msgs (fresh started)) as C. unfold counted in C.
    cbn [fresh stats total_received total_processed total_errors] in C.
    cbv zeta. lia.
Qed.

(** The alarm configuration matters: were [silent_mode] off (it is on in
    [ALARM_CONFIG], and the receiver has no other configuration), a
    console that refuses the alarm line would make both counters move
    for one message. *)
Lemma counters_overshoot_when_print_raises :
  stats (snd (handle_message basic_latin (broken_console 0) loud_config alarm_msg (fresh 0)))
  = {| total_received := 1; total_processed := 1; total_errors := 1;
       start_time := 0; last_message_time := Some 0 |}.
Proof. vm_compute. reflexivity. Qed.

(** ** C2: alarms and the cooldown *)

(** C2 (as amended). [handle_alarm] holds an alarm back only when
    [enable_device_alarm] is false or the device is in [ignored_devices].
    It keeps no time of the last alarm and does not read
    [device_alarm_cooldown]: with the alarm enabled, the device not
    ignored, and the console silent or answering, the alarm is raised
    whatever the clock says and whatever alarms the journal already holds
    for the device, and another value of [device_alarm_cooldown] changes
    nothing. *)
Theorem handle_alarm_has_no_cooldown :
  forall (E : Env) (alarm_config : dict) (device_id : str) (data_dict : dict)
         (w : World) (ignored : list pyval),
    truthy (dict_get_default (lit "enable_device_alarm") (PBool true) alarm_config) = true ->
    dict_get_default (lit "ignored_devices") (PList []) alarm_config = PList ignored ->
    existsb (fun v => eq_str v device_id) ignored = false ->
    truthy (dict_get_default (lit "silent_mode") (PBool true) alarm_config) = true
    \/ console E device_id = Ok tt ->
    fst (handle_alarm E alarm_config device_id data_dict w) = Ok tt /\
    alarms (journal (snd (handle_alarm E alarm_config device_id data_dict w)))
    = alarms (journal w) ++ [device_id] /\
    (forall cooldown : pyval,
        handle_alarm E (dict_set (lit "device_alarm_cooldown") cooldown alarm_config)
                     device_id data_dict w
        = handle_alarm E alarm_config device_id data_dict w).
Proof.
  intros E cfg device_id data_dict w ignored He Hi Hn Hs.
  cut (fst (handle_alarm E cfg device_id data_dict w) = Ok tt /\
       alarms (journal (snd (handle_alarm E cfg device_id data_dict w)))
       = alarms (journal w) ++ [device_id]).
  { intros [H1 H2]. repeat split; [exact H1|exact H2|].
    intros cooldown. unfold handle_alarm. rewrite !dict_get_default_set.
    eval_keys. reflexivity. }
  unfold handle_alarm. rewrite He, Hi. cbn [negb].
  unfold bind, lift, ret, emit, str_in. rewrite Hn.
  destruct (truthy (dict_get_default (lit "silent_mode") (PBool true) cfg)) eqn:Es; cbn [negb].
  - simpl. now rewrite alarms_app.
  - destruct Hs as [Hs|Hs]; [discriminate|].
    rewrite Hs. simpl. rewrite !alarms_app. simpl. now rewrite app_nil_r.
Qed.

Lemma handle_alarm_has_no_cooldown_witness :
  let w1 := snd (handle_message basic_latin (quiet_env 0) permissive_config alarm_msg (fresh 0)) in
  alarms (journal w1) = [lit "SB042"] /\
  dict_get (lit "device_alarm_cooldown") permissive_config = Some (PInt 60) /\
  alarms (journal (snd (handle_alarm (quiet_env 30) permissive_config (lit "SB042") [] w1)))
  = [lit "SB042"; lit "SB042"].
Proof.
  intros w1. split; [reflexivity|]. split; [reflexivity|].
  exact (proj1 (proj2 (@handle_alarm_has_no_cooldown (quiet_env 30) permissive_config
                         (lit "SB042") [] w1 [] eq_refl eq_refl eq_refl
                         (or_introl eq_refl)))).
Defined.

(** With a cooldown of 60 s and a policy that is otherwise permissive, the
    same device raises an alarm at t = 0, again at t = 30 and again at
    t = 61: the second one is not held back. *)
Lemma cooldown_is_not_enforced :
  alarms (journal (snd (deliver basic_latin permissive_config
                          [(quiet_env 0, alarm_msg); (quiet_env 30, alarm_msg);
                           (quiet_env 61, alarm_msg)] (fresh 0))))
  = [lit "SB042"; lit "SB042"; lit "SB042"].
Proof. vm_compute. reflexivity. Qed.

(** ** C3: a payload that parses to nothing *)

Lemma contains_char (c : codepoint) (s : str) :
  contains [c] s = existsb (N.eqb c) s.
Proof.
  induction s as [|x s IH]; simpl; [reflexivity|].
  now rewrite IH, andb_true_r.
Qed.

Lemma split_go_chars (sep : str) (s : str) :
  forall skip cur,
    Forall (fun p => forall x, In x p -> In x cur \/ In x s) (split_go sep skip cur s).
Proof.
  induction s as [|c s IH]; intros skip cur; simpl.
  - constructor; [|constructor]. intros x Hx. left. now apply in_rev.
  - destruct skip as [|k].
    + destruct (startswith sep (c :: s)).
      * constructor.
        -- intros x Hx. left. now apply in_rev.
        -- eapply Forall_impl; [|apply IH]. simpl.
           intros p Hp x Hx. destruct (Hp x Hx) as [[]|H]; auto.
      * eapply Forall_impl; [|apply IH]. simpl.
        intros p Hp x Hx. destruct (Hp x Hx) as [[->|H]|H]; auto.
    + eapply Forall_impl; [|apply IH]. simpl.
      intros p Hp x Hx. destruct (Hp x Hx) as [H|H]; auto.
Qed.

Lemma split_no_char (sep : str) (c : codepoint) (s : str) :
  contains [c] s = false ->
  Forall (fun p => contains [c] p = false) (split sep s).
Proof.
  intros H. unfold split.
  eapply Forall_impl; [|apply split_go_chars]. simpl.
  intros p Hp. rewrite contains_char in *.
  destruct (existsb (N.eqb c) p) eqn:E; [|reflexivity].
  apply existsb_exists in E as (x & Hx & Hc). apply N.eqb_eq in Hc; subst x.
  destruct (Hp c Hx) as [[]|Hs].
  assert (existsb (N.eqb c) s = true); [|congruence].
  apply existsb_exists. exists c. split; [exact Hs|apply N.eqb_refl].
Qed.

Lemma parse_parts_no_colon R (parts : list str) (d : dict) :
  Forall (fun p => contains (lit ":") p = false) parts ->
  parse_parts R d parts = Ok d.
Proof.
  induction 1 as [|p parts Hp _ IH]; simpl; [reflexivity|].
  unfold parse_part. now rewrite Hp.
Qed.

(** Text without a colon that does not open with a brace parses to the
    empty mapping, which is not accepted. *)
Lemma no_colon_not_accepted R (payload : str) :
  startswith (lit "{") payload = false ->
  contains (lit ":") payload = false ->
  parse_body R payload = Ok (PDict []) /\ accepted R payload = false.
Proof.
  intros H1 H2. unfold accepted, parse_body. rewrite H1.
  rewrite parse_parts_no_colon; [now split|].
  now apply split_no_char.
Qed.

(** C3 (as amended). For every message whose topic resolves to a device
    id and whose payload [parse_data] does not accept (it answers [None]
    or the empty mapping, as for [garbage data]), [handle_message] adds 1
    to [total_received], leaves [total_errors] and [total_processed] as
    they were, and never calls the sink's insert. *)
Theorem rejected_payload_is_not_counted :
  forall (R : Runtime) (E : Env) (alarm_config : dict) (msg : MQTTMessage) (w : World)
         (topic payload device_id : str),
    utf8_decode (raw_topic msg) = Ok topic ->
    utf8_decode (raw_payload msg) = Ok payload ->
    extract_device_id topic = Some device_id ->
    accepted R payload = false ->
    total_received (stats (snd (handle_message R E alarm_config msg w)))
    = total_received (stats w) + 1 /\
    total_errors (stats (snd (handle_message R E alarm_config msg w)))
    = total_errors (stats w) /\
    total_processed (stats (snd (handle_message R E alarm_config msg w)))
    = total_processed (stats w) /\
    inserts (journal (snd (handle_message R E alarm_config msg w))) = inserts (journal w).
Proof.
  intros R E cfg msg w topic payload device_id Ht Hp Hd Ha.
  rewrite (@handle_message_rejected R E cfg msg w topic payload device_id Ht Hp Hd Ha). simpl.
  repeat split.
  destruct (parse_body R payload); rewrite !inserts_app; simpl; now rewrite ?app_nil_r.
Qed.

Lemma rejected_payload_is_not_counted_witness :
  accepted basic_latin (lit "garbage data") = false /\
  extract_device_id (lit "sleep_blanket/SB042/data") = Some (lit "SB042") /\
  total_received (stats (snd (handle_message basic_latin (quiet_env 7) ALARM_CONFIG
                                garbage_msg (fresh 0)))) = 0 + 1 /\
  total_errors (stats (snd (handle_message basic_latin (quiet_env 7) ALARM_CONFIG
                              garbage_msg (fresh 0)))) = 0 /\
  total_processed (stats (snd (handle_message basic_latin (quiet_env 7) ALARM_CONFIG
                                 garbage_msg (fresh 0)))) = 0 /\
  inserts (journal (snd (handle_message basic_latin (quiet_env 7) ALARM_CONFIG
                           garbage_msg (fresh 0)))) = [].
Proof.
  split; [reflexivity|]. split; [reflexivity|].
  exact (@rejected_payload_is_not_counted basic_latin (quiet_env 7) ALARM_CONFIG garbage_msg
           (fresh 0) (lit "sleep_blanket/SB042/data") (lit "garbage data") (lit "SB042")
           eq_refl eq_refl eq_refl eq_refl).
Defined.

(** The payload [garbage data] on a topic that resolves: the error counter
    stays at 0 (only [total_received] moves) and the sink is not called. *)
Lemma garbage_data_is_not_an_error :
  stats (snd (handle_message basic_latin (quiet_env 7) ALARM_CONFIG garbage_msg (fresh 0)))
  = {| total_received := 1; total_processed := 0; total_errors := 0;
       start_time := 0; last_message_time := Some 7 |}.
Proof. vm_compute. reflexivity. Qed.

(** ** C4: a value that does not convert *)

(** C4 (the code at the failing input). On [RAW:3000, RMS:1.2.3] the guard
    [value.replace('.', '').isdigit()] lets [1.2.3] through to [float],
    which raises: [parse_data] logs the error and answers [None] for the
    whole payload, and [handle_message] drops the message without calling
    the sink.  The field is not made absent on its own. *)
Theorem two_dots_fail_the_whole_parse :
  forall (R : Runtime) (w : World),
    parse_data R (lit "RAW:3000, RMS:1.2.3") w
    = (Ok PNone, {| stats := stats w;
                    journal := journal w ++ [Log (ParseError ValueError)] |}) /\
    inserts (journal (snd (handle_message R (quiet_env 0) ALARM_CONFIG
                             (text_msg "sleep_blanket/SB042/data" "RAW:3000, RMS:1.2.3")
                             (fresh 0)))) = [].
Proof. intros R w. split; reflexivity. Qed.

(** ** C5: tokens the loop passes over *)

Lemma parse_part_unrecognized R (d : dict) (key value : str) :
  recognized key = false ->
  (if str_eqb key (lit "raw") then rbind (int_or R PNone value) (store "raw_value" d)
   else if str_eqb key (lit "rms") then rbind (float_or_none R value) (store "rms_value" d)
   else if str_eqb key (lit "th") then rbind (float_or_none R value) (store "threshold_value" d)
   else if str_eqb key (lit "state") then rbind (int_or R PNone value) (store "state" d)
   else if str_eqb key (lit "move") then rbind (int_or R PNone value) (store "movement_count" d)
   else if str_eqb key (lit "connected") then rbind (int_or R (PInt 1) value) (store "is_connected" d)
   else if str_eqb key (lit "alarm") then rbind (int_or R (PInt 0) value) (store "is_alarm" d)
   else Ok d) = Ok d.
Proof.
  unfold recognized, in_strs. cbn [existsb]. intros H.
  split_keys H. reflexivity.
Qed.

Lemma parse_part_passed_over R (d : dict) (part : str) :
  passed_over R part = true -> parse_part R d part = Ok d.
Proof.
  unfold passed_over, parse_part. intros H.
  destruct (contains (lit ":") part); [|reflexivity]. simpl in H.
  destruct (split_once 58%N part) as [|key [|value [|x l]]]; try discriminate.
  apply andb_prop in H as [Hk Hv].
  apply negb_true_iff in Hk, Hv. rewrite Hv.
  now apply parse_part_unrecognized.
Qed.

Lemma parse_parts_filter R (parts : list str) (d : dict) :
  parse_parts R d (filter (fun p => negb (passed_over R p)) parts) = parse_parts R d parts.
Proof.
  revert d. induction parts as [|p parts IH]; intros d; simpl; [reflexivity|].
  destruct (passed_over R p) eqn:E; simpl.
  - rewrite (parse_part_passed_over R d p E). simpl. apply IH.
  - destruct (parse_part R d p); simpl; [apply IH|reflexivity].
Qed.

(** The source tests for [N/A] before it looks at the key: with that
    value a key that is not recognized is stored as well, with [None]. *)
Lemma unrecognized_key_with_na_is_stored R (d : dict) (part key value : str) :
  contains (lit ":") part = true ->
  split_once 58%N part = [key; value] ->
  recognized (lower R (strip key)) = false ->
  strip value = lit "N/A" ->
  parse_part R d part = Ok (dict_set (lower R (strip key)) PNone d).
Proof.
  intros Hc Hs Hk Hv. unfold parse_part.
  rewrite Hc, Hs, Hv. simpl str_eqb.
  unfold recognized, in_strs in *. cbn [existsb] in *.
  split_keys Hk. reflexivity.
Qed.

(** C5 (as amended). In a payload of the delimited form, a token with an
    unrecognized key and a value other than [N/A] contributes nothing: the
    result is that of the payload without such tokens (and without the
    tokens that have no colon).  When every token is of that kind,
    [parse_data] answers with the empty mapping, which [handle_message]
    does not accept. *)
Theorem unrecognized_tokens_are_passed_over :
  forall (R : Runtime) (payload : str),
    startswith (lit "{") payload = false ->
    parse_body R payload
    = rbind (parse_parts R [] (filter (fun p => negb (passed_over R p))
                                      (split (lit ", ") payload)))
            (fun d => Ok (PDict d)) /\
    (forallb (passed_over R) (split (lit ", ") payload) = true ->
     parse_body R payload = Ok (PDict []) /\ accepted R payload = false).
Proof.
  intros R payload Hb. unfold accepted, parse_body. rewrite Hb.
  split; [now rewrite parse_parts_filter|].
  intros Hall. rewrite <- parse_parts_filter.
  replace (filter _ _) with (@nil str); [now split|].
  symmetry. induction (split (lit ", ") payload) as [|p l IH]; [reflexivity|].
  simpl in *. apply andb_prop in Hall as [Hp Hl]. rewrite Hp. simpl. auto.
Qed.

Lemma unrecognized_tokens_are_passed_over_witness :
  startswith (lit "{") (lit "FOO:12, RAW:5, BAR:x") = false /\
  parse_body basic_latin (lit "FOO:12, RAW:5, BAR:x")
  = Ok (PDict [(lit "raw_value", PInt 5)]) /\
  forallb (passed_over basic_latin) (split (lit ", ") (lit "FOO:12, BAR:x")) = true /\
  parse_body basic_latin (lit "FOO:12, BAR:x") = Ok (PDict []) /\
  accepted basic_latin (lit "FOO:12, BAR:x") = false.
Proof.
  split; [reflexivity|]. split.
  { exact (proj1 (@unrecognized_tokens_are_passed_over basic_latin
                    (lit "FOO:12, RAW:5, BAR:x") eq_refl)). }
  split; [reflexivity|].
  exact (proj2 (@unrecognized_tokens_are_passed_over basic_latin
                  (lit "FOO:12, BAR:x") eq_refl) eq_refl).
Defined.

(** The token [FOO:N/A] has no recognized key, yet it puts an entry into the
    mapping; the payload is accepted and a row is inserted for it. *)
Lemma unrecognized_key_with_NA_is_kept :
  parse_body basic_latin (lit "FOO:N/A") = Ok (PDict [(lit "foo", PNone)]) /\
  accepted basic_latin (lit "FOO:N/A") = true /\
  inserts (journal (snd (handle_message basic_latin (quiet_env 0) ALARM_CONFIG
                           (text_msg "sleep_blanket/SB042/data" "FOO:N/A") (fresh 0))))
  = [(lit "SB042", [(lit "foo", PNone); (lit "timestamp", PDatetime 0)])].
Proof. repeat apply conj; vm_compute; reflexivity. Qed.

(** ** C6: the types of the optional fields *)

Lemma get_set (f : string) (k : str) (v : pyval) (d : dict) :
  MySQLDataManager.get f (dict_set k v d)
  = if str_eqb k (lit f) then v else MySQLDataManager.get f d.
Proof. apply dict_get_default_set. Qed.

Lemma typed_fields_split (d : dict) :
  typed_fields d = true <->
  opt_int (MySQLDataManager.get "raw_value" d) = true /\
  opt_float (MySQLDataManager.get "rms_value" d) = true /\
  opt_float (MySQLDataManager.get "threshold_value" d) = true /\
  opt_int (MySQLDataManager.get "state" d) = true /\
  opt_int (MySQLDataManager.get "movement_count" d) = true.
Proof.
  unfold typed_fields. rewrite !andb_true_iff. tauto.
Qed.

Lemma typed_set_none (k : str) (d : dict) :
  typed_fields d = true -> typed_fields (dict_set k PNone d) = true.
Proof.
  rewrite !typed_fields_split, !get_set. intros (H1 & H2 & H3 & H4 & H5).
  repeat split;
    match goal with |- context [if ?b then _ else _] => now destruct b end.
Qed.

Lemma digits_value_nonneg R (s : str) :
  forall acc v, 0 <= acc -> digits_value R acc s = Some v -> 0 <= v.
Proof.
  induction s as [|c s IH]; cbn [digits_value]; intros acc v Ha H.
  - now injection H as <-.
  - destruct (decimal_char R c) as [n|]; [|discriminate].
    eapply IH; [|exact H]. lia.
Qed.

Lemma int_or_typed R (default v : pyval) (value : str) :
  opt_int default = true -> int_or R default value = Ok v -> opt_int v = true.
Proof.
  unfold int_or, py_int. intros Hd.
  destruct (isdigit R value); [|now intros [= <-]].
  destruct value as [|c value]; [discriminate|].
  destruct (digits_value R 0 (c :: value)) as [z|] eqn:E; [|discriminate].
  destruct (over_digit_limit R (c :: value)); [discriminate|].
  simpl. intros [= <-]. simpl. apply Z.leb_le.
  eapply digits_value_nonneg; [|exact E]. lia.
Qed.

Lemma float_or_none_typed R (v : pyval) (value : str) :
  float_or_none R value = Ok v -> opt_float v = true.
Proof.
  unfold float_or_none.
  destruct (isdigit R _); [|now intros [= <-]].
  destruct (py_float R value); simpl; [now intros [= <-]|discriminate].
Qed.

Lemma parse_part_typed R (d d' : dict) (part : str) :
  typed_fields d = true -> parse_part R d part = Ok d' -> typed_fields d' = true.
Proof.
  intros Ht. unfold parse_part.
  destruct (contains (lit ":") part); [|now intros [= <-]].
  destruct (split_once 58%N part) as [|key [|value [|x l]]]; try discriminate.
  destruct (str_eqb (strip value) (lit "N/A")).
  { intros [= <-]. now apply typed_set_none. }
  pose proof (@int_or_typed R PNone) as Hi.
  pose proof (@float_or_none_typed R) as Hf.
  apply typed_fields_split in Ht as (H1 & H2 & H3 & H4 & H5).
  unfold store.
  repeat match goal with
         | |- (if ?b then _ else _) = _ -> _ => destruct b
         | |- rbind ?r _ = _ -> _ =>
             let v := fresh "v" in let E := fresh "E" in
             destruct r as [v|] eqn:E; simpl; [|discriminate]
         end;
    intros [= <-]; apply typed_fields_split; rewrite ?get_set; eval_keys;
    repeat split; eauto.
Qed.

Lemma parse_parts_typed R (parts : list str) :
  forall d d', typed_fields d = true -> parse_parts R d parts = Ok d' ->
               typed_fields d' = true.
Proof.
  induction parts as [|p parts IH]; simpl; intros d d' Ht H.
  - now injection H as <-.
  - destruct (parse_part R d p) as [d1|] eqn:E; simpl in H; [|discriminate].
    eapply IH; [|exact H]. eapply parse_part_typed; eauto.
Qed.

Lemma executed_app (j1 j2 : list event) : executed (j1 ++ j2) = executed j1 ++ executed j2.
Proof.
  induction j1 as [|[r|d|d dd|v] j1 IH]; simpl; auto. now rewrite IH.
Qed.

Lemma sink_view_app (j1 j2 : list event) :
  sink_view (j1 ++ j2) = (inserts j1 ++ inserts j2, executed j1 ++ executed j2).
Proof. unfold sink_view. now rewrite inserts_app, executed_app. Qed.

Lemma sink_view_log (j : list event) (r : record) : sink_view (j ++ [Log r]) = sink_view j.
Proof. rewrite sink_view_app. simpl. now rewrite !app_nil_r. Qed.

Lemma sink_view_print (j : list event) (d : str) : sink_view (j ++ [ConsoleLine d]) = sink_view j.
Proof. rewrite sink_view_app. simpl. now rewrite !app_nil_r. Qed.

Lemma off_sink_ret {A} (a : A) : off_sink (ret a).
Proof. now intros w. Qed.

Lemma off_sink_lift {A} (r : Result A) : off_sink (lift r).
Proof. now intros w. Qed.

Lemma off_sink_log (r : record) : off_sink (emit (Log r)).
Proof. intros w. simpl. apply sink_view_log. Qed.

Lemma off_sink_print (d : str) : off_sink (emit (ConsoleLine d)).
Proof. intros w. simpl. apply sink_view_print. Qed.

Lemma off_sink_bind {A B} (c : M A) (k : A -> M B) :
  off_sink c -> (forall a, off_sink (k a)) -> off_sink (bind c k).
Proof.
  intros Hc Hk w. unfold bind. specialize (Hc w).
  destruct (c w) as [[a|e] w1]; simpl in *.
  - now rewrite Hk.
  - exact Hc.
Qed.

Lemma off_sink_try {A} (c : M A) (h : exn -> M A) :
  off_sink c -> (forall e, off_sink (h e)) -> off_sink (try_except c h).
Proof.
  intros Hc Hh w. unfold try_except. specialize (Hc w).
  destruct (c w) as [[a|e] w1]; simpl in *.
  - exact Hc.
  - now rewrite Hh.
Qed.

Lemma off_sink_if {A} (b : bool) (c1 c2 : M A) :
  off_sink c1 -> off_sink c2 -> off_sink (if b then c1 else c2).
Proof. now destruct b. Qed.

Create HintDb sink.
#[local] Hint Resolve off_sink_ret off_sink_lift off_sink_log off_sink_print
  off_sink_bind off_sink_try off_sink_if : sink.

Lemma parse_data_off_sink R payload : off_sink (parse_data R payload).
Proof. unfold parse_data. auto 10 with sink. Qed.

Lemma handle_alarm_off_sink E cfg device_id data_dict :
  off_sink (handle_alarm E cfg device_id data_dict).
Proof. unfold handle_alarm. auto 20 with sink. Qed.

(** One call of the sink: the call is journalled, and the tuple when a
    cursor could be opened. *)
Lemma insert_sink_view E device_id data_dict w :
  sink_view (journal (snd (MySQLDataManager.insert_device_data E device_id data_dict w)))
  = (inserts (journal w) ++ [(device_id, data_dict)],
     executed (journal w) ++
       match db_cursor E with
       | Ok _ => [MySQLDataManager.row E device_id data_dict]
       | Raise _ => []
       end).
Proof.
  unfold MySQLDataManager.insert_device_data, try_except, bind, lift, emit, ret. simpl.
  destruct (db_cursor E) as [[]|e1]; simpl;
    [destruct (db_execute E _) as [[]|e2]; simpl;
     [destruct (db_close E) as [[]|e3]; simpl|]|];
    unfold sink_view; rewrite !inserts_app, !executed_app;
    cbn [inserts executed app]; now rewrite ?app_nil_r.
Qed.

(** An accepted mapping: the sink is called once, with the mapping and
    its time stamp. *)
Lemma handle_message_accepted R E cfg msg w topic payload device_id d :
  utf8_decode (raw_topic msg) = Ok topic ->
  utf8_decode (raw_payload msg) = Ok payload ->
  extract_device_id topic = Some device_id ->
  parse_body R payload = Ok (PDict d) ->
  d <> [] ->
  sink_view (journal (snd (handle_message R E cfg msg w)))
  = (inserts (journal w)
       ++ [(device_id, dict_set (lit "timestamp") (PDatetime (now_stamp E)) d)],
     executed (journal w) ++
       match db_cursor E with
       | Ok _ => [MySQLDataManager.row E device_id
                    (dict_set (lit "timestamp") (PDatetime (now_stamp E)) d)]
       | Raise _ => []
       end).
Proof.
  intros Ht Hp Hd Hb Hne. unfold handle_message, try_except, handle_message_body.
  unfold bind, update_stats, lift, emit; simpl.
  rewrite Ht, Hp, Hd.
  destruct device_id as [|c id]; [now apply extract_device_id_nonempty in Hd|].
  unfold parse_data, try_except, lift. rewrite Hb.
  destruct d as [|kv d]; [contradiction|]. cbn [truthy negb set_timestamp].
  set (dd := dict_set (lit "timestamp") (PDatetime (now_stamp E)) (kv :: d)).
  match goal with |- context [MySQLDataManager.insert_device_data E ?D dd ?W] =>
    pose proof (insert_sink_view E D dd W) as Vi;
    destruct (insert_returns E D dd W) as (stored & w2 & Hi); rewrite Hi in *
  end.
  cbn [journal snd] in Vi. rewrite inserts_app, executed_app in Vi.
  cbn [inserts executed] in Vi. rewrite !app_nil_r in Vi. rewrite <- Vi. clear Vi Hi.
  destruct stored; cbn iota beta; destruct (eq_one _); cbn iota beta;
    unfold ret; cbn [snd journal]; rewrite ?sink_view_log; try reflexivity;
    match goal with |- context [handle_alarm E cfg ?D ?DD ?W] =>
      pose proof (handle_alarm_off_sink E cfg D DD W) as Ka;
      destruct (handle_alarm E cfg D DD W) as [[[]|e] w3];
      cbn [snd journal] in *; rewrite ?sink_view_log, Ka; apply sink_view_log
    end.
Qed.

Lemma row_stamped (E : Env) (device_id : str) (d : dict) :
  MySQLDataManager.row E device_id (dict_set (lit "timestamp") (PDatetime (now_stamp E)) d)
  = [ PStr device_id;
      MySQLDataManager.get "raw_value" d;
      MySQLDataManager.get "rms_value" d;
      MySQLDataManager.get "threshold_value" d;
      MySQLDataManager.get "state" d;
      MySQLDataManager.get "movement_count" d;
      dict_get_default (lit "is_connected") (PInt 1) d;
      dict_get_default (lit "is_alarm") (PInt 0) d;
      PDatetime (now_stamp E) ].
Proof.
  unfold MySQLDataManager.row. rewrite !get_set, !dict_get_default_set.
  eval_keys. reflexivity.
Qed.

(** C6 (as amended). For every payload of the delimited form that
    [parse_data] accepts, each of [raw_value], [state] and
    [movement_count] is an integer or [None], each of [rms_value] and
    [threshold_value] a float or [None], and the sink gets exactly these
    values: the mapping is handed to [insert_device_data] with only the
    time stamp added, and the tuple bound to the [INSERT] statement holds
    [None] for every field the mapping lacks.  (A structured payload is
    handed on as decoded; its values are not checked.) *)
Theorem delimited_fields_are_typed :
  forall (R : Runtime) (E : Env) (alarm_config : dict) (msg : MQTTMessage) (w : World)
         (topic payload device_id : str) (d : dict),
    utf8_decode (raw_topic msg) = Ok topic ->
    utf8_decode (raw_payload msg) = Ok payload ->
    extract_device_id topic = Some device_id ->
    startswith (lit "{") payload = false ->
    parse_body R payload = Ok (PDict d) ->
    d <> [] ->
    typed_fields d = true /\
    inserts (journal (snd (handle_message R E alarm_config msg w)))
    = inserts (journal w)
        ++ [(device_id, dict_set (lit "timestamp") (PDatetime (now_stamp E)) d)] /\
    (db_cursor E = Ok tt ->
     executed (journal (snd (handle_message R E alarm_config msg w)))
     = executed (journal w)
         ++ [[ PStr device_id;
               MySQLDataManager.get "raw_value" d;
               MySQLDataManager.get "rms_value" d;
               MySQLDataManager.get "threshold_value" d;
               MySQLDataManager.get "state" d;
               MySQLDataManager.get "movement_count" d;
               dict_get_default (lit "is_connected") (PInt 1) d;
               dict_get_default (lit "is_alarm") (PInt 0) d;
               PDatetime (now_stamp E) ]]).
Proof.
  intros R E cfg msg w topic payload device_id d Ht Hp Hd Hs Hb Hne.
  pose proof (@handle_message_accepted R E cfg msg w topic payload device_id d
                Ht Hp Hd Hb Hne) as V.
  unfold sink_view in V. injection V as Vi Ve.
  split; [|split].
  - unfold parse_body in Hb. rewrite Hs in Hb.
    destruct (parse_parts R [] (split (lit ", ") payload)) as [d'|] eqn:P;
      simpl in Hb; [|discriminate].
    injection Hb as ->. eapply parse_parts_typed; [|exact P]. reflexivity.
  - exact Vi.
  - intros Hc. rewrite Ve, Hc, row_stamped. reflexivity.
Qed.

Lemma delimited_fields_are_typed_witness :
  parse_body basic_latin (lit "RAW:N/A, RMS:abc, TH:20.5, MOVE:7")
  = Ok (PDict [(lit "raw_value", PNone); (lit "rms_value", PNone);
               (lit "threshold_value", PFloat (S754_finite false 5770237022568448 (-48)));
               (lit "movement_count", PInt 7)]) /\
  executed (journal (snd (handle_message basic_latin (quiet_env 9) ALARM_CONFIG
                            partial_msg (fresh 0))))
  = [[ PStr (lit "SB042"); PNone; PNone;
       PFloat (S754_finite false 5770237022568448 (-48)); PNone; PInt 7;
       PInt 1; PInt 0; PDatetime 9 ]].
Proof.
  split; [reflexivity|].
  refine (proj2 (proj2 (@delimited_fields_are_typed basic_latin (quiet_env 9) ALARM_CONFIG
                          partial_msg (fresh 0) (lit "sleep_blanket/SB042/data")
                          (lit "RAW:N/A, RMS:abc, TH:20.5, MOVE:7") (lit "SB042")
                          _ eq_refl eq_refl eq_refl eq_refl eq_refl _)) eq_refl).
  discriminate.
Defined.

(** A structured payload whose [raw_value] is the text [abc] and whose
    [rms_value] is the empty text is accepted, and both strings are bound
    to the [INSERT] statement as they are. *)
Lemma structured_values_are_not_checked :
  parse_body basic_latin (qlit "{'raw_value': 'abc', 'rms_value': ''}")
  = Ok (PDict [(lit "raw_value", PStr (lit "abc")); (lit "rms_value", PStr [])]) /\
  executed (journal (snd (handle_message basic_latin (quiet_env 9) ALARM_CONFIG
                            {| raw_topic := lit "sleep_blanket/SB042/data";
                               raw_payload := qlit "{'raw_value': 'abc', 'rms_value': ''}" |}
                            (fresh 0))))
  = [[ PStr (lit "SB042"); PStr (lit "abc"); PStr []; PNone; PNone; PNone;
       PInt 1; PInt 0; PDatetime 9 ]].
Proof. repeat apply conj; vm_compute; reflexivity. Qed.

(** ** C7: [RAW:N/A] *)

Lemma parse_parts_app R (l1 l2 : list str) (d : dict) :
  parse_parts R d (l1 ++ l2) = rbind (parse_parts R d l1) (fun d' => parse_parts R d' l2).
Proof.
  revert d. induction l1 as [|p l1 IH]; intros d; simpl; [reflexivity|].
  destruct (parse_part R d p); simpl; [apply IH|reflexivity].
Qed.

Lemma parse_part_raw_na R (d d' : dict) (part : str) :
  is_raw_na R part = true -> parse_part R d part = Ok d' ->
  dict_get (lit "raw_value") d' = Some PNone.
Proof.
  unfold is_raw_na, parse_part.
  destruct (contains (lit ":") part); [|discriminate]. simpl.
  destruct (split_once 58%N part) as [|key [|value [|x l]]]; try discriminate.
  intros H. apply andb_prop in H as [Hk Hv]. rewrite Hv.
  apply str_eqb_eq in Hk. rewrite Hk.
  intros [= <-]. rewrite dict_get_set. reflexivity.
Qed.

Lemma parse_part_keeps_raw_none R (d d' : dict) (part : str) :
  is_raw_number R part = false ->
  dict_get (lit "raw_value") d = Some PNone ->
  parse_part R d part = Ok d' ->
  dict_get (lit "raw_value") d' = Some PNone.
Proof.
  unfold is_raw_number, parse_part. intros Hn Hd.
  destruct (contains (lit ":") part); [|now intros [= <-]]. simpl in Hn.
  destruct (split_once 58%N part) as [|key [|value [|x l]]]; try discriminate.
  destruct (str_eqb (strip value) (lit "N/A")).
  { intros [= <-]. rewrite dict_get_set.
    now destruct (str_eqb _ (lit "raw_value")). }
  destruct (str_eqb (lower R (strip key)) (lit "raw")).
  { simpl in Hn. unfold int_or. rewrite Hn. simpl.
    intros [= <-]. now rewrite dict_get_set. }
  unfold store.
  repeat match goal with
         | |- (if ?b then _ else _) = _ -> _ => destruct b
         | |- rbind ?r _ = _ -> _ =>
             let v := fresh "v" in destruct r as [v|]; simpl; [|discriminate]
         end;
    intros [= <-]; rewrite ?dict_get_set; eval_keys; exact Hd.
Qed.

Lemma parse_parts_keep_raw_none R (parts : list str) :
  forall d d',
    existsb (is_raw_number R) parts = false ->
    dict_get (lit "raw_value") d = Some PNone ->
    parse_parts R d parts = Ok d' ->
    dict_get (lit "raw_value") d' = Some PNone.
Proof.
  induction parts as [|p parts IH]; simpl; intros d d' Hn Hd H.
  - now injection H as <-.
  - apply orb_false_elim in Hn as [Hp Hn].
    destruct (parse_part R d p) as [d1|] eqn:E; simpl in H; [|discriminate].
    eapply IH; [exact Hn| |exact H].
    eapply parse_part_keeps_raw_none; eauto.
Qed.

(** C7 (as amended). For every payload accepted in the delimited form that
    holds a [RAW:N/A] token with no later token that gives [RAW] a number,
    the resulting mapping has [raw_value] present and [None], whatever the
    other tokens are. *)
Theorem raw_na_is_absent :
  forall (R : Runtime) (payload : str) (before : list str) (token : str)
         (after : list str) (d : dict),
    startswith (lit "{") payload = false ->
    split (lit ", ") payload = before ++ token :: after ->
    is_raw_na R token = true ->
    existsb (is_raw_number R) after = false ->
    parse_body R payload = Ok (PDict d) ->
    dict_get (lit "raw_value") d = Some PNone.
Proof.
  intros R payload before token after d Hs Hsp Hna Hafter Hb.
  unfold parse_body in Hb. rewrite Hs, Hsp, parse_parts_app in Hb.
  destruct (parse_parts R [] before) as [d0|]; simpl in Hb; [|discriminate].
  destruct (parse_part R d0 token) as [d1|] eqn:E1; simpl in Hb; [|discriminate].
  destruct (parse_parts R d1 after) as [d2|] eqn:E2; simpl in Hb; [|discriminate].
  injection Hb as <-.
  eapply parse_parts_keep_raw_none; [exact Hafter| |exact E2].
  eapply parse_part_raw_na; eauto.
Qed.

Lemma raw_na_is_absent_witness :
  parse_body basic_latin (lit "RAW:12, raw : N/A, RMS:x, RAW:later")
  = Ok (PDict [(lit "raw_value", PNone); (lit "rms_value", PNone)]) /\
  dict_get (lit "raw_value") [(lit "raw_value", PNone); (lit "rms_value", PNone)]
  = Some PNone.
Proof.
  split; [reflexivity|].
  exact (@raw_na_is_absent basic_latin (lit "RAW:12, raw : N/A, RMS:x, RAW:later")
           [lit "RAW:12"] (lit "raw : N/A") [lit "RMS:x"; lit "RAW:later"]
           [(lit "raw_value", PNone); (lit "rms_value", PNone)]
           eq_refl eq_refl eq_refl eq_refl eq_refl).
Defined.

(** [RAW:N/A, RAW:5] holds a [RAW:N/A] token and is accepted, yet its
    [raw_value] is 5: the later token wins. *)
Lemma later_raw_overrides_na :
  parse_body basic_latin (lit "RAW:N/A, RAW:5") = Ok (PDict [(lit "raw_value", PInt 5)]) /\
  existsb (is_raw_na basic_latin) (split (lit ", ") (lit "RAW:N/A, RAW:5")) = true /\
  accepted basic_latin (lit "RAW:N/A, RAW:5") = true.
Proof. repeat apply conj; vm_compute; reflexivity. Qed.

(** ** C8: the structured form *)

Lemma members_dict (scan : str -> Result (pyval * str)) (n : nat) :
  forall acc s v r, members scan n acc s = Ok (v, r) -> exists d, v = PDict d.
Proof.
  induction n as [|n IH]; simpl; intros acc s v r H; [discriminate|].
  destruct s as [|c t]; [discriminate|].
  destruct (c =? 34)%N; [|discriminate].
  destruct (scan_string [] t) as [[key s1]|]; [|discriminate].
  destruct (skip_ws s1) as [|c1 s2]; [discriminate|].
  destruct (c1 =? 58)%N; [|discriminate].
  destruct (scan (skip_ws s2)) as [[v0 s3]|]; [|discriminate].
  destruct (skip_ws s3) as [|c2 s4]; [discriminate|].
  destruct (c2 =? 125)%N.
  - injection H as <- _. eauto.
  - destruct (c2 =? 44)%N; [|discriminate]. eapply IH; eauto.
Qed.

Lemma json_loads_brace R (rest : str) (v : pyval) :
  json_loads R (lit "{" ++ rest) = Ok v -> exists d, v = PDict d.
Proof.
  unfold json_loads. cbn [lit app list_ascii_of_string map].
  change (N_of_ascii "{") with 123%N.
  cbn [startswith N.eqb Pos.eqb andb skip_ws json_ws orb].
  cbn [scan_once].
  change (123 =? 34)%N with false. change (123 =? 123)%N with true. cbv iota.
  destruct (json_depth R) as [|depth]; [discriminate|].
  destruct (skip_ws rest) as [|c1 t1]; [discriminate|].
  destruct (c1 =? 125)%N.
  - destruct (skip_ws t1); [|discriminate]. intros [= <-]. eauto.
  - destruct (members _ _ _ _) as [[v0 r]|] eqn:E; [|discriminate].
    destruct (skip_ws r); [|discriminate]. intros [= <-].
    eapply members_dict; eauto.
Qed.

(** C8 (as amended). For every payload whose first character is [{],
    [parse_data] answers with what [json.loads] makes of the payload, a
    mapping, and with [None] (after logging the error) when the decoder
    raises; such a payload is then not accepted.  The test is on the
    first character: white space before the brace is not skipped. *)
Theorem brace_first_is_decoded :
  forall (R : Runtime) (rest : str) (w : World),
    parse_data R (lit "{" ++ rest) w
    = match json_loads R (lit "{" ++ rest) with
      | Ok v => (Ok v, w)
      | Raise e => (Ok PNone, {| stats := stats w;
                                 journal := journal w ++ [Log (ParseError e)] |})
      end /\
    (forall v, json_loads R (lit "{" ++ rest) = Ok v -> exists d, v = PDict d) /\
    (forall e, json_loads R (lit "{" ++ rest) = Raise e ->
               accepted R (lit "{" ++ rest) = false).
Proof.
  intros R rest w.
  assert (Hs : startswith (lit "{") (lit "{" ++ rest) = true).
  { cbn [lit app list_ascii_of_string map startswith]. now rewrite N.eqb_refl. }
  split; [|split].
  - unfold parse_data, try_except, lift, parse_body. rewrite Hs.
    now destruct (json_loads R (lit "{" ++ rest)).
  - intros v. apply json_loads_brace.
  - intros e He. unfold accepted, parse_body. now rewrite Hs, He.
Qed.

Lemma brace_first_is_decoded_witness :
  json_loads basic_latin (qlit "{'state': 1, 'is_alarm': true}")
  = Ok (PDict [(lit "state", PInt 1); (lit "is_alarm", PBool true)]) /\
  parse_data basic_latin (qlit "{'state': 1, 'is_alarm': true}") (fresh 0)
  = (Ok (PDict [(lit "state", PInt 1); (lit "is_alarm", PBool true)]), fresh 0) /\
  json_loads basic_latin (qlit "{'state': 1,") = Raise JSONDecodeError /\
  accepted basic_latin (qlit "{'state': 1,") = false.
Proof.
  split; [reflexivity|]. split.
  { exact (proj1 (brace_first_is_decoded basic_latin
                    (qlit "'state': 1, 'is_alarm': true}") (fresh 0))). }
  split; [reflexivity|].
  exact (proj2 (proj2 (brace_first_is_decoded basic_latin (qlit "'state': 1,") (fresh 0)))
           JSONDecodeError eq_refl).
Defined.

(** A structured payload after one blank: its first character that is not
    white space is the brace and [json.loads] would decode it, but
    [parse_data] reads it as delimited text and answers with the empty
    mapping, which is not accepted. *)
Lemma leading_blank_is_not_decoded :
  startswith (lit "{") (lstrip (qlit " {'raw_value': 1}")) = true /\
  json_loads basic_latin (qlit " {'raw_value': 1}") = Ok (PDict [(lit "raw_value", PInt 1)]) /\
  parse_body basic_latin (qlit " {'raw_value': 1}") = Ok (PDict []) /\
  accepted basic_latin (qlit " {'raw_value': 1}") = false.
Proof. repeat apply conj; vm_compute; reflexivity. Qed.

(** ** C9: topics and the sentinel [GENERAL_DEVICE] *)

Lemma startswith_app (p rest : str) : startswith p (p ++ rest) = true.
Proof.
  induction p as [|c p IH]; simpl; [reflexivity|]. now rewrite N.eqb_refl.
Qed.

Lemma startswith_inv (p s : str) :
  startswith p s = true -> exists rest, s = p ++ rest.
Proof.
  revert s. induction p as [|c p IH]; intros s H; simpl in *; [eauto|].
  destruct s as [|x s]; [discriminate|].
  apply andb_prop in H as [Hc Hp]. apply N.eqb_eq in Hc; subst x.
  destruct (IH s Hp) as [rest ->]. eauto.
Qed.

Lemma contains_unfold (sub s : str) :
  contains sub s
  = startswith sub s || match s with [] => false | _ :: t => contains sub t end.
Proof. now destruct s. Qed.

Lemma re_search_unfold (s : str) :
  re_search s
  = match match_here s with
    | Some g => Some g
    | None => match s with [] => None | _ :: t => re_search t end
    end.
Proof. now destruct s. Qed.

Lemma contains_occurs (sub s : str) : contains sub s = true <-> occurs sub s.
Proof.
  split.
  - induction s as [|c s IH]; simpl; intros H.
    + rewrite orb_false_r in H. apply startswith_inv in H as [rest ->].
      exists [], rest. reflexivity.
    + apply orb_prop in H as [H|H].
      * apply startswith_inv in H as [rest ->]. exists [], rest. reflexivity.
      * destruct (IH H) as (b & a & ->). exists (c :: b), a. reflexivity.
  - intros (b & a & ->). induction b as [|c b IH]; simpl.
    + now rewrite contains_unfold, startswith_app.
    + now rewrite IH, orb_true_r.
Qed.

Lemma span_segment_spec (s seg r : str) :
  span_segment s = (seg, r) -> s = seg ++ r /\ ~ In 47%N seg.
Proof.
  revert seg r. induction s as [|c s IH]; simpl; intros seg r H.
  - injection H as <- <-. auto.
  - destruct (c =? 47)%N eqn:E.
    + injection H as <- <-. auto.
    + destruct (span_segment s) as [seg' r'].
      injection H as <- <-. destruct (IH seg' r' eq_refl) as [-> Hn].
      split; [reflexivity|]. intros [->|Hi]; [discriminate|auto].
Qed.

Lemma span_segment_app (seg rest : str) :
  ~ In 47%N seg -> span_segment (seg ++ 47%N :: rest) = (seg, 47%N :: rest).
Proof.
  induction seg as [|c seg IH]; simpl; intros Hn; [reflexivity|].
  destruct (c =? 47)%N eqn:E.
  - apply N.eqb_eq in E. subst c. exfalso. auto.
  - rewrite IH; auto.
Qed.

Lemma match_here_sound (s g : str) :
  match_here s = Some g ->
  exists after, g <> [] /\ ~ In 47%N g /\
                s = lit "sleep_blanket/" ++ g ++ lit "/data" ++ after.
Proof.
  unfold match_here.
  destruct (startswith (lit "sleep_blanket/") s) eqn:Hs; [|discriminate].
  apply startswith_inv in Hs as [rest ->].
  change (skipn 14 (lit "sleep_blanket/" ++ rest)) with rest.
  destruct (span_segment rest) as [seg r] eqn:Hseg.
  apply span_segment_spec in Hseg as [-> Hn].
  destruct seg as [|c seg]; [discriminate|].
  destruct (startswith (lit "/data") r) eqn:Hd; [|discriminate].
  apply startswith_inv in Hd as [after ->].
  intros [= <-]. exists after. repeat split; [discriminate|exact Hn].
Qed.

Lemma match_here_complete (g after : str) :
  g <> [] -> ~ In 47%N g ->
  match_here (lit "sleep_blanket/" ++ g ++ lit "/data" ++ after) = Some g.
Proof.
  intros Hne Hn. unfold match_here. rewrite startswith_app.
  change (skipn 14 (lit "sleep_blanket/" ++ g ++ lit "/data" ++ after))
    with (g ++ lit "/data" ++ after).
  change (lit "/data" ++ after) with (47%N :: (lit "data" ++ after)).
  rewrite span_segment_app by exact Hn.
  destruct g as [|c g]; [contradiction|].
  change (47%N :: lit "data" ++ after) with (lit "/data" ++ after).
  now rewrite startswith_app.
Qed.

Lemma re_search_sound (s g : str) : re_search s = Some g -> pattern_occurs s.
Proof.
  induction s as [|c s IH]; simpl.
  - discriminate.
  - destruct (match_here (c :: s)) as [g'|] eqn:E.
    + intros _. apply match_here_sound in E as (after & Hne & Hn & ->).
      exists [], g', after. auto.
    + intros H. destruct (IH H) as (b & seg & a & Hne & Hn & ->).
      exists (c :: b), seg, a. auto.
Qed.

Lemma re_search_complete (s : str) : pattern_occurs s -> re_search s <> None.
Proof.
  intros (b & seg & a & Hne & Hn & ->).
  induction b as [|c b IH].
  - cbn [app]. rewrite re_search_unfold.
    now rewrite match_here_complete.
  - simpl. destruct (match_here _); [discriminate|exact IH].
Qed.

(** C9 (as amended). For every topic in which the pattern
    [sleep_blanket/{segment}/data], with a non-empty segment free of [/],
    stands nowhere, and in which the text [device/sleep_blanket] occurs,
    the device id is the sentinel [GENERAL_DEVICE].  The condition is on
    occurrence, not on the topic as a whole: the source looks for the
    pattern with [re.search], which is not anchored. *)
Theorem general_device_sentinel :
  forall topic : str,
    ~ pattern_occurs topic ->
    occurs (lit "device/sleep_blanket") topic ->
    extract_device_id topic = Some (lit "GENERAL_DEVICE").
Proof.
  intros topic Hp Ho. unfold extract_device_id.
  destruct (re_search topic) as [g|] eqn:E.
  - exfalso. apply Hp. eapply re_search_sound; eauto.
  - apply contains_occurs in Ho. now rewrite Ho.
Qed.

Lemma general_device_sentinel_witness :
  extract_device_id (lit "device/sleep_blanket/extra") = Some (lit "GENERAL_DEVICE").
Proof.
  apply general_device_sentinel.
  - intros H. apply re_search_complete in H. now apply H.
  - exists [], (lit "/extra"). reflexivity.
Defined.

(** The topic [device/sleep_blanket/x/data] does not match the pattern
    [sleep_blanket/{segment}/data] (it is not of that form) and contains
    [device/sleep_blanket], yet its device id is not the sentinel: the
    pattern stands inside it and the first rule gives [x]. *)
Lemma pattern_inside_a_longer_topic :
  whole_topic_matches (lit "device/sleep_blanket/x/data") = false /\
  contains (lit "device/sleep_blanket") (lit "device/sleep_blanket/x/data") = true /\
  extract_device_id (lit "device/sleep_blanket/x/data") = Some (lit "x").
Proof. repeat apply conj; vm_compute; reflexivity. Qed.

(** ** The samples and the runtime *)

(** The samples above are Basic Latin text: they evaluate to the same
    under every runtime. *)
Lemma samples_under_any_runtime :
  forall R : Runtime,
    handle_message R (broken_console 0) loud_config alarm_msg (fresh 0)
    = handle_message basic_latin (broken_console 0) loud_config alarm_msg (fresh 0) /\
    deliver R permissive_config
      [(quiet_env 0, alarm_msg); (quiet_env 30, alarm_msg); (quiet_env 61, alarm_msg)] (fresh 0)
    = deliver basic_latin permissive_config
        [(quiet_env 0, alarm_msg); (quiet_env 30, alarm_msg); (quiet_env 61, alarm_msg)]
        (fresh 0) /\
    handle_message R (quiet_env 7) ALARM_CONFIG garbage_msg (fresh 0)
    = handle_message basic_latin (quiet_env 7) ALARM_CONFIG garbage_msg (fresh 0) /\
    handle_message R (quiet_env 0) ALARM_CONFIG
      (text_msg "sleep_blanket/SB042/data" "FOO:N/A") (fresh 0)
    = handle_message basic_latin (quiet_env 0) ALARM_CONFIG
        (text_msg "sleep_blanket/SB042/data" "FOO:N/A") (fresh 0) /\
    parse_body R (lit "RAW:N/A, RAW:5") = parse_body basic_latin (lit "RAW:N/A, RAW:5") /\
    parse_body R (qlit " {'raw_value': 1}") = parse_body basic_latin (qlit " {'raw_value': 1}").
Proof. intros R. repeat apply conj; vm_compute; reflexivity. Qed.

(** The structured samples hold one object and nothing inside it: they
    evaluate to the same under every runtime that lets the decoder enter
    an object at all. *)
Lemma structured_samples_under_any_runtime :
  forall R : Runtime,
    json_depth R <> O ->
    handle_message R (quiet_env 9) ALARM_CONFIG
      {| raw_topic := lit "sleep_blanket/SB042/data";
         raw_payload := qlit "{'raw_value': 'abc', 'rms_value': ''}" |} (fresh 0)
    = handle_message basic_latin (quiet_env 9) ALARM_CONFIG
        {| raw_topic := lit "sleep_blanket/SB042/data";
           raw_payload := qlit "{'raw_value': 'abc', 'rms_value': ''}" |} (fresh 0) /\
    json_loads R (qlit " {'raw_value': 1}") = json_loads basic_latin (qlit " {'raw_value': 1}").
Proof.
  intros [isd dec low lim [|depth]] H; [contradiction|].
  repeat apply conj; vm_compute; reflexivity.
Qed.

(** ** A well-formed sample, end to end *)

(** The topic [sleep_blanket/SB042/data] with a full delimited payload and
    [ALARM:0]: device [SB042], one call of the sink with the seven fields,
    [total_processed] raised by 1, no alarm. *)
Example end_to_end_sample :
  forall R : Runtime,
    let w := snd (handle_message R (quiet_env 5) ALARM_CONFIG
                    (text_msg "sleep_blanket/SB042/data"
                       "RAW:3000, RMS:1800.50, TH:2000.00, STATE:1, MOVE:5, CONNECTED:1, ALARM:0")
                    (fresh 0)) in
    stats w = {| total_received := 1; total_processed := 1; total_errors := 0;
                 start_time := 0; last_message_time := Some 5 |} /\
    executed (journal w)
    = [[ PStr (lit "SB042"); PInt 3000;
         PFloat (S754_finite false 7918682743242752 (-42));
         PFloat (S754_finite false 8796093022208000 (-42));
         PInt 1; PInt 5; PInt 1; PInt 0; PDatetime 5 ]] /\
    alarms (journal w) = [].
Proof. intros R. repeat apply conj; vm_compute; reflexivity. Qed.

(** * Further properties *)

(** ** Topics: what [extract_device_id] returns *)

Lemma count_slash_app (a b : str) : count_slash (a ++ b) = (count_slash a + count_slash b)%nat.
Proof. unfold count_slash. now rewrite filter_app, length_app. Qed.

Lemma count_slash_slash (s : str) : count_slash (47%N :: s) = S (count_slash s).
Proof. reflexivity. Qed.

Lemma count_slash_zero (s : str) : count_slash s = 0%nat <-> ~ In 47%N s.
Proof.
  unfold count_slash. induction s as [|c s IH]; cbn [filter List.length In]; [tauto|].
  destruct (47 =? c)%N eqn:E; cbn [List.length].
  - apply N.eqb_eq in E. split; [discriminate|]. intros H. exfalso. auto.
  - apply N.eqb_neq in E. rewrite IH. split.
    + intros H [Hc|Hi]; [now apply E|auto].
    + intros H Hi. auto.
Qed.

(** A text is cut at its first [/] in one way only. *)
Lemma first_slash_unique (x x' y y' : str) :
  ~ In 47%N x -> ~ In 47%N x' ->
  x ++ 47%N :: y = x' ++ 47%N :: y' -> x = x' /\ y = y'.
Proof.
  revert x'. induction x as [|c x IH]; intros [|c' x'] Hx Hx' H; simpl in *.
  - injection H as ->. auto.
  - injection H as <- _. exfalso. auto.
  - injection H as -> _. exfalso. auto.
  - injection H as -> H. destruct (IH x') as [-> ->]; auto.
Qed.

Lemma first_slash (s : str) :
  In 47%N s -> exists a b, s = a ++ 47%N :: b /\ ~ In 47%N a.
Proof.
  induction s as [|c s IH]; simpl; [tauto|].
  destruct (N.eq_dec c 47) as [->|Hc].
  - intros _. exists [], s. auto.
  - intros [H|H]; [contradiction|].
    destruct (IH H) as (a & b & -> & Ha). exists (c :: a), b. split; [reflexivity|].
    intros [E|Hi]; auto.
Qed.

(** Where a text with one [/], [u/v], can stand in a topic of three
    levels [x/d/rest]: on the first [/] or on the second. *)
Lemma occurs_in_three_levels (u v x d rest b a : str) :
  ~ In 47%N u -> ~ In 47%N v -> ~ In 47%N x -> ~ In 47%N d -> ~ In 47%N rest ->
  x ++ 47%N :: d ++ 47%N :: rest = b ++ (u ++ 47%N :: v) ++ a ->
  (b ++ u = x /\ v ++ a = d ++ 47%N :: rest) \/
  (exists b2, b = x ++ 47%N :: b2 /\ b2 ++ u = d /\ v ++ a = rest).
Proof.
  intros Hu Hv Hx Hd Hr H.
  assert (Hc : (count_slash b + count_slash a <= 1)%nat).
  { apply (f_equal count_slash) in H.
    repeat (rewrite count_slash_app in H || rewrite count_slash_slash in H).
    apply count_slash_zero in Hu, Hv, Hx, Hd, Hr. lia. }
  destruct (in_dec N.eq_dec 47%N b) as [Hb|Hb].
  - right. destruct (first_slash b Hb) as (b1 & b2 & -> & Hb1).
    rewrite count_slash_app, count_slash_slash in Hc.
    assert (Hb2 : ~ In 47%N b2) by (apply count_slash_zero; lia).
    assert (Ha : ~ In 47%N a) by (apply count_slash_zero; lia).
    rewrite <- app_assoc in H. cbn [app] in H.
    apply first_slash_unique in H as [<- H]; auto.
    replace (b2 ++ (u ++ 47%N :: v) ++ a) with ((b2 ++ u) ++ 47%N :: v ++ a) in H
      by (now rewrite <- !app_assoc).
    apply first_slash_unique in H as [H1 H2]; auto.
    + exists b2. auto.
    + intros Hi. apply in_app_or in Hi as [Hi|Hi]; auto.
  - left.
    replace (b ++ (u ++ 47%N :: v) ++ a) with ((b ++ u) ++ 47%N :: v ++ a) in H
      by (now rewrite <- !app_assoc).
    apply first_slash_unique in H as [H1 H2]; auto.
    intros Hi. apply in_app_or in Hi as [Hi|Hi]; auto.
Qed.

(** Decide that a literal holds no [/]. *)
Ltac no_slash := cbv; intuition discriminate.

(** Two texts with different ends are different. *)
Ltac ends_differ H :=
  apply (f_equal (@rev codepoint)) in H; rewrite ?rev_app_distr in H;
  cbn in H; discriminate H.

(** In a topic [sleep_blanket/d/rest] of three levels the pattern can only
    stand at the start, and then [rest] begins with [data]. *)
Lemma pattern_in_three_levels (d rest : str) :
  ~ In 47%N d -> ~ In 47%N rest ->
  pattern_occurs (lit "sleep_blanket/" ++ d ++ 47%N :: rest) ->
  exists a, rest = lit "data" ++ a.
Proof.
  intros Hd Hr (b & seg & a & Hne & Hn & H).
  change (lit "sleep_blanket/" ++ d ++ 47%N :: rest)
    with (lit "sleep_blanket" ++ 47%N :: d ++ 47%N :: rest) in H.
  replace (b ++ lit "sleep_blanket/" ++ seg ++ lit "/data" ++ a)
    with (b ++ (lit "sleep_blanket" ++ 47%N :: seg) ++ lit "/data" ++ a) in H
    by (now rewrite <- !app_assoc).
  apply occurs_in_three_levels in H as [[_ H]|(b2 & _ & _ & H)]; auto; try no_slash.
  - change (seg ++ lit "/data" ++ a) with (seg ++ 47%N :: lit "data" ++ a) in H.
    apply first_slash_unique in H as [_ H]; auto. eauto.
  - exfalso. apply Hr. rewrite <- H. apply in_or_app. right.
    apply in_or_app. left. cbv. auto.
Qed.

Lemma re_search_leftmost (s g : str) :
  re_search s = Some g ->
  exists b a,
    g <> [] /\ ~ In 47%N g /\
    s = b ++ lit "sleep_blanket/" ++ g ++ lit "/data" ++ a /\
    forall b' g' a',
      g' <> [] -> ~ In 47%N g' ->
      s = b' ++ lit "sleep_blanket/" ++ g' ++ lit "/data" ++ a' ->
      (List.length b <= List.length b')%nat.
Proof.
  induction s as [|c s IH]; rewrite re_search_unfold.
  - unfold match_here. simpl. discriminate.
  - destruct (match_here (c :: s)) as [g0|] eqn:E.
    + intros [= <-]. apply match_here_sound in E as (a & Hne & Hn & E).
      exists [], a. split; [exact Hne|]. split; [exact Hn|]. split; [exact E|].
      intros. simpl. lia.
    + intros H. destruct (IH H) as (b & a & Hne & Hn & -> & Hleft).
      exists (c :: b), a. split; [exact Hne|]. split; [exact Hn|]. split; [reflexivity|].
      intros [|c' b'] g' a' Hne' Hn' E'.
      * cbn [app] in E'. rewrite E' in E. rewrite match_here_complete in E by auto.
        discriminate.
      * injection E' as _ E'. simpl. apply le_n_S. exact (Hleft b' g' a' Hne' Hn' E').
Qed.

Lemma sentinel_general_one_level :
  lit "GENERAL_DEVICE" <> [] /\ ~ In 47%N (lit "GENERAL_DEVICE").
Proof. split; [discriminate|]. cbv. intuition discriminate. Qed.

Lemma sentinel_monitor_one_level :
  lit "MONITOR_SENSOR" <> [] /\ ~ In 47%N (lit "MONITOR_SENSOR").
Proof. split; [discriminate|]. cbv. intuition discriminate. Qed.

(** X1. A topic that begins with [sleep_blanket/], a non-empty segment
    without [/] and [/data] resolves to that segment, whatever follows. *)
Theorem data_topic_gives_its_segment :
  forall d after : str,
    d <> [] -> ~ In 47%N d ->
    extract_device_id (lit "sleep_blanket/" ++ d ++ lit "/data" ++ after) = Some d.
Proof.
  intros d after Hne Hn. unfold extract_device_id.
  rewrite re_search_unfold, match_here_complete by auto. reflexivity.
Qed.

Lemma data_topic_gives_its_segment_witness :
  extract_device_id (lit "sleep_blanket/SB042/data") = Some (lit "SB042") /\
  extract_device_id (lit "sleep_blanket/SB042/data/raw") = Some (lit "SB042").
Proof.
  split.
  - apply (@data_topic_gives_its_segment (lit "SB042") []); [discriminate|].
    cbv. intuition discriminate.
  - apply (@data_topic_gives_its_segment (lit "SB042") (lit "/raw")); [discriminate|].
    cbv. intuition discriminate.
Defined.

(** X2. Whatever the topic, a device id that [extract_device_id] returns
    is one topic level: it is not empty and holds no [/]. *)
Theorem device_id_is_one_level :
  forall topic device_id : str,
    extract_device_id topic = Some device_id ->
    device_id <> [] /\ ~ In 47%N device_id.
Proof.
  intros topic device_id. unfold extract_device_id.
  destruct (re_search topic) as [g|] eqn:E.
  - intros [= <-]. apply re_search_leftmost in E as (b & a & Hne & Hn & _). auto.
  - destruct (contains _ topic).
    + intros [= <-]. apply sentinel_general_one_level.
    + destruct (contains _ topic); [|discriminate].
      intros [= <-]. apply sentinel_monitor_one_level.
Qed.

Lemma device_id_is_one_level_witness :
  lit "b" <> [] /\ ~ In 47%N (lit "b").
Proof.
  exact (@device_id_is_one_level (lit "x/sleep_blanket/b/data/y") (lit "b") eq_refl).
Defined.

(** X3. When the pattern stands in a topic, the device id is the segment
    of its first occurrence: no occurrence starts further left. *)
Theorem first_occurrence_wins :
  forall topic : str,
    pattern_occurs topic ->
    exists before segment after,
      extract_device_id topic = Some segment /\
      topic = before ++ lit "sleep_blanket/" ++ segment ++ lit "/data" ++ after /\
      forall before' segment' after',
        segment' <> [] -> ~ In 47%N segment' ->
        topic = before' ++ lit "sleep_blanket/" ++ segment' ++ lit "/data" ++ after' ->
        (List.length before <= List.length before')%nat.
Proof.
  intros topic Hp. unfold extract_device_id.
  destruct (re_search topic) as [g|] eqn:E.
  - apply re_search_leftmost in E as (b & a & Hne & Hn & E & Hleft).
    exists b, g, a. auto.
  - exfalso. now apply re_search_complete in Hp.
Qed.

Lemma first_occurrence_wins_witness :
  exists before segment after,
    extract_device_id (lit "sleep_blanket/a/data/sleep_blanket/b/data") = Some segment /\
    lit "sleep_blanket/a/data/sleep_blanket/b/data"
    = before ++ lit "sleep_blanket/" ++ segment ++ lit "/data" ++ after /\
    forall before' segment' after',
      segment' <> [] -> ~ In 47%N segment' ->
      lit "sleep_blanket/a/data/sleep_blanket/b/data"
      = before' ++ lit "sleep_blanket/" ++ segment' ++ lit "/data" ++ after' ->
      (List.length before <= List.length before')%nat.
Proof.
  apply first_occurrence_wins.
  exists [], (lit "a"), (lit "/sleep_blanket/b/data").
  split; [discriminate|]. split; [|reflexivity]. cbv. intuition discriminate.
Defined.

(** X4. [extract_device_id] answers [None] exactly for the topics in
    which none of the three texts it looks for stands: the pattern
    [sleep_blanket/{segment}/data], [device/sleep_blanket] and
    [sensors/sleep_monitor]. *)
Theorem no_device_id_iff_nothing_occurs :
  forall topic : str,
    extract_device_id topic = None <->
    ~ pattern_occurs topic /\
    ~ occurs (lit "device/sleep_blanket") topic /\
    ~ occurs (lit "sensors/sleep_monitor") topic.
Proof.
  intros topic. unfold extract_device_id. rewrite <- !contains_occurs.
  destruct (re_search topic) as [g|] eqn:E.
  - split; [discriminate|]. intros (Hp & _). exfalso. apply Hp.
    eapply re_search_sound; eauto.
  - assert (Hp : ~ pattern_occurs topic).
    { intros Hp. now apply re_search_complete in Hp. }
    destruct (contains (lit "device/sleep_blanket") topic).
    + split; [discriminate|]. intros (_ & H & _). now exfalso.
    + destruct (contains (lit "sensors/sleep_monitor") topic).
      * split; [discriminate|]. intros (_ & _ & H). now exfalso.
      * split; [intros _|reflexivity]. repeat split; auto; discriminate.
Qed.

(** X5. A topic in which neither the pattern nor [device/sleep_blanket]
    stands, but [sensors/sleep_monitor] does, resolves to the sentinel
    [MONITOR_SENSOR]. *)
Theorem monitor_sensor_sentinel :
  forall topic : str,
    ~ pattern_occurs topic ->
    ~ occurs (lit "device/sleep_blanket") topic ->
    occurs (lit "sensors/sleep_monitor") topic ->
    extract_device_id topic = Some (lit "MONITOR_SENSOR").
Proof.
  intros topic Hp Hd Hs. unfold extract_device_id.
  destruct (re_search topic) as [g|] eqn:E.
  - exfalso. apply Hp. eapply re_search_sound; eauto.
  - apply contains_occurs in Hs. rewrite Hs.
    destruct (contains (lit "device/sleep_blanket") topic) eqn:C; [|reflexivity].
    exfalso. apply Hd. now apply contains_occurs.
Qed.

Lemma monitor_sensor_sentinel_witness :
  extract_device_id (lit "home/sensors/sleep_monitor/1") = Some (lit "MONITOR_SENSOR").
Proof.
  apply monitor_sensor_sentinel.
  - intros H. apply re_search_complete in H. now apply H.
  - intros H. apply contains_occurs in H. discriminate H.
  - exists (lit "home/"), (lit "/1"). reflexivity.
Defined.

Lemma status_alarm_no_device (d rest : str) :
  ~ In 47%N d ->
  rest = lit "status" \/ rest = lit "alarm" ->
  extract_device_id (lit "sleep_blanket/" ++ d ++ 47%N :: rest) = None.
Proof.
  intros Hd Hrest.
  assert (Hr : ~ In 47%N rest) by (destruct Hrest as [-> | ->]; no_slash).
  unfold extract_device_id.
  destruct (re_search _) as [g|] eqn:E.
  { exfalso. apply re_search_sound in E.
    apply pattern_in_three_levels in E as [a E]; auto.
    destruct Hrest as [-> | ->]; discriminate E. }
  destruct (contains (lit "device/sleep_blanket") _) eqn:C1.
  { exfalso. apply contains_occurs in C1 as (b & a & H).
    change (lit "sleep_blanket/" ++ d ++ 47%N :: rest)
      with (lit "sleep_blanket" ++ 47%N :: d ++ 47%N :: rest) in H.
    change (lit "device/sleep_blanket")
      with (lit "device" ++ 47%N :: lit "sleep_blanket") in H.
    apply occurs_in_three_levels in H as [[H _]|(b2 & _ & _ & H)]; auto; try no_slash.
    - ends_differ H.
    - destruct Hrest as [-> | ->]; discriminate H. }
  destruct (contains (lit "sensors/sleep_monitor") _) eqn:C2; [|reflexivity].
  exfalso. apply contains_occurs in C2 as (b & a & H).
  change (lit "sleep_blanket/" ++ d ++ 47%N :: rest)
    with (lit "sleep_blanket" ++ 47%N :: d ++ 47%N :: rest) in H.
  change (lit "sensors/sleep_monitor")
    with (lit "sensors" ++ 47%N :: lit "sleep_monitor") in H.
  apply occurs_in_three_levels in H as [[H _]|(b2 & _ & _ & H)]; auto; try no_slash.
  - ends_differ H.
  - destruct Hrest as [-> | ->]; discriminate H.
Qed.

(** X6. The receiver subscribes to [sleep_blanket/+/status] and
    [sleep_blanket/+/alarm], but no topic of these two families names a
    device: whatever the middle level, [extract_device_id] answers [None]
    and [handle_message] only counts the message as received, warns and
    returns, without a look at the payload. *)
Theorem status_and_alarm_messages_are_dropped :
  forall (R : Runtime) (E : Env) (alarm_config : dict) (msg : MQTTMessage) (w : World)
         (d kind payload : str),
    ~ In 47%N d ->
    kind = lit "status" \/ kind = lit "alarm" ->
    utf8_decode (raw_topic msg) = Ok (lit "sleep_blanket/" ++ d ++ lit "/" ++ kind) ->
    utf8_decode (raw_payload msg) = Ok payload ->
    extract_device_id (lit "sleep_blanket/" ++ d ++ lit "/" ++ kind) = None /\
    handle_message R E alarm_config msg w
    = (Ok tt,
       {| stats := arrived E (stats w);
          journal := (journal w
                        ++ [Log (MessageReceived (lit "sleep_blanket/" ++ d ++ lit "/" ++ kind)
                                                 payload)])
                       ++ [Log (NoDeviceId (lit "sleep_blanket/" ++ d ++ lit "/" ++ kind))] |}).
Proof.
  intros R E cfg msg w d kind payload Hd Hk Ht Hp.
  pose proof (@status_alarm_no_device d kind Hd Hk) as Hn.
  split; [exact Hn|].
  exact (@handle_message_no_device R E cfg msg w _ payload Ht Hp Hn).
Qed.

Lemma status_and_alarm_messages_are_dropped_witness :
  extract_device_id (lit "sleep_blanket/SB042/status") = None /\
  stats (snd (handle_message basic_latin (quiet_env 3) ALARM_CONFIG
                (text_msg "sleep_blanket/SB042/status"
                          "RAW:3000, RMS:1800.50, TH:2000.00, STATE:1, MOVE:5, CONNECTED:1, ALARM:1")
                (fresh 0)))
  = {| total_received := 1; total_processed := 0; total_errors := 0;
       start_time := 0; last_message_time := Some 3 |}.
Proof.
  assert (H : ~ In 47%N (lit "SB042")) by no_slash.
  pose proof (@status_and_alarm_messages_are_dropped basic_latin (quiet_env 3) ALARM_CONFIG
                (text_msg "sleep_blanket/SB042/status"
                          "RAW:3000, RMS:1800.50, TH:2000.00, STATE:1, MOVE:5, CONNECTED:1, ALARM:1")
                (fresh 0) (lit "SB042") (lit "status") _ H (or_introl eq_refl)
                eq_refl eq_refl) as [H1 H2].
  split; [exact H1|]. rewrite H2. reflexivity.
Defined.

(** ** Storage: what [insert_device_data] answers *)

Lemma saved_app (j1 j2 : list event) : saved (j1 ++ j2) = saved j1 ++ saved j2.
Proof.
  induction j1 as [|[[]|d|d dd|v] j1 IH]; simpl; auto. now rewrite IH.
Qed.

(** The four ways through [insert_device_data]. *)
Lemma insert_run E device_id data_dict w :
  MySQLDataManager.insert_device_data E device_id data_dict w
  = let values := MySQLDataManager.row E device_id data_dict in
    let j1 := journal w ++ [InsertCall device_id data_dict] in
    match db_cursor E with
    | Raise e => (Ok false, {| stats := stats w; journal := j1 ++ [Log (InsertFailed e)] |})
    | Ok _ =>
        let j2 := j1 ++ [Execute values] in
        match db_execute E values with
        | Raise e => (Ok false, {| stats := stats w; journal := j2 ++ [Log (InsertFailed e)] |})
        | Ok _ =>
            match db_close E with
            | Raise e =>
                (Ok false, {| stats := stats w; journal := j2 ++ [Log (InsertFailed e)] |})
            | Ok _ =>
                (Ok true, {| stats := stats w; journal := j2 ++ [Log (RowSaved device_id)] |})
            end
        end
    end.
Proof.
  unfold MySQLDataManager.insert_device_data, try_except, bind, lift, emit, ret. simpl.
  destruct (db_cursor E) as [[]|e1]; simpl; [|reflexivity].
  destruct (db_execute E _) as [[]|e2]; simpl; [|reflexivity].
  destruct (db_close E) as [[]|e3]; reflexivity.
Qed.

(** What [insert_device_data] adds to the journal does not depend on the
    world it starts from. *)
Lemma insert_frame E device_id data_dict :
  exists (stored : bool) (tail : list event),
    (forall w, MySQLDataManager.insert_device_data E device_id data_dict w
               = (Ok stored, {| stats := stats w;
                                journal := journal w ++ InsertCall device_id data_dict :: tail |})) /\
    saved tail = (if stored then [device_id] else []) /\
    alarms tail = [] /\
    inserts tail = [] /\
    executed tail = match db_cursor E with
                    | Ok _ => [MySQLDataManager.row E device_id data_dict]
                    | Raise _ => []
                    end /\
    (stored = true <->
     db_cursor E = Ok tt /\
     db_execute E (MySQLDataManager.row E device_id data_dict) = Ok tt /\
     db_close E = Ok tt).
Proof.
  destruct (db_cursor E) as [[]|e1] eqn:E1;
    [destruct (db_execute E (MySQLDataManager.row E device_id data_dict)) as [[]|e2] eqn:E2;
     [destruct (db_close E) as [[]|e3] eqn:E3|]|].
  - exists true, [Execute (MySQLDataManager.row E device_id data_dict); Log (RowSaved device_id)].
    split; [|repeat split; auto].
    intros w. rewrite insert_run. cbv zeta. rewrite E1, E2, E3.
    now rewrite <- !app_assoc.
  - exists false, [Execute (MySQLDataManager.row E device_id data_dict); Log (InsertFailed e3)].
    split; [|repeat split; auto; try discriminate; intros (_ & _ & H); discriminate H].
    intros w. rewrite insert_run. cbv zeta. rewrite E1, E2, E3.
    now rewrite <- !app_assoc.
  - exists false, [Execute (MySQLDataManager.row E device_id data_dict); Log (InsertFailed e2)].
    split; [|repeat split; auto; try discriminate; intros (_ & H & _); discriminate H].
    intros w. rewrite insert_run. cbv zeta. rewrite E1, E2.
    now rewrite <- !app_assoc.
  - exists false, [Log (InsertFailed e1)].
    split; [|repeat split; auto; try discriminate; intros (H & _); discriminate H].
    intros w. rewrite insert_run. cbv zeta. rewrite E1.
    now rewrite <- !app_assoc.
Qed.

(** X7. [insert_device_data] never raises and leaves the counters alone.
    It answers [True] exactly when the cursor is had, the statement is
    executed and the cursor is closed, all three without an exception; and
    when no cursor is had, no statement is executed. *)
Theorem insert_answers_true_iff_every_call_succeeds :
  forall (E : Env) (device_id : str) (data_dict : dict) (w : World),
  exists stored : bool,
    fst (MySQLDataManager.insert_device_data E device_id data_dict w) = Ok stored /\
    stats (snd (MySQLDataManager.insert_device_data E device_id data_dict w)) = stats w /\
    (stored = true <->
     db_cursor E = Ok tt /\
     db_execute E (MySQLDataManager.row E device_id data_dict) = Ok tt /\
     db_close E = Ok tt) /\
    (forall e, db_cursor E = Raise e ->
               executed (journal (snd (MySQLDataManager.insert_device_data E device_id data_dict w)))
               = executed (journal w)).
Proof.
  intros E device_id data_dict w.
  destruct (insert_frame E device_id data_dict) as (stored & tail & Hr & _ & _ & _ & Hx & Hs).
  exists stored. rewrite Hr. cbn [fst snd stats journal].
  split; [reflexivity|]. split; [reflexivity|]. split; [exact Hs|].
  intros e He. rewrite He in Hx. rewrite executed_app. cbn [executed]. rewrite Hx.
  now rewrite app_nil_r.
Qed.

(** ** Frames: what each step adds to the journal *)

(** [handle_alarm] adds at most the console line and the warning, and
    nothing that the sink sees. *)
Lemma handle_alarm_frame E cfg device_id data_dict :
  exists (r : Result unit) (out : list event),
    (forall w, handle_alarm E cfg device_id data_dict w
               = (r, {| stats := stats w; journal := journal w ++ out |})) /\
    saved out = [] /\ inserts out = [] /\ executed out = [].
Proof.
  unfold handle_alarm.
  destruct (negb (truthy (dict_get_default (lit "enable_device_alarm") (PBool true) cfg))).
  { exists (Ok tt), []. split; [|auto]. intros [s j]. unfold ret. cbn.
    now rewrite app_nil_r. }
  unfold bind, lift, ret, emit.
  destruct (str_in device_id _) as [[|]|e].
  - exists (Ok tt), []. split; [|auto]. intros [s j]. cbn. now rewrite app_nil_r.
  - destruct (negb (truthy (dict_get_default (lit "silent_mode") (PBool true) cfg))).
    + destruct (console E device_id) as [[]|e].
      * exists (Ok tt), [ConsoleLine device_id; Log (AlarmTriggered device_id)].
        split; [|auto]. intros w. cbn. now rewrite <- app_assoc.
      * exists (Raise e), []. split; [|auto]. intros [s j]. cbn. now rewrite app_nil_r.
    + exists (Ok tt), [Log (AlarmTriggered device_id)]. split; [|auto]. intros w. reflexivity.
  - exists (Raise e), []. split; [|auto]. intros [s j]. cbn. now rewrite app_nil_r.
Qed.

(** [handle_alarm] asks the surroundings for the console only. *)
Lemma handle_alarm_console E E' cfg device_id data_dict w :
  console E = console E' ->
  handle_alarm E cfg device_id data_dict w = handle_alarm E' cfg device_id data_dict w.
Proof. intros H. unfold handle_alarm. now rewrite H. Qed.

(** [parse_data] always answers, and adds at most the record of the
    exception it caught. *)
Lemma parse_data_frame R payload :
  exists (v : pyval) (out : list event),
    (forall w, parse_data R payload w
               = (Ok v, {| stats := stats w; journal := journal w ++ out |})) /\
    (out = [] \/ exists e, out = [Log (ParseError e)]).
Proof.
  unfold parse_data, try_except, lift, bind, emit, ret.
  destruct (parse_body R payload) as [v|e].
  - exists v, []. split; [|auto]. intros [s j]. cbn. now rewrite app_nil_r.
  - exists PNone, [Log (ParseError e)]. split; [|eauto]. intros w. reflexivity.
Qed.

(** The way of an accepted payload through [handle_message]. *)
Lemma handle_message_accepted_run R E cfg msg w topic payload device_id d :
  utf8_decode (raw_topic msg) = Ok topic ->
  utf8_decode (raw_payload msg) = Ok payload ->
  extract_device_id topic = Some device_id ->
  parse_body R payload = Ok (PDict d) ->
  d <> [] ->
  handle_message R E cfg msg w
  = let dd := dict_set (lit "timestamp") (PDatetime (now_stamp E)) d in
    match MySQLDataManager.insert_device_data E device_id dd
            {| stats := arrived E (stats w);
               journal := journal w ++ [Log (MessageReceived topic payload)] |} with
    | (Ok stored, w2) =>
        let w3 := if stored
                  then {| stats := incr_processed (stats w2);
                          journal := journal w2 ++ [Log (DataStored device_id)] |}
                  else {| stats := incr_errors (stats w2);
                          journal := journal w2 ++ [Log (StoreFailed device_id)] |} in
        if eq_one (dict_get_default (lit "is_alarm") PNone dd)
        then match handle_alarm E cfg device_id dd w3 with
             | (Ok _, w4) => (Ok tt, w4)
             | (Raise e, w4) =>
                 (Ok tt, {| stats := incr_errors (stats w4);
                            journal := journal w4 ++ [Log (HandleFailed e)] |})
             end
        else (Ok tt, w3)
    | (Raise e, w2) =>
        (Ok tt, {| stats := incr_errors (stats w2);
                   journal := journal w2 ++ [Log (HandleFailed e)] |})
    end.
Proof.
  intros Ht Hp Hd Hb Hne. unfold handle_message, try_except, handle_message_body.
  unfold bind, update_stats, lift, emit; simpl.
  rewrite Ht, Hp, Hd.
  destruct device_id as [|c id]; [now apply extract_device_id_nonempty in Hd|].
  unfold parse_data, try_except, lift. rewrite Hb.
  destruct d as [|kv d]; [contradiction|]. cbn [truthy negb set_timestamp].
  set (dd := dict_set (lit "timestamp") (PDatetime (now_stamp E)) (kv :: d)).
  unfold arrived.
  destruct (MySQLDataManager.insert_device_data E (c :: id) dd _) as [[[|]|e] w2];
    cbn [stats journal]; try reflexivity.
  - destruct (eq_one _); [|reflexivity].
    destruct (handle_alarm E cfg (c :: id) dd _) as [[[]|e] w4]; reflexivity.
  - destruct (eq_one _); [|reflexivity].
    destruct (handle_alarm E cfg (c :: id) dd _) as [[[]|e] w4]; reflexivity.
Qed.

(** X8. When the statement has been executed and closing the cursor then
    fails, [insert_device_data] answers [False]: the row was given to the
    database, and [handle_message] logs a failed store, leaves
    [total_processed] alone and counts an error. *)
Theorem late_failure_counts_a_written_row_as_an_error :
  forall (R : Runtime) (E : Env) (alarm_config : dict) (msg : MQTTMessage) (w : World)
         (topic payload device_id : str) (d : dict) (e : exn),
    utf8_decode (raw_topic msg) = Ok topic ->
    utf8_decode (raw_payload msg) = Ok payload ->
    extract_device_id topic = Some device_id ->
    parse_body R payload = Ok (PDict d) ->
    d <> [] ->
    db_cursor E = Ok tt ->
    db_execute E (MySQLDataManager.row E device_id
                    (dict_set (lit "timestamp") (PDatetime (now_stamp E)) d)) = Ok tt ->
    db_close E = Raise e ->
    let w' := snd (handle_message R E alarm_config msg w) in
    executed (journal w')
    = executed (journal w)
        ++ [MySQLDataManager.row E device_id
              (dict_set (lit "timestamp") (PDatetime (now_stamp E)) d)] /\
    saved (journal w') = saved (journal w) /\
    In (Log (StoreFailed device_id)) (journal w') /\
    total_processed (stats w') = total_processed (stats w) /\
    total_errors (stats w) + 1 <= total_errors (stats w').
Proof.
  intros R E cfg msg w topic payload device_id d e Ht Hp Hd Hb Hne Hc Hx Hl.
  rewrite (@handle_message_accepted_run R E cfg msg w topic payload device_id d Ht Hp Hd Hb Hne).
  cbv zeta. rewrite insert_run. cbv zeta. rewrite Hc, Hx, Hl.
  set (dd := dict_set (lit "timestamp") (PDatetime (now_stamp E)) d).
  destruct (handle_alarm_frame E cfg device_id dd) as (r & out & Ha & Hs & Hi & He).
  destruct (eq_one _).
  - rewrite Ha. destruct r as [[]|e']; cbn [snd stats journal];
      rewrite !executed_app, !saved_app, !in_app_iff, ?Hs, ?He; cbn;
      rewrite ?app_nil_r; repeat apply conj; auto 10; lia.
  - cbn [snd stats journal].
    rewrite !executed_app, !saved_app, !in_app_iff; cbn;
      rewrite ?app_nil_r; repeat apply conj; auto 10; lia.
Qed.

Lemma late_failure_counts_a_written_row_as_an_error_witness :
  let w' := snd (handle_message basic_latin (late_failure 9) ALARM_CONFIG partial_msg (fresh 0)) in
  List.length (executed (journal w')) = 1%nat /\
  saved (journal w') = [] /\
  total_processed (stats w') = 0 /\
  1 <= total_errors (stats w').
Proof.
  pose proof (@late_failure_counts_a_written_row_as_an_error basic_latin (late_failure 9)
                ALARM_CONFIG partial_msg (fresh 0) (lit "sleep_blanket/SB042/data")
                (lit "RAW:N/A, RMS:abc, TH:20.5, MOVE:7") (lit "SB042") _ DatabaseError
                eq_refl eq_refl eq_refl eq_refl) as H.
  cbv zeta in *. destruct H as (Hx & Hs & _ & Hp & He);
    [discriminate|reflexivity|reflexivity|reflexivity|].
  repeat apply conj.
  - rewrite Hx. reflexivity.
  - exact Hs.
  - exact Hp.
  - exact He.
Defined.

(** ** The counters and the journal *)

(** One message: [total_processed] moves with the rows reported as saved,
    [start_time] stays, and [last_message_time] is the arrival. *)
Lemma handle_message_saved R E cfg msg w :
  let w' := snd (handle_message R E cfg msg w) in
  total_processed (stats w') - total_processed (stats w)
  = Z.of_nat (List.length (saved (journal w'))) - Z.of_nat (List.length (saved (journal w))) /\
  start_time (stats w') = start_time (stats w) /\
  last_message_time (stats w') = Some (now_arrival E).
Proof.
  unfold handle_message, try_except, handle_message_body.
  unfold bind, update_stats, lift, emit; simpl.
  destruct (utf8_decode (raw_topic msg)) as [topic|e1]; simpl;
    [|rewrite saved_app; simpl; rewrite app_nil_r; repeat apply conj; auto; lia].
  destruct (utf8_decode (raw_payload msg)) as [payload|e2]; simpl;
    [|rewrite saved_app; simpl; rewrite app_nil_r; repeat apply conj; auto; lia].
  assert (Hnd : forall r : record,
             (forall x, r <> RowSaved x) ->
             saved ((journal w ++ [Log (MessageReceived topic payload)]) ++ [Log r])
             = saved (journal w)).
  { intros r Hr. rewrite !saved_app. simpl. destruct r; rewrite ?app_nil_r; auto.
    now destruct (Hr device_id). }
  destruct (extract_device_id topic) as [[|c id]|]; simpl;
    try (rewrite Hnd by discriminate; repeat apply conj; auto; lia).
  destruct (parse_data_frame R payload) as (v & pout & Hp & Hpo). rewrite Hp.
  assert (Hps : saved pout = []) by (destruct Hpo as [->|[e ->]]; reflexivity).
  destruct (truthy v); cbn [negb].
  2:{ cbn [snd stats journal total_processed start_time last_message_time].
      rewrite !saved_app, Hps. simpl. rewrite !app_nil_r. repeat apply conj; auto; lia. }
  destruct (set_timestamp (now_stamp E) v) as [dd|e3]; cbn [snd stats journal].
  2:{ cbn. rewrite !saved_app, Hps. simpl. rewrite !app_nil_r. repeat apply conj; auto; lia. }
  destruct (insert_frame E (c :: id) dd) as (stored & tail & Hi & Hts & _).
  rewrite Hi. cbn [stats journal].
  destruct (handle_alarm_frame E cfg (c :: id) dd) as (r & out & Ha & Hos & _).
  destruct stored; cbn [stats journal];
    (destruct (eq_one _);
     [rewrite Ha; destruct r as [[]|e4]|];
     unfold ret, set_last_message_time, incr_received, incr_processed, incr_errors;
     cbn [snd stats journal total_processed start_time last_message_time];
     rewrite !saved_app; cbn [saved app];
     rewrite ?Hps, ?Hts, ?Hos, ?app_nil_r, ?length_app; cbn [List.length];
     repeat apply conj; auto; lia).
Qed.

(** X9. [total_processed] counts the rows that [insert_device_data]
    reported as saved: after any sequence of messages, delivered to a
    receiver that has just been set up, the counter is the number of
    [RowSaved] records, and [start_time] is still the time of the set-up. *)
Theorem processed_counts_the_saved_rows :
  forall (R : Runtime) (alarm_config : dict) (msgs : list (Env * MQTTMessage)) (started : Z),
    let w := snd (deliver R alarm_config msgs (fresh started)) in
    total_processed (stats w) = Z.of_nat (List.length (saved (journal w))) /\
    start_time (stats w) = started.
Proof.
  intros R cfg msgs started.
  assert (G : forall w0,
             let w := snd (deliver R cfg msgs w0) in
             total_processed (stats w) - total_processed (stats w0)
             = Z.of_nat (List.length (saved (journal w)))
               - Z.of_nat (List.length (saved (journal w0))) /\
             start_time (stats w) = start_time (stats w0)).
  { induction msgs as [|[E m] msgs IH]; intros w0; cbn [deliver snd].
    - split; [lia|reflexivity].
    - destruct (handle_message_returns R E cfg m w0) as (w1 & H1).
      pose proof (handle_message_saved R E cfg m w0) as (S1 & S2 & _).
      rewrite H1 in *. cbn [snd] in S1, S2.
      destruct (IH w1) as (I1 & I2). split; [lia|congruence]. }
  destruct (G (fresh started)) as (G1 & G2). cbn in G1, G2. cbv zeta. split; [lia|exact G2].
Qed.

(** X10. Every message, whatever becomes of it, leaves the time of its
    arrival in [last_message_time]: also one whose bytes cannot be
    decoded, whose topic names no device or whose payload is refused. *)
Theorem every_message_is_time_stamped :
  forall (R : Runtime) (E : Env) (alarm_config : dict) (msg : MQTTMessage) (w : World),
    last_message_time (stats (snd (handle_message R E alarm_config msg w)))
    = Some (now_arrival E).
Proof.
  intros R E cfg msg w. exact (proj2 (proj2 (handle_message_saved R E cfg msg w))).
Qed.

(** ** Alarms inside [handle_message] *)

(** X11. A message of a device whose alarm is held back (the device alarm
    is switched off, or the device is listed in [ignored_devices]) is
    handed to the sink like any other; only the alarm is left out, whatever
    [is_alarm] says. *)
Theorem held_back_alarm_is_still_stored :
  forall (R : Runtime) (E : Env) (alarm_config : dict) (msg : MQTTMessage) (w : World)
         (topic payload device_id : str) (d : dict) (ignored : list pyval),
    utf8_decode (raw_topic msg) = Ok topic ->
    utf8_decode (raw_payload msg) = Ok payload ->
    extract_device_id topic = Some device_id ->
    parse_body R payload = Ok (PDict d) ->
    d <> [] ->
    truthy (dict_get_default (lit "enable_device_alarm") (PBool true) alarm_config) = false \/
    (dict_get_default (lit "ignored_devices") (PList []) alarm_config = PList ignored /\
     existsb (fun v => eq_str v device_id) ignored = true) ->
    let w' := snd (handle_message R E alarm_config msg w) in
    alarms (journal w') = alarms (journal w) /\
    inserts (journal w')
    = inserts (journal w)
        ++ [(device_id, dict_set (lit "timestamp") (PDatetime (now_stamp E)) d)] /\
    total_processed (stats w') + total_errors (stats w')
    = total_processed (stats w) + total_errors (stats w) + 1.
Proof.
  intros R E cfg msg w topic payload device_id d ignored Ht Hp Hd Hb Hne Hh.
  rewrite (@handle_message_accepted_run R E cfg msg w topic payload device_id d Ht Hp Hd Hb Hne).
  cbv zeta.
  set (dd := dict_set (lit "timestamp") (PDatetime (now_stamp E)) d).
  destruct (insert_frame E device_id dd) as (stored & tail & Hi & _ & Hta & Hti & _).
  rewrite Hi.
  assert (Ha : forall w3, handle_alarm E cfg device_id dd w3 = (Ok tt, w3)).
  { intros w3. unfold handle_alarm. destruct Hh as [Hh|[Hl Hh]].
    - now rewrite Hh.
    - destruct (negb _); [reflexivity|].
      unfold bind, lift, str_in. rewrite Hl, Hh. reflexivity. }
  destruct stored; (destruct (eq_one _); [rewrite Ha|]);
    unfold arrived, set_last_message_time, incr_received, incr_processed, incr_errors;
    cbn [snd stats journal total_processed total_errors];
    rewrite !alarms_app, !inserts_app; cbn [alarms inserts app];
    rewrite ?Hta, ?Hti, ?app_nil_r; repeat apply conj; auto; lia.
Qed.

Lemma held_back_alarm_is_still_stored_witness :
  let w' := snd (handle_message basic_latin (quiet_env 9) ALARM_CONFIG
                   (text_msg "sleep_blanket/SB067/data" "RAW:3000, ALARM:1") (fresh 0)) in
  alarms (journal w') = [] /\
  inserts (journal w')
  = [(lit "SB067", [(lit "raw_value", PInt 3000); (lit "is_alarm", PInt 1);
                   (lit "timestamp", PDatetime 9)])] /\
  total_processed (stats w') + total_errors (stats w') = 1.
Proof.
  exact (@held_back_alarm_is_still_stored basic_latin (quiet_env 9) ALARM_CONFIG
           (text_msg "sleep_blanket/SB067/data" "RAW:3000, ALARM:1") (fresh 0)
           (lit "sleep_blanket/SB067/data") (lit "RAW:3000, ALARM:1") (lit "SB067")
           [(lit "raw_value", PInt 3000); (lit "is_alarm", PInt 1)]
           [PStr (lit "SB067")]
           eq_refl eq_refl eq_refl eq_refl
           (fun H => match H in _ = l return match l with [] => False | _ => True end
                     with eq_refl => I end)
           (or_intror (conj eq_refl eq_refl))).
Defined.

(** X12. With [silent_mode] off, when [print] raises on the alarm line,
    the warning that follows it is never logged: the message has gone to
    the sink, no alarm is on record, the exception is logged by
    [handle_message], and the two counters together move by two for this
    one message. *)
Theorem failed_print_loses_the_alarm_warning :
  forall (R : Runtime) (E : Env) (alarm_config : dict) (msg : MQTTMessage) (w : World)
         (topic payload device_id : str) (d : dict) (ignored : list pyval) (e : exn),
    utf8_decode (raw_topic msg) = Ok topic ->
    utf8_decode (raw_payload msg) = Ok payload ->
    extract_device_id topic = Some device_id ->
    parse_body R payload = Ok (PDict d) ->
    d <> [] ->
    eq_one (dict_get_default (lit "is_alarm") PNone d) = true ->
    truthy (dict_get_default (lit "enable_device_alarm") (PBool true) alarm_config) = true ->
    dict_get_default (lit "ignored_devices") (PList []) alarm_config = PList ignored ->
    existsb (fun v => eq_str v device_id) ignored = false ->
    truthy (dict_get_default (lit "silent_mode") (PBool true) alarm_config) = false ->
    console E device_id = Raise e ->
    let w' := snd (handle_message R E alarm_config msg w) in
    alarms (journal w') = alarms (journal w) /\
    (exists j, journal w' = j ++ [Log (HandleFailed e)]) /\
    inserts (journal w')
    = inserts (journal w)
        ++ [(device_id, dict_set (lit "timestamp") (PDatetime (now_stamp E)) d)] /\
    total_processed (stats w') + total_errors (stats w')
    = total_processed (stats w) + total_errors (stats w) + 2.
Proof.
  intros R E cfg msg w topic payload device_id d ignored e
         Ht Hp Hd Hb Hne Hal Hen Hl Hig Hsi Hc.
  rewrite (@handle_message_accepted_run R E cfg msg w topic payload device_id d Ht Hp Hd Hb Hne).
  cbv zeta.
  set (dd := dict_set (lit "timestamp") (PDatetime (now_stamp E)) d).
  assert (Hal' : eq_one (dict_get_default (lit "is_alarm") PNone dd) = true).
  { unfold dd. rewrite dict_get_default_set. eval_keys. exact Hal. }
  rewrite Hal'.
  destruct (insert_frame E device_id dd) as (stored & tail & Hi & _ & Hta & Hti & _).
  rewrite Hi.
  assert (Ha : forall w3, handle_alarm E cfg device_id dd w3 = (Raise e, w3)).
  { intros w3. unfold handle_alarm. rewrite Hen. cbn [negb].
    unfold bind, lift, str_in. rewrite Hl, Hig, Hsi. cbn [negb]. rewrite Hc. reflexivity. }
  rewrite Ha.
  destruct stored;
    unfold arrived, set_last_message_time, incr_received, incr_processed, incr_errors;
    cbn [snd stats journal total_processed total_errors];
    rewrite !alarms_app, !inserts_app; cbn [alarms inserts app];
    rewrite ?Hta, ?Hti, ?app_nil_r; repeat apply conj; eauto; lia.
Qed.

Lemma failed_print_loses_the_alarm_warning_witness :
  let w' := snd (handle_message basic_latin (broken_console 9) loud_config
                   (text_msg "sleep_blanket/SB042/data" "RAW:3000, ALARM:1") (fresh 0)) in
  alarms (journal w') = [] /\
  List.length (inserts (journal w')) = 1%nat /\
  total_processed (stats w') + total_errors (stats w') = 2.
Proof.
  pose proof (@failed_print_loses_the_alarm_warning basic_latin (broken_console 9) loud_config
           (text_msg "sleep_blanket/SB042/data" "RAW:3000, ALARM:1") (fresh 0)
           (lit "sleep_blanket/SB042/data") (lit "RAW:3000, ALARM:1") (lit "SB042")
           [(lit "raw_value", PInt 3000); (lit "is_alarm", PInt 1)]
           [PStr (lit "SB067")] OSError
           eq_refl eq_refl eq_refl eq_refl
           (fun H => match H in _ = l return match l with [] => False | _ => True end
                     with eq_refl => I end)
           eq_refl eq_refl eq_refl eq_refl eq_refl eq_refl) as H.
  cbv zeta in *. destruct H as (H1 & _ & H3 & H4).
  repeat apply conj; [exact H1|rewrite H3; reflexivity|exact H4].
Defined.

(** X13. Whether a message raises an alarm does not depend on the
    database: two runs that differ only in what the connection answers
    put the same alarms on record. *)
Theorem alarms_do_not_depend_on_storage :
  forall (R : Runtime) (E E' : Env) (alarm_config : dict) (msg : MQTTMessage) (w : World),
    now_arrival E = now_arrival E' ->
    now_stamp E = now_stamp E' ->
    console E = console E' ->
    alarms (journal (snd (handle_message R E alarm_config msg w)))
    = alarms (journal (snd (handle_message R E' alarm_config msg w))).
Proof.
  intros R E E' cfg msg w Hna Hns Hco.
  unfold handle_message, try_except, handle_message_body.
  unfold bind, update_stats, lift, emit; simpl.
  rewrite <- Hna, <- Hns.
  destruct (utf8_decode (raw_topic msg)) as [topic|e1]; simpl; [|reflexivity].
  destruct (utf8_decode (raw_payload msg)) as [payload|e2]; simpl; [|reflexivity].
  destruct (extract_device_id topic) as [[|c id]|]; simpl; try reflexivity.
  destruct (parse_data_frame R payload) as (v & pout & Hp & Hpo). rewrite !Hp.
  destruct (truthy v); cbn [negb]; [|reflexivity].
  destruct (set_timestamp (now_stamp E) v) as [dd|e3]; cbn [snd stats journal];
    [|reflexivity].
  destruct (insert_frame E (c :: id) dd) as (s1 & t1 & H1 & _ & A1 & _).
  destruct (insert_frame E' (c :: id) dd) as (s2 & t2 & H2 & _ & A2 & _).
  rewrite H1, H2. cbn [stats journal].
  destruct (handle_alarm_frame E cfg (c :: id) dd) as (r & out & Ha & _).
  assert (Ha' : forall w3, handle_alarm E' cfg (c :: id) dd w3
                           = (r, {| stats := stats w3; journal := journal w3 ++ out |})).
  { intros w3. rewrite <- (@handle_alarm_console E E' cfg (c :: id) dd w3 Hco). apply Ha. }
  destruct s1, s2; cbn [stats journal];
    (destruct (eq_one _); [rewrite Ha, Ha'; destruct r as [[]|e4]|]; unfold ret;
     cbn [snd stats journal];
     rewrite !alarms_app; cbn [alarms app]; rewrite ?A1, ?A2, ?app_nil_r; reflexivity).
Qed.

Lemma alarms_do_not_depend_on_storage_witness :
  alarms (journal (snd (handle_message basic_latin (quiet_env 9) permissive_config
                          alarm_msg (fresh 0))))
  = alarms (journal (snd (handle_message basic_latin (no_cursor 9) permissive_config
                            alarm_msg (fresh 0)))) /\
  alarms (journal (snd (handle_message basic_latin (no_cursor 9) permissive_config
                          alarm_msg (fresh 0))))
  = [lit "SB042"].
Proof.
  split; [|reflexivity].
  exact (@alarms_do_not_depend_on_storage basic_latin (quiet_env 9) (no_cursor 9)
           permissive_config alarm_msg (fresh 0) eq_refl eq_refl eq_refl).
Defined.

(** ** The demo sender and the receiver *)

Lemma digits_value_app R (s t : str) : forall a,
  digits_value R a (s ++ t)
  = match digits_value R a s with
    | Some v => digits_value R v t
    | None => None
    end.
Proof.
  induction s as [|c s IH]; intros a; simpl; [reflexivity|].
  destruct (decimal_char R c); [apply IH|reflexivity].
Qed.

Lemma decimal_char_digit R (c : codepoint) :
  is_digit c -> decimal_char R c = Some (c - 48)%N.
Proof.
  intros [H1 H2]. unfold decimal_char, is_ascii.
  replace (c <? 128)%N with true by (symmetry; apply N.ltb_lt; lia).
  replace (48 <=? c)%N with true by (symmetry; apply N.leb_le; lia).
  replace (c <=? 57)%N with true by (symmetry; apply N.leb_le; lia).
  reflexivity.
Qed.

Lemma isdigit_char_digit R (c : codepoint) : is_digit c -> isdigit_char R c = true.
Proof.
  intros [H1 H2]. unfold isdigit_char, is_ascii.
  replace (c <? 128)%N with true by (symmetry; apply N.ltb_lt; lia).
  replace (48 <=? c)%N with true by (symmetry; apply N.leb_le; lia).
  replace (c <=? 57)%N with true by (symmetry; apply N.leb_le; lia).
  reflexivity.
Qed.

Lemma digit_of (d : Z) : 0 <= d <= 9 -> is_digit (Z.to_N (48 + d)).
Proof. unfold is_digit. lia. Qed.

Lemma digits_value_digit R (a d : Z) :
  0 <= d <= 9 -> digits_value R a [Z.to_N (48 + d)] = Some (10 * a + d).
Proof.
  intros H. cbn [digits_value]. rewrite decimal_char_digit by now apply digit_of.
  f_equal. lia.
Qed.

(** What [digits_go] writes in front of [acc], given fuel enough. *)
Lemma digits_go_spec R (fuel : nat) : forall n acc,
  0 <= n < 10 ^ Z.of_nat fuel -> (0 < fuel)%nat ->
  exists s, digits_go fuel n acc = s ++ acc /\ s <> [] /\ Forall is_digit s /\
            (List.length s <= fuel)%nat /\
            forall a, digits_value R a s = Some (a * 10 ^ Z.of_nat (List.length s) + n).
Proof.
  induction fuel as [|f IH]; intros n acc Hn Hf; [lia|].
  cbn [digits_go]. cbv zeta.
  assert (Hd : 0 <= n mod 10 <= 9) by (pose proof (Z.mod_pos_bound n 10); lia).
  destruct (n <? 10) eqn:E.
  - apply Z.ltb_lt in E. exists [Z.to_N (48 + n mod 10)].
    repeat apply conj; try reflexivity; try discriminate.
    + constructor; [now apply digit_of|constructor].
    + cbn. lia.
    + intros a. rewrite digits_value_digit by exact Hd. f_equal.
      rewrite Z.mod_small by lia. cbn [List.length]. change (10 ^ Z.of_nat 1) with 10. lia.
  - apply Z.ltb_ge in E.
    assert (Hf' : (0 < f)%nat).
    { destruct f; [|lia]. change (10 ^ Z.of_nat 1) with 10 in Hn. lia. }
    assert (Hq : 0 <= n / 10 < 10 ^ Z.of_nat f).
    { split; [apply Z.div_pos; lia|].
      apply Z.div_lt_upper_bound; [lia|].
      rewrite Nat2Z.inj_succ, Z.pow_succ_r in Hn by lia. lia. }
    destruct (IH (n / 10) (Z.to_N (48 + n mod 10) :: acc) Hq Hf')
      as (s & Hs & Hne & Hds & Hl & Hv).
    exists (s ++ [Z.to_N (48 + n mod 10)]). repeat apply conj.
    + rewrite Hs, <- app_assoc. reflexivity.
    + destruct s; discriminate.
    + apply Forall_app. split; [exact Hds|]. constructor; [now apply digit_of|constructor].
    + rewrite length_app. cbn. lia.
    + intros a. rewrite digits_value_app, Hv, digits_value_digit by exact Hd. f_equal.
      rewrite length_app. cbn [List.length].
      rewrite Nat2Z.inj_add, Z.pow_add_r by lia. change (10 ^ Z.of_nat 1) with 10.
      pose proof (Z.div_mod n 10). lia.
Qed.

(** [digits n] is the decimal numeral of [n]. *)
Lemma digits_spec R (n : Z) :
  0 <= n ->
  digits n <> [] /\ Forall is_digit (digits n) /\
  (List.length (digits n) <= S (Z.to_nat (Z.log2 n)))%nat /\
  forall a, digits_value R a (digits n)
            = Some (a * 10 ^ Z.of_nat (List.length (digits n)) + n).
Proof.
  intros Hn. unfold digits.
  destruct (@digits_go_spec R (S (Z.to_nat (Z.log2 n))) n []) as (s & Hs & Hne & Hd & Hl & Hv).
  - split; [exact Hn|].
    rewrite Nat2Z.inj_succ, Z2Nat.id by apply Z.log2_nonneg.
    destruct (Z.eq_dec n 0) as [->|Hz]; [reflexivity|].
    apply Z.lt_le_trans with (2 ^ Z.succ (Z.log2 n)).
    + apply Z.log2_spec. lia.
    + apply Z.pow_le_mono_l. lia.
  - lia.
  - rewrite Hs, app_nil_r. auto.
Qed.

Lemma forallb_digits R (s : str) : Forall is_digit s -> forallb (isdigit_char R) s = true.
Proof.
  induction 1 as [|c s Hc _ IH]; simpl; [reflexivity|].
  now rewrite isdigit_char_digit, IH.
Qed.

Lemma isdigit_digits R (s : str) : s <> [] -> Forall is_digit s -> isdigit R s = true.
Proof.
  intros Hne Hd. destruct s as [|c s]; [contradiction|].
  unfold isdigit. now apply forallb_digits.
Qed.

(** [int] reads back what [str] wrote. *)
Lemma int_or_digits R (dflt : pyval) (n : Z) :
  0 <= n < 2 ^ 600 -> int_or R dflt (digits n) = Ok (PInt n).
Proof.
  intros Hn. destruct (@digits_spec R n) as (Hne & Hd & Hl & Hv); [lia|].
  unfold int_or. rewrite isdigit_digits by assumption.
  unfold py_int. destruct (digits n) as [|c s] eqn:E; [contradiction|].
  rewrite Hv. unfold over_digit_limit.
  replace (640 <? N.of_nat (List.length (c :: s)))%N with false.
  - cbn [andb rbind]. do 2 f_equal; lia.
  - symmetry. apply N.ltb_ge.
    assert (Z.log2 n < 600).
    { destruct (Z.eq_dec n 0) as [->|Hz]; [reflexivity|].
      apply Z.log2_lt_pow2; lia. }
    pose proof (Z.log2_nonneg n). lia.
Qed.

Lemma lstrip_id (s : str) : Forall (fun c => isspace_char c = false) s -> lstrip s = s.
Proof. destruct 1 as [|c s Hc _]; [reflexivity|]. cbn [lstrip]. now rewrite Hc. Qed.

Lemma strip_id (s : str) : Forall (fun c => isspace_char c = false) s -> strip s = s.
Proof.
  intros H. unfold strip, rstrip. rewrite (@lstrip_id s H).
  rewrite lstrip_id; [apply rev_involutive|].
  apply Forall_forall. intros x Hx. apply in_rev in Hx.
  revert x Hx. now apply Forall_forall.
Qed.

(** Digits and the dot are no white space. *)
Lemma numeric_no_space (s : str) :
  Forall (fun c => is_digit c \/ c = 46%N) s -> Forall (fun c => isspace_char c = false) s.
Proof.
  apply Forall_impl. intros c [[H1 H2]| ->]; [|reflexivity].
  unfold isspace_char.
  repeat match goal with
         | |- context [(?a <=? ?b)%N] =>
             let b' := fresh in destruct (N.leb_spec a b); try lia
         | |- context [(?a =? ?b)%N] =>
             let b' := fresh in destruct (N.eqb_spec a b); try lia
         end; reflexivity.
Qed.

Lemma digits_numeric (s : str) :
  Forall is_digit s -> Forall (fun c => is_digit c \/ c = 46%N) s.
Proof. apply Forall_impl. auto. Qed.

Lemma digits_lack (x : codepoint) (s : str) :
  (x < 48 \/ 57 < x)%N -> Forall is_digit s -> ~ In x s.
Proof.
  intros Hx Hd Hi. rewrite Forall_forall in Hd. destruct (Hd x Hi). lia.
Qed.

(** A numeral is not the text [N/A]. *)
Lemma numeric_not_na (s : str) :
  Forall (fun c => is_digit c \/ c = 46%N) s -> str_eqb s (lit "N/A") = false.
Proof.
  destruct 1 as [|c s Hc _]; [reflexivity|].
  change (lit "N/A") with (78%N :: lit "/A"). cbn [str_eqb].
  replace (c =? 78)%N with false; [reflexivity|].
  symmetry. apply N.eqb_neq. destruct Hc as [[H1 H2]| ->]; lia.
Qed.

(** *** Cutting at a separator *)

Lemma split_go_skip (sep p rest cur : str) :
  rest <> [] \/ p = [] ->
  split_go sep (List.length p) cur (p ++ rest) = split_go sep 0%nat cur rest.
Proof.
  induction p as [|c p IH]; intros H; [reflexivity|].
  destruct H as [H|H]; [|discriminate]. cbn [List.length app split_go]. auto.
Qed.

(** A text without the first character of the separator is not cut. *)
Lemma split_go_none (c0 : codepoint) (sep' s : str) : forall cur,
  ~ In c0 s -> split_go (c0 :: sep') 0%nat cur s = [rev cur ++ s].
Proof.
  induction s as [|x s IH]; intros cur Hn.
  - cbn. now rewrite app_nil_r.
  - cbn [split_go startswith].
    replace (c0 =? x)%N with false
      by (symmetry; apply N.eqb_neq; intros ->; apply Hn; now left).
    cbn [andb]. rewrite IH by (intros Hi; apply Hn; now right).
    cbn [rev]. now rewrite <- app_assoc.
Qed.

(** The first cut is at the first occurrence of the separator. *)
Lemma split_go_first (c0 : codepoint) (sep' a rest : str) : forall cur,
  ~ In c0 a -> rest <> [] ->
  split_go (c0 :: sep') 0%nat cur (a ++ (c0 :: sep') ++ rest)
  = (rev cur ++ a) :: split_go (c0 :: sep') 0%nat [] rest.
Proof.
  induction a as [|x a IH]; intros cur Hn Hr.
  - cbn [app]. cbn [split_go].
    change (c0 :: sep' ++ rest) with ((c0 :: sep') ++ rest).
    rewrite startswith_app. rewrite app_nil_r. f_equal.
    cbn [List.length Nat.pred]. apply split_go_skip. now left.
  - cbn [app]. cbn [split_go startswith].
    replace (c0 =? x)%N with false
      by (symmetry; apply N.eqb_neq; intros ->; apply Hn; now left).
    cbn [andb]. rewrite IH by (auto; intros Hi; apply Hn; now right).
    cbn [rev]. now rewrite <- app_assoc.
Qed.

Lemma split_first (c0 : codepoint) (sep' a rest : str) :
  ~ In c0 a -> rest <> [] ->
  split (c0 :: sep') (a ++ (c0 :: sep') ++ rest) = a :: split (c0 :: sep') rest.
Proof. intros Hn Hr. unfold split. now rewrite split_go_first. Qed.

Lemma split_none (c0 : codepoint) (sep' s : str) :
  ~ In c0 s -> split (c0 :: sep') s = [s].
Proof. intros Hn. unfold split. now rewrite split_go_none. Qed.

Lemma split_once_go_first (c : codepoint) (key value : str) : forall cur,
  ~ In c key -> split_once_go c cur (key ++ c :: value) = [rev cur ++ key; value].
Proof.
  induction key as [|x key IH]; intros cur Hn.
  - cbn. now rewrite N.eqb_refl, app_nil_r.
  - cbn [app split_once_go].
    replace (x =? c)%N with false
      by (symmetry; apply N.eqb_neq; intros ->; apply Hn; now left).
    rewrite IH by (intros Hi; apply Hn; now right).
    cbn [rev]. now rewrite <- app_assoc.
Qed.

Lemma split_once_first (c : codepoint) (key value : str) :
  ~ In c key -> split_once c (key ++ c :: value) = [key; value].
Proof. intros Hn. unfold split_once. now rewrite split_once_go_first. Qed.

Lemma contains_colon (key value : str) : contains (lit ":") (key ++ 58%N :: value) = true.
Proof.
  change (lit ":") with [58%N]. rewrite contains_char, existsb_app. cbn.
  apply orb_true_r.
Qed.

(** *** Reading a numeral back *)

Lemma hundredths_nonneg (x : spec_float) : 0 <= hundredths x.
Proof.
  destruct x as [s|s| |s m e]; cbn [hundredths]; try lia.
  destruct (0 <=? e) eqn:E.
  - apply Z.leb_le in E. pose proof (Z.pow_nonneg 2 e). nia.
  - apply Z.leb_gt in E. unfold round_half_even. cbv zeta.
    assert (0 <= Z.pos m * 100 / 2 ^ (- e))
      by (apply Z.div_pos; [lia|apply Z.pow_pos_nonneg; lia]).
    destruct (_ || _); lia.
Qed.

Lemma format_2f_nonneg (x : spec_float) :
  nonneg_finite x = true ->
  format_2f x
  = digits (hundredths x / 100)
      ++ 46%N :: [Z.to_N (48 + (hundredths x mod 100) / 10);
                  Z.to_N (48 + (hundredths x mod 100) mod 10)].
Proof. destruct x as [[]|[]| |[] m e]; try discriminate; reflexivity. Qed.

Lemma remove_char_digits (s : str) : Forall is_digit s -> remove_char 46%N s = s.
Proof.
  induction 1 as [|c s [H1 H2] _ IH]; [reflexivity|].
  unfold remove_char in *. cbn [filter].
  replace (c =? 46)%N with false by (symmetry; apply N.eqb_neq; lia).
  cbn [negb]. now rewrite IH.
Qed.

Lemma two_digits (r : Z) :
  0 <= r < 100 ->
  Forall is_digit [Z.to_N (48 + r / 10); Z.to_N (48 + r mod 10)].
Proof.
  intros Hr.
  assert (0 <= r / 10 <= 9)
    by (split; [apply Z.div_pos; lia|apply Z.lt_succ_r, Z.div_lt_upper_bound; lia]).
  pose proof (Z.mod_pos_bound r 10).
  repeat constructor; apply digit_of; lia.
Qed.

Lemma digits_value_two R (a r : Z) :
  0 <= r < 100 ->
  digits_value R a [Z.to_N (48 + r / 10); Z.to_N (48 + r mod 10)] = Some (100 * a + r).
Proof.
  intros Hr.
  assert (0 <= r / 10 <= 9)
    by (split; [apply Z.div_pos; lia|apply Z.lt_succ_r, Z.div_lt_upper_bound; lia]).
  pose proof (Z.mod_pos_bound r 10).
  change [Z.to_N (48 + r / 10); Z.to_N (48 + r mod 10)]
    with ([Z.to_N (48 + r / 10)] ++ [Z.to_N (48 + r mod 10)]).
  rewrite digits_value_app, !digits_value_digit by lia.
  f_equal. pose proof (Z.div_mod r 10). lia.
Qed.

(** [float] reads a numeral with two decimals as the double nearest to
    it. *)
Lemma float_or_none_decimal R (q r : Z) :
  0 <= q -> 0 <= r < 100 ->
  float_or_none R (digits q ++ 46%N :: [Z.to_N (48 + r / 10); Z.to_N (48 + r mod 10)])
  = Ok (PFloat (decimal_to_float false (100 * q + r) (-2))).
Proof.
  intros Hq Hr. destruct (@digits_spec R q Hq) as (Hne & Hd & _ & Hv).
  pose proof (two_digits Hr) as Hf.
  set (fp := [Z.to_N (48 + r / 10); Z.to_N (48 + r mod 10)]) in *.
  unfold float_or_none.
  assert (Hrm : remove_char 46%N (digits q ++ 46%N :: fp) = digits q ++ fp).
  { transitivity (remove_char 46%N (digits q) ++ remove_char 46%N fp).
    - unfold remove_char. now rewrite filter_app.
    - now rewrite !remove_char_digits. }
  rewrite Hrm.
  rewrite isdigit_digits;
    [|destruct (digits q); discriminate|apply Forall_app; split; assumption].
  unfold py_float. change (lit ".") with [46%N].
  change (digits q ++ 46%N :: fp) with (digits q ++ [46%N] ++ fp).
  rewrite split_first;
    [|apply digits_lack; [lia|exact Hd]|unfold fp; discriminate].
  rewrite split_none; [|apply digits_lack; [lia|exact Hf]].
  rewrite digits_value_app, Hv. unfold fp at 2. rewrite digits_value_two by exact Hr.
  destruct (digits q) as [|c l] eqn:E; [contradiction|].
  cbn [app rbind List.length Z.of_nat]. do 3 f_equal; lia.
Qed.

Lemma float_or_none_format R (x : spec_float) :
  nonneg_finite x = true ->
  float_or_none R (format_2f x) = Ok (PFloat (decimal_to_float false (hundredths x) (-2))).
Proof.
  intros Hx. rewrite format_2f_nonneg by exact Hx.
  pose proof (hundredths_nonneg x) as Hn.
  pose proof (Z.mod_pos_bound (hundredths x) 100).
  rewrite float_or_none_decimal by (try lia; apply Z.div_pos; lia).
  do 3 f_equal. pose proof (Z.div_mod (hundredths x) 100). lia.
Qed.

Lemma format_2f_numeric (x : spec_float) :
  nonneg_finite x = true -> Forall (fun c => is_digit c \/ c = 46%N) (format_2f x).
Proof.
  intros Hx. rewrite format_2f_nonneg by exact Hx.
  pose proof (hundredths_nonneg x) as Hn.
  pose proof (Z.mod_pos_bound (hundredths x) 100).
  destruct (@digits_spec basic_latin (hundredths x / 100)) as (_ & Hd & _);
    [apply Z.div_pos; lia|].
  apply Forall_app. split; [now apply digits_numeric|].
  constructor; [now right|]. apply digits_numeric, two_digits. lia.
Qed.

Lemma numeric_lack (x : codepoint) (s : str) :
  (x < 46 \/ x = 47 \/ 57 < x)%N -> Forall (fun c => is_digit c \/ c = 46%N) s -> ~ In x s.
Proof.
  intros Hx Hd Hi. rewrite Forall_forall in Hd. destruct (Hd x Hi) as [[]|]; lia.
Qed.

(** A field [KEY:value] whose value is a numeral: the branch is chosen by
    the key alone. *)
Lemma parse_part_numeral R (d : dict) (key value : str) :
  ~ In 58%N key ->
  Forall (fun c => is_digit c \/ c = 46%N) value ->
  parse_part R d (key ++ 58%N :: value)
  = let key := lower R (strip key) in
    if str_eqb key (lit "raw") then rbind (int_or R PNone value) (store "raw_value" d)
    else if str_eqb key (lit "rms") then rbind (float_or_none R value) (store "rms_value" d)
    else if str_eqb key (lit "th") then
      rbind (float_or_none R value) (store "threshold_value" d)
    else if str_eqb key (lit "state") then rbind (int_or R PNone value) (store "state" d)
    else if str_eqb key (lit "move") then
      rbind (int_or R PNone value) (store "movement_count" d)
    else if str_eqb key (lit "connected") then
      rbind (int_or R (PInt 1) value) (store "is_connected" d)
    else if str_eqb key (lit "alarm") then
      rbind (int_or R (PInt 0) value) (store "is_alarm" d)
    else Ok d.
Proof.
  intros Hk Hv. unfold parse_part.
  rewrite contains_colon, split_once_first by exact Hk. cbv zeta.
  rewrite (strip_id (numeric_no_space Hv)), (numeric_not_na Hv). reflexivity.
Qed.

Lemma str_of_int_digits (n : Z) : 0 <= n -> str_of_int n = digits n.
Proof. intros H. unfold str_of_int. now replace (n <? 0) with false by lia. Qed.

Lemma digits_are_numeric (n : Z) :
  0 <= n -> Forall (fun c => is_digit c \/ c = 46%N) (digits n).
Proof.
  intros H. destruct (@digits_spec basic_latin n H) as (_ & Hd & _).
  now apply digits_numeric.
Qed.

Lemma small_is_short (n : Z) : 0 <= n <= 3200 -> 0 <= n < 2 ^ 600.
Proof.
  intros H. split; [lia|]. apply Z.le_lt_trans with 3200; [lia|reflexivity].
Qed.

(** The keys of the demo sender, as [parse_data] normalises them. *)
Ltac read_key R :=
  try change (lower R (strip (lit "RAW"))) with (lit "raw");
  try change (lower R (strip (lit "RMS"))) with (lit "rms");
  try change (lower R (strip (lit "TH"))) with (lit "th");
  try change (lower R (strip (lit "STATE"))) with (lit "state");
  try change (lower R (strip (lit "MOVE"))) with (lit "move");
  try change (lower R (strip (lit "CONNECTED"))) with (lit "connected");
  try change (lower R (strip (lit "ALARM"))) with (lit "alarm").

(** X14. What the demo sender writes for a connected device, the receiver
    reads back: for all draws that [random] can give, the integers come
    back as they were drawn, and [rms_value] and [threshold_value] as the
    doubles nearest to the two-decimal numerals that were sent. *)
Theorem connected_sample_is_read_back :
  forall (R : Runtime) (r : Draws),
    in_range r ->
    draw_connected r = 1 ->
    nonneg_finite (MQTTDemo.rms_value r) = true ->
    nonneg_finite (MQTTDemo.threshold_value r) = true ->
    parse_body R (MQTTDemo.generate_sample_data r)
    = Ok (PDict
            [ (lit "raw_value", PInt (draw_raw r));
              (lit "rms_value",
               PFloat (decimal_to_float false (hundredths (MQTTDemo.rms_value r)) (-2)));
              (lit "threshold_value",
               PFloat (decimal_to_float false
                         (hundredths (MQTTDemo.threshold_value r)) (-2)));
              (lit "state", PInt (draw_state r));
              (lit "movement_count", PInt (draw_move r));
              (lit "is_connected", PInt 1);
              (lit "is_alarm", PInt (draw_alarm r)) ]).
Proof.
  intros R r (Hraw & Hst & Hmv & _ & Hal) Hc Hrms Hth.
  assert (Hs : 0 <= draw_state r <= 3200) by lia.
  assert (Hm : 0 <= draw_move r <= 3200) by lia.
  assert (Ha : 0 <= draw_alarm r <= 3200) by lia.
  assert (Hr : 0 <= draw_raw r <= 3200) by lia.
  unfold MQTTDemo.generate_sample_data. rewrite Hc. cbn [Z.eqb].
  rewrite !str_of_int_digits by lia.
  set (v1 := digits (draw_raw r)). set (v2 := format_2f (MQTTDemo.rms_value r)).
  set (v3 := format_2f (MQTTDemo.threshold_value r)). set (v4 := digits (draw_state r)).
  set (v5 := digits (draw_move r)). set (v7 := digits (draw_alarm r)).
  assert (N1 : Forall (fun c => is_digit c \/ c = 46%N) v1) by (apply digits_are_numeric; lia).
  assert (N2 : Forall (fun c => is_digit c \/ c = 46%N) v2) by now apply format_2f_numeric.
  assert (N3 : Forall (fun c => is_digit c \/ c = 46%N) v3) by now apply format_2f_numeric.
  assert (N4 : Forall (fun c => is_digit c \/ c = 46%N) v4) by (apply digits_are_numeric; lia).
  assert (N5 : Forall (fun c => is_digit c \/ c = 46%N) v5) by (apply digits_are_numeric; lia).
  assert (N7 : Forall (fun c => is_digit c \/ c = 46%N) v7) by (apply digits_are_numeric; lia).
  assert (N6 : Forall (fun c => is_digit c \/ c = 46%N) (lit "1"))
    by (change (lit "1") with [49%N]; constructor; [left; unfold is_digit; lia|constructor]).
  assert (Q : forall (k : string) (v rest : str),
             Forall (fun c => is_digit c \/ c = 46%N) v ->
             ~ In 44%N (lit k) ->
             split (lit ", ") ((lit k ++ 58%N :: v) ++ lit ", " ++ rest)
             = (lit k ++ 58%N :: v) :: split (lit ", ") (rest)
             \/ rest = []).
  { intros k v rest Hv Hk. destruct rest as [|c rest]; [now right|left].
    apply split_first; [|discriminate].
    intros Hi. apply in_app_or in Hi as [Hi|[Hi|Hi]]; [now apply Hk|discriminate|].
    revert Hi. apply numeric_lack; [cbv; auto|exact Hv]. }
  unfold parse_body.
  replace (startswith (lit "{") (lit "RAW:" ++ v1 ++ lit ", RMS:" ++ v2 ++ lit ", TH:" ++ v3
             ++ lit ", STATE:" ++ v4 ++ lit ", MOVE:" ++ v5
             ++ lit ", CONNECTED:1, ALARM:" ++ v7)) with false by reflexivity.
  replace (lit "RAW:" ++ v1 ++ lit ", RMS:" ++ v2 ++ lit ", TH:" ++ v3
             ++ lit ", STATE:" ++ v4 ++ lit ", MOVE:" ++ v5
             ++ lit ", CONNECTED:1, ALARM:" ++ v7)
    with ((lit "RAW" ++ 58%N :: v1) ++ lit ", " ++
          (lit "RMS" ++ 58%N :: v2) ++ lit ", " ++
          (lit "TH" ++ 58%N :: v3) ++ lit ", " ++
          (lit "STATE" ++ 58%N :: v4) ++ lit ", " ++
          (lit "MOVE" ++ 58%N :: v5) ++ lit ", " ++
          (lit "CONNECTED" ++ 58%N :: lit "1") ++ lit ", " ++
          (lit "ALARM" ++ 58%N :: v7))
    by (rewrite <- !app_assoc; reflexivity).
  repeat match goal with
         | |- context [split (lit ", ") ((lit ?k ++ 58%N :: ?v) ++ lit ", " ++ ?rest)] =>
             destruct (Q k v rest) as [-> | Hnil];
             [assumption|no_slash| |discriminate Hnil]
         end.
  assert (Q7 : split (lit ", ") (lit "ALARM" ++ 58%N :: v7) = [lit "ALARM" ++ 58%N :: v7]).
  { apply split_none. intros Hi. apply in_app_or in Hi as [Hi|[Hi|Hi]];
      [revert Hi; no_slash|discriminate|revert Hi; apply numeric_lack; [cbv; auto|exact N7]]. }
  rewrite Q7.
  cbn [parse_parts]. unfold store.
  change (int_or R (PInt 1) (lit "1")) with (Ok (PInt 1) : Result pyval).
  do 7 (rewrite parse_part_numeral by (assumption || no_slash); cbv zeta;
        read_key R; eval_keys;
        unfold v1, v2, v3, v4, v5, v7;
        rewrite ?int_or_digits by (apply small_is_short; lia);
        rewrite ?float_or_none_format by assumption;
        try change (int_or R (PInt 1) (lit "1")) with (Ok (PInt 1) : Result pyval);
        unfold store; cbn [rbind dict_set]; eval_keys).
  reflexivity.
Qed.

Lemma connected_sample_is_read_back_witness :
  in_range connected_draws /\
  MQTTDemo.generate_sample_data connected_draws
  = lit "RAW:3000, RMS:1812.35, TH:1962.85, STATE:1, MOVE:5, CONNECTED:1, ALARM:1" /\
  parse_body basic_latin (MQTTDemo.generate_sample_data connected_draws)
  = Ok (PDict
          [ (lit "raw_value", PInt 3000);
            (lit "rms_value", PFloat (S754_finite false 7970799594399334 (-42)));
            (lit "threshold_value", PFloat (S754_finite false 8632705594320486 (-42)));
            (lit "state", PInt 1);
            (lit "movement_count", PInt 5);
            (lit "is_connected", PInt 1);
            (lit "is_alarm", PInt 1) ]).
Proof.
  assert (H : in_range connected_draws) by (unfold in_range; cbn; lia).
  split; [exact H|]. split; [vm_compute; reflexivity|].
  rewrite (@connected_sample_is_read_back basic_latin connected_draws H
             eq_refl eq_refl eq_refl).
  vm_compute. reflexivity.
Defined.

(** X15. For a device that is not connected the demo sender writes [N/A]
    for every reading, and the receiver keeps each of them as [None]: the
    row bound to the [INSERT] statement holds no reading, [is_connected]
    0 and the alarm flag that was drawn.  (The mapping names the absent
    threshold [th_value] and the absent count [move], not
    [threshold_value] and [movement_count].) *)
Theorem offline_sample_is_stored_without_readings :
  forall (R : Runtime) (E : Env) (r : Draws) (device_id : str),
    in_range r ->
    draw_connected r = 0 ->
    parse_body R (MQTTDemo.generate_sample_data r)
    = Ok (PDict
            [ (lit "raw_value", PNone);
              (lit "rms_value", PNone);
              (lit "th_value", PNone);
              (lit "state", PNone);
              (lit "move", PNone);
              (lit "is_connected", PInt 0);
              (lit "is_alarm", PInt (draw_alarm r)) ]) /\
    MySQLDataManager.row E device_id
      (dict_set (lit "timestamp") (PDatetime (now_stamp E))
         [ (lit "raw_value", PNone);
           (lit "rms_value", PNone);
           (lit "th_value", PNone);
           (lit "state", PNone);
           (lit "move", PNone);
           (lit "is_connected", PInt 0);
           (lit "is_alarm", PInt (draw_alarm r)) ])
    = [ PStr device_id; PNone; PNone; PNone; PNone; PNone;
        PInt 0; PInt (draw_alarm r); PDatetime (now_stamp E) ].
Proof.
  intros R E r device_id (_ & _ & _ & _ & Hal) Hc. split.
  - unfold MQTTDemo.generate_sample_data. rewrite Hc. cbn [Z.eqb].
    rewrite str_of_int_digits by lia.
    set (v7 := digits (draw_alarm r)).
    assert (N7 : Forall (fun c => is_digit c \/ c = 46%N) v7)
      by (apply digits_are_numeric; lia).
    unfold parse_body.
    replace (startswith (lit "{")
               (lit "RAW:N/A, RMS:N/A, TH:N/A, STATE:N/A, MOVE:N/A, CONNECTED:0, ALARM:"
                  ++ v7)) with false by reflexivity.
    assert (Q : forall (a rest : str),
               ~ In 44%N a -> rest <> [] ->
               split (lit ", ") (a ++ lit ", " ++ rest) = a :: split (lit ", ") rest)
      by (intros a rest; apply split_first).
    change (lit "RAW:N/A, RMS:N/A, TH:N/A, STATE:N/A, MOVE:N/A, CONNECTED:0, ALARM:" ++ v7)
      with (lit "RAW:N/A" ++ lit ", " ++ lit "RMS:N/A" ++ lit ", " ++ lit "TH:N/A" ++ lit ", "
              ++ lit "STATE:N/A" ++ lit ", " ++ lit "MOVE:N/A" ++ lit ", "
              ++ lit "CONNECTED:0" ++ lit ", " ++ (lit "ALARM" ++ 58%N :: v7)).
    rewrite !Q by (no_slash || discriminate).
    assert (Q7 : split (lit ", ") (lit "ALARM" ++ 58%N :: v7) = [lit "ALARM" ++ 58%N :: v7]).
    { apply split_none. intros Hi. apply in_app_or in Hi as [Hi|[Hi|Hi]];
        [revert Hi; no_slash|discriminate
        |revert Hi; apply numeric_lack; [cbv; auto|exact N7]]. }
    rewrite Q7.
    change [lit "RAW:N/A"; lit "RMS:N/A"; lit "TH:N/A"; lit "STATE:N/A"; lit "MOVE:N/A";
            lit "CONNECTED:0"; lit "ALARM" ++ 58%N :: v7]
      with ([lit "RAW:N/A"; lit "RMS:N/A"; lit "TH:N/A"; lit "STATE:N/A"; lit "MOVE:N/A";
             lit "CONNECTED:0"] ++ [lit "ALARM" ++ 58%N :: v7]).
    rewrite parse_parts_app.
    replace (parse_parts R []
               [lit "RAW:N/A"; lit "RMS:N/A"; lit "TH:N/A"; lit "STATE:N/A"; lit "MOVE:N/A";
                lit "CONNECTED:0"])
      with (Ok [ (lit "raw_value", PNone); (lit "rms_value", PNone); (lit "th_value", PNone);
                 (lit "state", PNone); (lit "move", PNone); (lit "is_connected", PInt 0) ]
            : Result dict)
      by (vm_compute; reflexivity).
    cbn [rbind parse_parts].
    rewrite parse_part_numeral by (assumption || no_slash). cbv zeta.
    read_key R. eval_keys. unfold v7.
    rewrite int_or_digits by (apply small_is_short; lia).
    unfold store. cbn [rbind dict_set]. eval_keys. reflexivity.
  - rewrite row_stamped. unfold MySQLDataManager.get, dict_get_default.
    cbn [dict_get]. eval_keys. reflexivity.
Qed.

Lemma offline_sample_is_stored_without_readings_witness :
  parse_body basic_latin
    (lit "RAW:N/A, RMS:N/A, TH:N/A, STATE:N/A, MOVE:N/A, CONNECTED:0, ALARM:1")
  = Ok (PDict
          [ (lit "raw_value", PNone);
            (lit "rms_value", PNone);
            (lit "th_value", PNone);
            (lit "state", PNone);
            (lit "move", PNone);
            (lit "is_connected", PInt 0);
            (lit "is_alarm", PInt 1) ]) /\
  MySQLDataManager.row (quiet_env 9) (lit "SB001")
    (dict_set (lit "timestamp") (PDatetime 9)
       [ (lit "raw_value", PNone);
         (lit "rms_value", PNone);
         (lit "th_value", PNone);
         (lit "state", PNone);
         (lit "move", PNone);
         (lit "is_connected", PInt 0);
         (lit "is_alarm", PInt 1) ])
  = [ PStr (lit "SB001"); PNone; PNone; PNone; PNone; PNone;
      PInt 0; PInt 1; PDatetime 9 ].
Proof.
  assert (H : in_range offline_draws) by (unfold in_range; cbn; lia).
  exact (@offline_sample_is_stored_without_readings basic_latin (quiet_env 9)
           offline_draws (lit "SB001") H eq_refl).
Defined.

(** ** The paged query *)

(** X16. With a page size above zero and a connection that answers,
    [get_paginated_data] asks for [per_page] rows from offset
    [(page - 1) * per_page] and reports [total_pages] as the least number
    of pages that hold [total_count] rows; [has_next] says that rows
    remain after this page, [has_prev] that the page is not the first. *)
Theorem pages_cover_the_rows :
  forall (C : Connection) (page per_page total_count : Z)
         (device_id start_time end_time : option str) (results : list DeviceRow),
    0 < per_page ->
    conn_cursor C = Some tt ->
    conn_count C (MySQLQueries.count_sql device_id start_time end_time)
               (MySQLQueries.params device_id start_time end_time) = Some total_count ->
    conn_select C (MySQLQueries.data_sql device_id start_time end_time)
                (MySQLQueries.params device_id start_time end_time
                   ++ [PInt per_page; PInt ((page - 1) * per_page)]) = Some results ->
    conn_close C = Some tt ->
    exists total_pages : Z,
      MySQLQueries.get_paginated_data C page per_page device_id start_time end_time
      = (PDict [ (lit "data", PList (map (MySQLQueries.convert C) results));
                 (lit "pagination",
                  PDict [ (lit "page", PInt page);
                          (lit "per_page", PInt per_page);
                          (lit "total_count", PInt total_count);
                          (lit "total_pages", PInt total_pages);
                          (lit "has_next", PBool (page * per_page <? total_count));
                          (lit "has_prev", PBool (1 <? page)) ]) ],
         [ (MySQLQueries.count_sql device_id start_time end_time,
            MySQLQueries.params device_id start_time end_time);
           (MySQLQueries.data_sql device_id start_time end_time,
            MySQLQueries.params device_id start_time end_time
              ++ [PInt per_page; PInt ((page - 1) * per_page)]) ]) /\
      (total_pages - 1) * per_page < total_count <= total_pages * per_page.
Proof.
  intros C page per_page total_count device_id start_time end_time results
         Hp Hc Hn Hs Hl.
  exists ((total_count + per_page - 1) / per_page).
  assert (Hdiv : (total_count + per_page - 1)
                 = per_page * ((total_count + per_page - 1) / per_page)
                   + (total_count + per_page - 1) mod per_page)
    by (apply Z.div_mod; lia).
  pose proof (Z.mod_pos_bound (total_count + per_page - 1) per_page Hp) as Hm.
  split; [|nia].
  unfold MySQLQueries.get_paginated_data. rewrite Hc. cbv zeta. cbn [fst snd].
  rewrite Hn, Hs, Hl.
  replace (per_page =? 0) with false by lia.
  do 8 f_equal.
  destruct (Z.ltb_spec page ((total_count + per_page - 1) / per_page));
    destruct (Z.ltb_spec (page * per_page) total_count); try reflexivity; nia.
Qed.

Lemma pages_cover_the_rows_witness :
  exists total_pages : Z,
    MySQLQueries.get_paginated_data (answering 45 []) 3 20 (Some (lit "SB001")) None None
    = (PDict [ (lit "data", PList []);
               (lit "pagination",
                PDict [ (lit "page", PInt 3);
                        (lit "per_page", PInt 20);
                        (lit "total_count", PInt 45);
                        (lit "total_pages", PInt total_pages);
                        (lit "has_next", PBool false);
                        (lit "has_prev", PBool true) ]) ],
       [ (lit "SELECT COUNT(*) FROM device_data WHERE device_id = %s", [PStr (lit "SB001")]);
         (MySQLQueries.data_sql (Some (lit "SB001")) None None,
          [PStr (lit "SB001"); PInt 20; PInt 40]) ]) /\
    (total_pages - 1) * 20 < 45 <= total_pages * 20.
Proof.
  exact (@pages_cover_the_rows (answering 45 []) 3 20 45 (Some (lit "SB001")) None None []
           eq_refl eq_refl eq_refl eq_refl eq_refl).
Defined.

(** X17. [get_paginated_data] answers with the empty page, the one whose
    [pagination] holds nothing, exactly when a call of the connection
    raised or the page size is zero; with a page size of zero both
    statements have been executed by then. *)
Theorem empty_page_iff_failure_or_zero_page_size :
  forall (C : Connection) (page per_page : Z) (device_id start_time end_time : option str),
    let first := (MySQLQueries.count_sql device_id start_time end_time,
                  MySQLQueries.params device_id start_time end_time) in
    let second := (MySQLQueries.data_sql device_id start_time end_time,
                   MySQLQueries.params device_id start_time end_time
                     ++ [PInt per_page; PInt ((page - 1) * per_page)]) in
    let answer := MySQLQueries.get_paginated_data C page per_page
                    device_id start_time end_time in
    (fst answer = MySQLQueries.no_page <->
     conn_cursor C = None \/
     conn_count C (fst first) (snd first) = None \/
     conn_select C (fst second) (snd second) = None \/
     conn_close C = None \/
     per_page = 0) /\
    (conn_cursor C = Some tt ->
     conn_count C (fst first) (snd first) <> None ->
     conn_select C (fst second) (snd second) <> None ->
     per_page = 0 ->
     snd answer = [first; second]).
Proof.
  intros C page per_page device_id start_time end_time. cbv zeta. cbn [fst snd].
  unfold MySQLQueries.get_paginated_data. cbv zeta. cbn [fst snd].
  destruct (conn_cursor C) as [[]|]; cbn [fst snd];
    [|split; [split; auto|discriminate]].
  destruct (conn_count C _ _) as [total|]; cbn [fst snd];
    [|split; [split; auto|congruence]].
  destruct (conn_select C _ _) as [results|]; cbn [fst snd];
    [|split; [split; auto|congruence]].
  destruct (conn_close C) as [[]|]; cbn [fst snd];
    [|split; [split; auto 6|reflexivity]].
  destruct (Z.eqb_spec per_page 0) as [->|Hz]; cbn [fst snd].
  - split; [split; auto 6|reflexivity].
  - split; [|intros; contradiction].
    split.
    + unfold MySQLQueries.no_page. intros H. discriminate H.
    + intros [H|[H|[H|[H|H]]]]; try discriminate; contradiction.
Qed.

Lemma empty_page_iff_failure_or_zero_page_size_witness :
  MySQLQueries.get_paginated_data (answering 45 []) 1 0 None None None
  = (MySQLQueries.no_page,
     [ (lit "SELECT COUNT(*) FROM device_data ", []);
       (MySQLQueries.data_sql None None None, [PInt 0; PInt 0]) ]).
Proof.
  destruct (@empty_page_iff_failure_or_zero_page_size (answering 45 []) 1 0 None None None)
    as [H1 H2].
  cbv zeta in H1, H2.
  destruct (MySQLQueries.get_paginated_data (answering 45 []) 1 0 None None None)
    as [answer calls].
  cbn [fst snd] in H1, H2. f_equal.
  - apply H1. auto 6.
  - apply H2; [reflexivity|discriminate|discriminate|reflexivity].
Defined.

(** X18. In both statements of [get_paginated_data] the number of [%s]
    is the number of arguments given with the statement, so the driver
    can always bind them; and the text of the statements depends only on
    which filters are present, never on their values. *)
Theorem placeholders_match_arguments :
  forall (device_id start_time end_time : option str) (page per_page : Z),
    placeholders (MySQLQueries.count_sql device_id start_time end_time)
    = List.length (MySQLQueries.params device_id start_time end_time) /\
    placeholders (MySQLQueries.data_sql device_id start_time end_time)
    = List.length (MySQLQueries.params device_id start_time end_time
                     ++ [PInt per_page; PInt ((page - 1) * per_page)]) /\
    (forall device_id' start_time' end_time' : option str,
        MySQLQueries.present device_id' = MySQLQueries.present device_id ->
        MySQLQueries.present start_time' = MySQLQueries.present start_time ->
        MySQLQueries.present end_time' = MySQLQueries.present end_time ->
        MySQLQueries.count_sql device_id' start_time' end_time'
        = MySQLQueries.count_sql device_id start_time end_time /\
        MySQLQueries.data_sql device_id' start_time' end_time'
        = MySQLQueries.data_sql device_id start_time end_time).
Proof.
  intros device_id start_time end_time page per_page.
  repeat apply conj.
  - destruct device_id as [[|c1 s1]|], start_time as [[|c2 s2]|], end_time as [[|c3 s3]|];
      vm_compute; reflexivity.
  - rewrite length_app.
    destruct device_id as [[|c1 s1]|], start_time as [[|c2 s2]|], end_time as [[|c3 s3]|];
      vm_compute; reflexivity.
  - unfold MySQLQueries.count_sql, MySQLQueries.data_sql, MySQLQueries.where_clause,
      MySQLQueries.conditions.
    intros d' s' e' -> -> ->. split; reflexivity.
Qed.

(** ** Tokens: what is trimmed, and what cannot fail *)

(** X19. The key of a token is read without regard to case and to the
    blanks around it, and the value without the blanks around it: two
    tokens whose keys agree after [strip] and [lower], and whose values
    agree after [strip], are read alike. *)
Theorem tokens_are_trimmed_and_case_blind :
  forall (R : Runtime) (d : dict) (key1 value1 key2 value2 : str),
    ~ In 58%N key1 ->
    ~ In 58%N key2 ->
    lower R (strip key1) = lower R (strip key2) ->
    strip value1 = strip value2 ->
    parse_part R d (key1 ++ 58%N :: value1) = parse_part R d (key2 ++ 58%N :: value2).
Proof.
  intros R d key1 value1 key2 value2 H1 H2 Hk Hv. unfold parse_part.
  rewrite !contains_colon, !split_once_first by assumption. cbv zeta.
  now rewrite Hk, Hv.
Qed.

Lemma tokens_are_trimmed_and_case_blind_witness :
  parse_part basic_latin [] (lit " Raw : 3000 ") = parse_part basic_latin [] (lit "RAW:3000") /\
  parse_part basic_latin [] (lit "RAW:3000") = Ok [(lit "raw_value", PInt 3000)].
Proof.
  split; [|reflexivity].
  refine (@tokens_are_trimmed_and_case_blind basic_latin [] (lit " Raw ") (lit " 3000 ")
            (lit "RAW") (lit "3000") _ _ eq_refl eq_refl); no_slash.
Defined.

Lemma first_occurrence (c : codepoint) (s : str) :
  In c s -> exists a b, s = a ++ c :: b /\ ~ In c a.
Proof.
  induction s as [|x s IH]; intros H; [contradiction|].
  destruct (N.eq_dec x c) as [->|Hx].
  - exists [], s. split; [reflexivity|intros []].
  - destruct H as [H|H]; [contradiction|].
    destruct (IH H) as (a & b & -> & Ha).
    exists (x :: a), b. split; [reflexivity|].
    intros [Hi|Hi]; [contradiction|now apply Ha].
Qed.

Lemma split_char_first (c : codepoint) (a rest : str) : forall cur,
  ~ In c a -> split_go [c] 0%nat cur (a ++ c :: rest) = (rev cur ++ a) :: split_go [c] 0%nat [] rest.
Proof.
  induction a as [|x a IH]; intros cur Hn.
  - cbn [app split_go startswith]. rewrite N.eqb_refl. cbn. now rewrite app_nil_r.
  - cbn [app split_go startswith].
    replace (c =? x)%N with false
      by (symmetry; apply N.eqb_neq; intros ->; apply Hn; now left).
    cbn [andb]. rewrite IH by (intros Hi; apply Hn; now right).
    cbn [rev]. now rewrite <- app_assoc.
Qed.

Lemma count_dots_app (a b : str) : count_dots (a ++ b) = (count_dots a + count_dots b)%nat.
Proof. unfold count_dots. now rewrite filter_app, length_app. Qed.

Lemma count_dots_zero (s : str) : count_dots s = 0%nat -> ~ In 46%N s.
Proof.
  unfold count_dots. induction s as [|x s IH]; intros H; [intros []|].
  cbn [filter] in H. destruct (N.eqb_spec 46 x) as [->|Hx]; [discriminate|].
  intros [Hi|Hi]; [now apply Hx|now apply IH].
Qed.

(** A text with at most one [.] has none, or one with none before and
    none after. *)
Lemma dots_cases (v : str) :
  (count_dots v <= 1)%nat ->
  ~ In 46%N v \/ exists ip fp, v = ip ++ 46%N :: fp /\ ~ In 46%N ip /\ ~ In 46%N fp.
Proof.
  intros H. destruct (in_dec N.eq_dec 46%N v) as [Hi|Hn]; [right|now left].
  destruct (@first_occurrence 46%N v Hi) as (ip & fp & -> & Hip).
  exists ip, fp. repeat split; auto.
  rewrite count_dots_app in H. unfold count_dots at 2 in H. cbn in H.
  apply count_dots_zero. unfold count_dots. lia.
Qed.

Lemma remove_char_none (c : codepoint) (s : str) : ~ In c s -> remove_char c s = s.
Proof.
  unfold remove_char. induction s as [|x s IH]; intros H; [reflexivity|].
  cbn [filter].
  replace (x =? c)%N with false
    by (symmetry; apply N.eqb_neq; intros ->; apply H; now left).
  cbn [negb]. rewrite IH; [reflexivity|]. intros Hi. apply H. now right.
Qed.

Lemma remove_char_app (c : codepoint) (a b : str) :
  remove_char c (a ++ b) = remove_char c a ++ remove_char c b.
Proof. unfold remove_char. apply filter_app. Qed.

(** On Basic Latin [isdigit] holds of the decimal numerals only. *)
Lemma isdigit_ascii R (s : str) :
  forallb (fun c => (c <? 128)%N) s = true -> isdigit R s = true ->
  s <> [] /\ Forall is_digit s.
Proof.
  intros Ha Hd. destruct s as [|c s]; [discriminate|]. split; [discriminate|].
  unfold isdigit in Hd. rewrite forallb_forall in Ha, Hd.
  apply Forall_forall. intros x Hx. specialize (Ha x Hx). specialize (Hd x Hx).
  unfold isdigit_char, is_ascii in Hd. rewrite Ha in Hd.
  apply andb_prop in Hd as [H1 H2]. apply N.leb_le in H1, H2. split; assumption.
Qed.

Lemma digits_value_some R (s : str) :
  Forall is_digit s -> forall a, exists n, digits_value R a s = Some n.
Proof.
  induction 1 as [|c s Hc _ IH]; intros a; cbn [digits_value]; [eauto|].
  rewrite decimal_char_digit by exact Hc. apply IH.
Qed.

Lemma int_or_plain R (dflt : pyval) (s : str) :
  forallb (fun c => (c <? 128)%N) s = true -> (List.length s <= 640)%nat ->
  exists v, int_or R dflt s = Ok v.
Proof.
  intros Ha Hl. unfold int_or. destruct (isdigit R s) eqn:Hd; [|eauto].
  destruct (@isdigit_ascii R s Ha Hd) as (Hne & Hds).
  destruct (@digits_value_some R _ Hds 0) as (n & Hn).
  unfold py_int. destruct s as [|c s]; [contradiction|]. rewrite Hn.
  unfold over_digit_limit.
  replace (640 <? N.of_nat (List.length (c :: s)))%N with false
    by (symmetry; apply N.ltb_ge; lia).
  cbn [andb rbind]. eauto.
Qed.

Lemma float_or_none_plain R (s : str) :
  forallb (fun c => (c <? 128)%N) s = true -> (count_dots s <= 1)%nat ->
  exists v, float_or_none R s = Ok v.
Proof.
  intros Ha Hdots. unfold float_or_none.
  destruct (isdigit R (remove_char 46%N s)) eqn:Hd; [|eauto].
  assert (Har : forallb (fun c => (c <? 128)%N) (remove_char 46%N s) = true).
  { rewrite forallb_forall in *. intros x Hx. apply Ha.
    unfold remove_char in Hx. now apply filter_In in Hx. }
  destruct (@isdigit_ascii R (remove_char 46%N s) Har Hd) as (Hne & Hds).
  destruct (@digits_value_some R _ Hds 0) as (n & Hn).
  unfold py_float. change (lit ".") with [46%N].
  destruct (@dots_cases s Hdots) as [Hno|(ip & fp & -> & Hip & Hfp)].
  - rewrite split_none by exact Hno. rewrite remove_char_none in Hn, Hne by exact Hno.
    destruct s; [contradiction|]. rewrite Hn. cbn [rbind]. eauto.
  - unfold split. rewrite split_char_first by exact Hip.
    change (split_go [46%N] 0%nat [] fp) with (split [46%N] fp).
    rewrite split_none by exact Hfp. cbn [rev app].
    rewrite remove_char_app in Hn, Hne.
    change (46%N :: fp) with ([46%N] ++ fp) in Hn, Hne.
    rewrite remove_char_app in Hn, Hne.
    change (remove_char 46%N [46%N]) with (@nil codepoint) in Hn, Hne.
    cbn [app] in Hn, Hne.
    rewrite (@remove_char_none 46%N ip Hip), (@remove_char_none 46%N fp Hfp) in Hn, Hne.
    rewrite Hn.
    match goal with
    | |- context [match ?x with [] => _ | _ :: _ => _ end] =>
        destruct x eqn:E; [now destruct Hne|]
    end.
    cbn [rbind]. eauto.
Qed.

Lemma lstrip_suffix (s : str) : exists p, s = p ++ lstrip s.
Proof.
  induction s as [|c s [p IH]]; [now exists []|].
  cbn [lstrip]. destruct (isspace_char c).
  - exists (c :: p). cbn [app]. now f_equal.
  - now exists [].
Qed.

Lemma strip_inside (s : str) : exists p q, s = p ++ strip s ++ q.
Proof.
  destruct (lstrip_suffix s) as [p Hp].
  destruct (lstrip_suffix (rev (lstrip s))) as [q Hq].
  exists p, (rev q). unfold strip, rstrip.
  rewrite <- rev_app_distr, <- Hq, rev_involutive. exact Hp.
Qed.

Lemma plain_token_inside (a b c : str) :
  plain_token (a ++ b ++ c) = true -> plain_token b = true.
Proof.
  unfold plain_token. intros H.
  apply andb_prop in H as [H H3]. apply andb_prop in H as [H1 H2].
  rewrite !forallb_app in H1.
  apply andb_prop in H1 as [_ H1]. apply andb_prop in H1 as [H1 _].
  apply Nat.leb_le in H2, H3.
  rewrite !length_app in H2. rewrite !count_dots_app in H3.
  apply andb_true_intro. split; [apply andb_true_intro; split|];
    [exact H1|apply Nat.leb_le; lia|apply Nat.leb_le; lia].
Qed.

(** A plain token is read without an exception. *)
Lemma parse_part_plain R (d : dict) (part : str) :
  plain_token part = true -> exists d', parse_part R d part = Ok d'.
Proof.
  intros Hp. unfold parse_part.
  destruct (contains (lit ":") part) eqn:Hc; [|eauto].
  change (lit ":") with [58%N] in Hc. rewrite contains_char in Hc.
  apply existsb_exists in Hc as (x & Hx & Hxc). apply N.eqb_eq in Hxc; subst x.
  destruct (@first_occurrence 58%N part Hx) as (key & value & -> & Hk).
  rewrite split_once_first by exact Hk. cbv zeta.
  destruct (strip_inside value) as (p & q & Hv).
  assert (Hs : plain_token (strip value) = true).
  { apply plain_token_inside with (a := key ++ 58%N :: p) (c := q).
    rewrite <- app_assoc. cbn [app]. now rewrite <- Hv. }
  unfold plain_token in Hs.
  apply andb_prop in Hs as [Hs H3]. apply andb_prop in Hs as [H1 H2].
  apply Nat.leb_le in H2, H3.
  destruct (str_eqb (strip value) (lit "N/A")); [eauto|].
  unfold store.
  repeat match goal with
         | |- context [if ?b then _ else _] => destruct b
         end;
    try (destruct (@int_or_plain R PNone (strip value) H1 H2) as (v & ->); cbn [rbind]; eauto);
    try (destruct (@int_or_plain R (PInt 1) (strip value) H1 H2) as (v & ->);
         cbn [rbind]; eauto);
    try (destruct (@int_or_plain R (PInt 0) (strip value) H1 H2) as (v & ->);
         cbn [rbind]; eauto);
    try (destruct (@float_or_none_plain R (strip value) H1 H3) as (v & ->);
         cbn [rbind]; eauto).
  eauto.
Qed.

Lemma parse_parts_plain R (parts : list str) : forall d,
  forallb plain_token parts = true -> exists d', parse_parts R d parts = Ok d'.
Proof.
  induction parts as [|p parts IH]; intros d H; cbn [parse_parts]; [eauto|].
  cbn [forallb] in H. apply andb_prop in H as [Hp Hps].
  destruct (@parse_part_plain R d p Hp) as (d1 & ->). cbn [rbind]. now apply IH.
Qed.

(** X20. A payload of the delimited form whose tokens are plain (Basic
    Latin, at most 640 characters, at most one [.] each) is always read:
    whatever the runtime, [parse_data] meets no exception and answers
    with a mapping, so a message with such a payload is never refused
    for a failure of the parse. *)
Theorem plain_tokens_never_fail :
  forall (R : Runtime) (payload : str) (w : World),
    startswith (lit "{") payload = false ->
    forallb plain_token (split (lit ", ") payload) = true ->
    exists d : dict,
      parse_body R payload = Ok (PDict d) /\
      parse_data R payload w = (Ok (PDict d), w).
Proof.
  intros R payload w Hs Hp.
  destruct (@parse_parts_plain R (split (lit ", ") payload) [] Hp) as (d & Hd).
  exists d.
  assert (Hb : parse_body R payload = Ok (PDict d))
    by (unfold parse_body; rewrite Hs, Hd; reflexivity).
  split; [exact Hb|].
  unfold parse_data, try_except, lift. now rewrite Hb.
Qed.

Lemma plain_tokens_never_fail_witness :
  exists d : dict,
    parse_body basic_latin (lit "RAW:3000, RMS:1.5, TH:.5, STATE:x, bogus, MOVE:07") = Ok (PDict d) /\
    parse_data basic_latin (lit "RAW:3000, RMS:1.5, TH:.5, STATE:x, bogus, MOVE:07") (fresh 0)
    = (Ok (PDict d), fresh 0).
Proof.
  exact (@plain_tokens_never_fail basic_latin
           (lit "RAW:3000, RMS:1.5, TH:.5, STATE:x, bogus, MOVE:07") (fresh 0)
           eq_refl eq_refl).
Defined.
